(** * docling-serve document enhancement: geometry, text quality and
      orchestration, embedded from [docling_serve/document_enhancement]. *)

From Stdlib Require Import ZArith List String Ascii Bool Lia.
From Corelib Require Import SpecFloat.
Import ListNotations.
Local Open Scope Z_scope.

(** ** Exceptions and results

    Python code either returns a value or raises.  [Raise] carries the
    class of the exception, which is all the handlers of the program
    look at (they catch [Exception]). *)

Inductive exn :=
| ZeroDivisionError
| OverflowError
| ValueError
| AttributeError
| TypeError
| IndexError
| ExternalError.

Inductive result (A : Type) :=
| Ok (a : A)
| Raise (e : exn).
Arguments Ok {A} a.
Arguments Raise {A} e.

Definition bind {A B} (m : result A) (k : A -> result B) : result B :=
  match m with
  | Ok a => k a
  | Raise e => Raise e
  end.

Declare Scope py_scope.
Delimit Scope py_scope with py.
Notation "x <- m ;; k" := (bind m (fun x => k))
  (at level 61, m at next level, right associativity) : py_scope.
Notation "' pat <- m ;; k" := (bind m (fun x => match x with pat => k end))
  (at level 61, pat pattern, m at next level, right associativity) : py_scope.
Local Open Scope py_scope.

(** ** Python numbers

    An [int] is an unbounded integer; a [float] is an IEEE 754 binary64
    value, for which the specification of the Rocq library is used
    ([prec = 53], [emax = 1024], rounding to nearest, ties to even). *)
Module PyNum.

Definition prec : Z := 53.
Definition emax : Z := 1024.

Definition float := spec_float.

Definition fadd : float -> float -> float := SFadd prec emax.
Definition fsub : float -> float -> float := SFsub prec emax.
Definition fmul : float -> float -> float := SFmul prec emax.
Definition fdiv : float -> float -> float := SFdiv prec emax.

Definition is_zero (f : float) : bool :=
  match f with
  | S754_zero _ => true
  | _ => false
  end.

(** The integer [z] as an unrounded binary number [z * 2^0]. *)
Definition exact (z : Z) : spec_float :=
  match z with
  | Z0 => S754_zero false
  | Zpos p => S754_finite false p 0
  | Zneg p => S754_finite true p 0
  end.

(** The double nearest to [z]. *)
Definition double (z : Z) : float := binary_normalize prec emax z 0 false.

(** [float(z)]: the double nearest to [z]; too large an int raises. *)
Definition float_of_int (z : Z) : result float :=
  match double z with
  | S754_infinity _ => Raise OverflowError
  | f => Ok f
  end.

(** [a / b] on two ints: the double nearest to the exact quotient. *)
Definition int_true_div (a b : Z) : result float :=
  if b =? 0 then Raise ZeroDivisionError
  else match fdiv (exact a) (exact b) with
       | S754_infinity _ => Raise OverflowError
       | f => Ok f
       end.

(** [int(f)]: truncation toward zero. *)
Definition trunc (f : float) : result Z :=
  match f with
  | S754_zero _ => Ok 0
  | S754_infinity _ => Raise OverflowError
  | S754_nan => Raise ValueError
  | S754_finite s m e =>
      let a := Z.shiftl (Zpos m) e in
      Ok (if s then - a else a)
  end.

Inductive num :=
| Int (z : Z)
| Float (f : float).

Definition to_float (a : num) : result float :=
  match a with
  | Int z => float_of_int z
  | Float f => Ok f
  end.

Definition arith (iop : Z -> Z -> Z) (fop : float -> float -> float)
           (a b : num) : result num :=
  match a, b with
  | Int x, Int y => Ok (Int (iop x y))
  | _, _ =>
      x <- to_float a ;;
      y <- to_float b ;;
      Ok (Float (fop x y))
  end.

Definition py_add := arith Z.add fadd.
Definition py_sub := arith Z.sub fsub.
Definition py_mul := arith Z.mul fmul.

Definition py_truediv (a b : num) : result num :=
  match a, b with
  | Int x, Int y => f <- int_true_div x y ;; Ok (Float f)
  | _, _ =>
      x <- to_float a ;;
      y <- to_float b ;;
      if is_zero y then Raise ZeroDivisionError
      else Ok (Float (fdiv x y))
  end.

Definition py_int (a : num) : result Z :=
  match a with
  | Int z => Ok z
  | Float f => trunc f
  end.

(** Comparison of a float with an int is exact in Python: the int is
    not rounded to a double first. *)
Definition compare_float_int (f : float) (z : Z) : option comparison :=
  match f with
  | S754_nan => None
  | S754_infinity s => Some (if s then Lt else Gt)
  | S754_zero _ => Some (0 ?= z)
  | S754_finite s m e =>
      let v := if s then Zneg m else Zpos m in
      Some (if 0 <=? e then (v * 2 ^ e ?= z) else (v ?= z * 2 ^ (- e)))
  end.

Definition py_compare (a b : num) : option comparison :=
  match a, b with
  | Int x, Int y => Some (x ?= y)
  | Float f, Float g => SFcompare f g
  | Float f, Int y => compare_float_int f y
  | Int x, Float g => option_map CompOpp (compare_float_int g x)
  end.

Definition py_gt (a b : num) : bool :=
  match py_compare a b with
  | Some Gt => true
  | _ => false
  end.

Definition py_le (a b : num) : bool :=
  match py_compare a b with
  | Some (Lt | Eq) => true
  | _ => false
  end.

Definition py_eq (a b : num) : bool :=
  match py_compare a b with
  | Some Eq => true
  | _ => false
  end.

(** Literals of the program. *)
Definition f_0_05 : float := S754_finite false 7205759403792794 (-57).
Definition f_0_5 : float := S754_finite false 4503599627370496 (-53).
Definition f_1_0 : float := S754_finite false 4503599627370496 (-52).

End PyNum.
Import PyNum.

(** ** Python strings

    A [str] is a sequence of Unicode code points.  ASCII literals of the
    program are written as Rocq strings and read through [str]. *)
Definition pystr : Type := list Z.

Fixpoint str (s : string) : pystr :=
  match s with
  | EmptyString => []
  | String c s' => Z.of_N (N_of_ascii c) :: str s'
  end.

(** [' '.join(parts)] *)
Fixpoint join_space (parts : list pystr) : pystr :=
  match parts with
  | [] => []
  | [p] => p
  | p :: rest => p ++ 32 :: join_space rest
  end.

Definition pystr_eqb (a b : pystr) : bool :=
  if list_eq_dec Z.eq_dec a b then true else false.

(** Truth value of a string: non-empty. *)
Definition truthy (s : pystr) : bool :=
  match s with
  | [] => false
  | _ :: _ => true
  end.

(** [needle in hay] for the names returned by [unicodedata.name]. *)
Fixpoint contains (needle hay : string) : bool :=
  if String.prefix needle hay then true
  else match hay with
       | EmptyString => false
       | String _ hay' => contains needle hay'
       end.

(** The rows of the Unicode character database that [str] methods and
    [unicodedata] consult.  The database belongs to the Python runtime,
    so the program is embedded over any such table.  [name c = None]
    stands for [unicodedata.name(c)] raising [ValueError].  The program
    never calls [str.isdecimal]; the column is kept because the
    specification speaks of decimal digits, which is what it answers. *)
Record UnicodeData := {
  name : Z -> option string;
  isalpha : Z -> bool;
  isdigit : Z -> bool;
  isdecimal : Z -> bool;
  isspace : Z -> bool
}.

Section Strip.
Variable U : UnicodeData.

Fixpoint lstrip (s : pystr) : pystr :=
  match s with
  | [] => []
  | c :: s' => if isspace U c then lstrip s' else s
  end.

Definition rstrip (s : pystr) : pystr := rev (lstrip (rev s)).

(** [s.strip()] *)
Definition strip (s : pystr) : pystr := rstrip (lstrip s).
End Strip.

(** ** bbox_utils.py *)

Module CoordOrigin.
Inductive t :=
| TOPLEFT
| TOPRIGHT
| BOTTOMLEFT
| BOTTOMRIGHT
| CENTER.

Definition value (o : t) : string :=
  match o with
  | TOPLEFT => "TOPLEFT"
  | TOPRIGHT => "TOPRIGHT"
  | BOTTOMLEFT => "BOTTOMLEFT"
  | BOTTOMRIGHT => "BOTTOMRIGHT"
  | CENTER => "CENTER"
  end.
End CoordOrigin.

(** What a [coord_origin] attribute may hold: a member of an enumeration
    (it has [.value]) or a plain string. *)
Inductive origin_attr :=
| OEnum (o : CoordOrigin.t)
| OStr (s : string).

Module BBox.
Record BoundingBox := {
  l : float;
  t : float;
  r : float;
  b : float;
  coord_origin : origin_attr
}.
End BBox.

Module Prov.
(** A provenance record.  [bbox] and [coord_origin] are read with
    [getattr] and a default, so either may be missing. *)
Record ProvenanceItem := {
  page_no : Z;
  bbox : option BBox.BoundingBox;
  coord_origin : option origin_attr
}.
End Prov.

(** The part of an element that the geometry code reads: [prov] is [None]
    when the attribute is missing, [bbox] is [None] when the attribute is
    missing or holds [None]. *)
Module Item.
Record t := {
  prov : option (list Prov.ProvenanceItem);
  bbox : option BBox.BoundingBox
}.
End Item.

Definition pixel_box : Type := Z * Z * Z * Z.

Definition origin_value (o : origin_attr) : string :=
  match o with
  | OEnum e => CoordOrigin.value e
  | OStr s => s
  end.

Definition str_in (s : string) (candidates : list string) : bool :=
  existsb (String.eqb s) candidates.

(** Reading an attribute that is absent (or reading through [None])
    raises [AttributeError]. *)
Definition attr {A} (o : option A) : result A :=
  match o with
  | Some a => Ok a
  | None => Raise AttributeError
  end.

(** [hasattr(item, 'prov') and item.prov], then [item.prov[0]] *)
Definition first_prov (item : Item.t) : option Prov.ProvenanceItem :=
  match Item.prov item with
  | Some (p :: _) => Some p
  | _ => None
  end.

(** [(v / pdf) * img] *)
Definition scaled (v pdf : float) (img : Z) : result num :=
  a <- py_truediv (Float v) (Float pdf) ;;
  py_mul a (Int img).

(** [int((v / pdf) * img)] *)
Definition scale (v pdf : float) (img : Z) : result Z :=
  a <- scaled v pdf img ;;
  py_int a.

(** [int(((pdf - v) / pdf) * img)] *)
Definition scale_mirrored (v pdf : float) (img : Z) : result Z :=
  a <- py_sub (Float pdf) (Float v) ;;
  a <- py_truediv a (Float pdf) ;;
  a <- py_mul a (Int img) ;;
  py_int a.

(** [int(((cy - v) / pdf) * img + img/2)] *)
Definition scale_centered (cy : num) (v pdf : float) (img : Z) : result Z :=
  a <- py_sub cy (Float v) ;;
  a <- py_truediv a (Float pdf) ;;
  a <- py_mul a (Int img) ;;
  h <- py_truediv (Int img) (Int 2) ;;
  a <- py_add a h ;;
  py_int a.

Definition get_pixel_bbox (item : Item.t) (pdf_w pdf_h : float) (img_w img_h : Z)
  : result pixel_box :=
  bbox <- match first_prov item with
          | Some p => Ok (Prov.bbox p)
          | None => b <- attr (Item.bbox item) ;; Ok (Some b)
          end ;;
  origin <- match first_prov item with
            | Some p =>
                Ok (match Prov.coord_origin p with
                    | Some o => o
                    | None => OEnum CoordOrigin.BOTTOMLEFT
                    end)
            | None =>
                b <- attr (Item.bbox item) ;; Ok (BBox.coord_origin b)
            end ;;
  let origin := origin_value origin in
  bbox <- attr bbox ;;
  '(x1, x2) <-
    (if str_in origin [CoordOrigin.value CoordOrigin.TOPLEFT;
                       CoordOrigin.value CoordOrigin.BOTTOMLEFT;
                       CoordOrigin.value CoordOrigin.CENTER] then
       x1 <- scale (BBox.l bbox) pdf_w img_w ;;
       x2 <- scale (BBox.r bbox) pdf_w img_w ;;
       Ok (x1, x2)
     else
       x1 <- scale_mirrored (BBox.r bbox) pdf_w img_w ;;
       x2 <- scale_mirrored (BBox.l bbox) pdf_w img_w ;;
       Ok (x1, x2)) ;;
  '(y1, y2) <-
    (if str_in origin [CoordOrigin.value CoordOrigin.TOPLEFT;
                       CoordOrigin.value CoordOrigin.TOPRIGHT] then
       y1 <- scale (BBox.t bbox) pdf_h img_h ;;
       y2 <- scale (BBox.b bbox) pdf_h img_h ;;
       Ok (y1, y2)
     else if str_in origin [CoordOrigin.value CoordOrigin.BOTTOMLEFT;
                            CoordOrigin.value CoordOrigin.BOTTOMRIGHT] then
       y1 <- scale_mirrored (BBox.t bbox) pdf_h img_h ;;
       y2 <- scale_mirrored (BBox.b bbox) pdf_h img_h ;;
       Ok (y1, y2)
     else
       _cx <- py_truediv (Float pdf_w) (Int 2) ;;
       cy <- py_truediv (Float pdf_h) (Int 2) ;;
       y1 <- scale_centered cy (BBox.t bbox) pdf_h img_h ;;
       y2 <- scale_centered cy (BBox.b bbox) pdf_h img_h ;;
       Ok (y1, y2)) ;;
  Ok (x1, y1, x2, y2).

Definition calculate_overlap_ratio (boxA boxB : pixel_box) : result num :=
  let '(a0, a1, a2, a3) := boxA in
  let '(b0, b1, b2, b3) := boxB in
  let xA := Z.max a0 b0 in
  let yA := Z.max a1 b1 in
  let xB := Z.min a2 b2 in
  let yB := Z.min a3 b3 in
  let inter_width := Z.max 0 (xB - xA) in
  let inter_height := Z.max 0 (yB - yA) in
  let inter_area := inter_width * inter_height in
  let area_A := (a2 - a0) * (a3 - a1) in
  if 0 <? area_A then py_truediv (Int inter_area) (Int area_A)
  else Ok (Int 0).

Module Cell.
(** A table cell of the document. *)
Record TableCell := {
  text : pystr;
  bbox : option BBox.BoundingBox;
  start_row_offset_idx : Z;
  start_col_offset_idx : Z
}.

Definition set_bbox (c : TableCell) (bx : BBox.BoundingBox) : TableCell :=
  {| text := text c; bbox := Some bx;
     start_row_offset_idx := start_row_offset_idx c;
     start_col_offset_idx := start_col_offset_idx c |}.

Definition set_text (c : TableCell) (s : pystr) : TableCell :=
  {| text := s; bbox := bbox c;
     start_row_offset_idx := start_row_offset_idx c;
     start_col_offset_idx := start_col_offset_idx c |}.

(** A cell has no [prov]; [get_pixel_bbox] reads its [bbox]. *)
Definition item (c : TableCell) : Item.t :=
  {| Item.prov := None; Item.bbox := bbox c |}.
End Cell.

Module Surya.
(** A cell predicted by the table recognizer; [bbox] is relative to
    the cropped table image. *)
Record TableCell := {
  row_id : Z;
  col_id : Z;
  bbox : float * float * float * float
}.
End Surya.

(** The constructor [BoundingBox(l=.., t=.., r=.., b=.., coord_origin=..)]:
    the four edges are stored as floats. *)
Definition BoundingBox (l t r b : num) (coord_origin : origin_attr)
  : result BBox.BoundingBox :=
  l <- to_float l ;;
  t <- to_float t ;;
  r <- to_float r ;;
  b <- to_float b ;;
  Ok {| BBox.l := l; BBox.t := t; BBox.r := r; BBox.b := b;
        BBox.coord_origin := coord_origin |}.

(** [cell.bbox] is assigned in place; the embedding returns the cell
    after the assignment. *)
Definition update_cell_bbox (cell : Cell.TableCell) (surya_cell : Surya.TableCell)
           (table_bbox : pixel_box) (page_dim : Z * Z) (pdf_w pdf_h : float)
  : result Cell.TableCell :=
  let '(tx1, ty1, tx2, ty2) := table_bbox in
  let '(img_w, img_h) := page_dim in
  let '(cx1, cy1, cx2, cy2) := Surya.bbox surya_cell in
  full_px1 <- py_add (Int tx1) (Float cx1) ;;
  full_py1 <- py_add (Int ty1) (Float cy1) ;;
  full_px2 <- py_add (Int tx1) (Float cx2) ;;
  full_py2 <- py_add (Int ty1) (Float cy2) ;;
  pdf_l <- (a <- py_truediv full_px1 (Int img_w) ;; py_mul a (Float pdf_w)) ;;
  pdf_t <- (a <- py_truediv full_py1 (Int img_h) ;; py_mul a (Float pdf_h)) ;;
  pdf_r <- (a <- py_truediv full_px2 (Int img_w) ;; py_mul a (Float pdf_w)) ;;
  pdf_b <- (a <- py_truediv full_py2 (Int img_h) ;; py_mul a (Float pdf_h)) ;;
  let thr := Int 4 in
  pdf_l <- py_add pdf_l thr ;;
  pdf_t <- py_add pdf_t thr ;;
  pdf_r <- py_sub pdf_r thr ;;
  pdf_b <- py_sub pdf_b thr ;;
  new_bbox <- BoundingBox pdf_l pdf_t pdf_r pdf_b (OEnum CoordOrigin.TOPLEFT) ;;
  Ok (Cell.set_bbox cell new_bbox).

(** ** text_quality_analyzer.py *)

Module Needs.
(** The dict [{'encoding': .., 'formula': ..}] returned by the analyzer. *)
Record t := {
  encoding : bool;
  formula : bool
}.

(** [True in d.values()] *)
Definition any (d : t) : bool := encoding d || formula d.
End Needs.

Section TextQualityAnalyzer.
Variable U : UnicodeData.

(** U+F09D, U+FFFD, U+F0AB, NUL, SUB, U+FFFD: the six literals of
    [error_chars], read from the bytes of the source file. *)
Definition error_chars : list Z := [61597; 65533; 61611; 0; 26; 65533].

(** [unicodedata.name(c, '')] *)
Definition name_or_empty (c : Z) : string :=
  match name U c with
  | Some n => n
  | None => EmptyString
  end.

Fixpoint _is_valid_non_ascii (text : pystr) : bool :=
  match text with
  | [] => true
  | char :: rest =>
      if 127 <? char then
        match name U char with
        | Some n =>
            if existsb (fun script => contains script n)
                       ["ARABIC"; "LATIN"; "MATHEMATICAL"]%string
            then _is_valid_non_ascii rest
            else false
        | None => false
        end
      else _is_valid_non_ascii rest
  end.

(** [re.search(r'[^\x00-\x7F]', text)] finds a character outside
    the range 0..127. *)
Definition search_non_ascii (text : pystr) : bool :=
  existsb (fun c => negb ((0 <=? c) && (c <=? 127))) text.

Definition _has_encoding_issues (text : pystr) : bool :=
  if existsb (fun char => existsb (Z.eqb char) text) error_chars then true
  else if search_non_ascii text && negb (_is_valid_non_ascii text) then true
  else false.

Definition _needs_formula_enhancement (text : pystr) : bool :=
  let has_digit := existsb (isdigit U) text in
  let has_latin :=
    existsb (fun c => contains "LATIN" (name_or_empty c))
            (filter (isalpha U) text) in
  has_latin && has_digit.

Definition needs_ocr_enhancement (text : pystr)
           (check_formula check_encoding : bool) : Needs.t :=
  if negb (truthy text) || negb (truthy (strip U text)) then
    {| Needs.encoding := false; Needs.formula := false |}
  else
    {| Needs.encoding :=
         if check_encoding then _has_encoding_issues text else false;
       Needs.formula :=
         if check_formula then _needs_formula_enhancement text else false |}.
End TextQualityAnalyzer.

(** ** Loops that mutate their elements in place

    [for_each body xs s] runs [body] on the elements of [xs] in order,
    threading the state [s].  When [body] raises, the loop stops: the
    elements already visited keep their new contents and the remaining
    ones are untouched. *)
Fixpoint for_each {A S : Type} (body : A -> S -> result unit * A * S)
         (xs : list A) (s : S) : result unit * list A * S :=
  match xs with
  | [] => (Ok tt, [], s)
  | x :: rest =>
      match body x s with
      | (Ok _, x', s') =>
          let '(res, rest', s'') := for_each body rest s' in
          (res, x' :: rest', s'')
      | (Raise e, x', s') => (Raise e, x' :: rest, s')
      end
  end.

(** ** ocr_enhancer.py *)

Module Ocr.
(** What the recognition model returns for one image. *)
Record TextLine := {
  text : pystr;
  confidence : num
}.

Record OCRResult := {
  text_lines : list TextLine
}.

Record TableResult := {
  cells : list Surya.TableCell
}.
End Ocr.

Module Table.
(** [table.data.table_cells] and the geometry of the table itself. *)
Record TableItem := {
  item : Item.t;
  table_cells : list Cell.TableCell
}.

Definition set_cells (tb : TableItem) (cs : list Cell.TableCell) : TableItem :=
  {| item := item tb; table_cells := cs |}.
End Table.

(** Calling an attribute that holds [None] raises [TypeError]. *)
Definition callable {A} (o : option A) : result A :=
  match o with
  | Some f => Ok f
  | None => Raise TypeError
  end.

Section OCREnhancer.
(** Images and the detection model are values of the imaging and
    model libraries. *)
Variable Image : Type.
Variable Detector : Type.
Variable U : UnicodeData.

(** The operations of the imaging library that the program calls. *)
Record Imaging := {
  size : Image -> Z * Z;
  crop : Image -> pixel_box -> result Image;
  new_rgb : Z * Z -> result Image;
  paste : Image -> Image -> Z * Z -> result Image;
  open_base64 : string -> result Image;
  to_grayscale : Image -> Image
}.

Definition RecognitionPredictor : Type :=
  Image -> option Detector -> bool -> result (list Ocr.OCRResult).

Definition TableRecPredictor : Type :=
  Image -> result (list Ocr.TableResult).

(** The dict returned by [load_predictors]. *)
Record Predictors := {
  recognition : option RecognitionPredictor;
  detection : option Detector;
  table_rec : option TableRecPredictor
}.

(** The model runtime: whether the package imports, and what the
    [n]-th attempt at probing the accelerator and at loading gives. *)
Record Runtime := {
  SURYA_AVAILABLE : bool;
  _try_cuda : nat -> bool;
  load_predictors : nat -> string -> result Predictors
}.

Record OCREnhancer := {
  _models_loaded : bool;
  _models_loading : bool;
  _recognition_predictor : option RecognitionPredictor;
  _detection_predictor : option Detector;
  _table_rec_predictor : option TableRecPredictor;
  _device : option string;
  (** number of load attempts made so far (not a field of the class) *)
  attempts : nat
}.

(** [OCREnhancer.__init__] *)
Definition new_OCREnhancer : OCREnhancer :=
  {| _models_loaded := false; _models_loading := false;
     _recognition_predictor := None; _detection_predictor := None;
     _table_rec_predictor := None; _device := None; attempts := 0 |}.

Variable pil : Imaging.
Variable rt : Runtime.

Definition _load_models (self : OCREnhancer) : OCREnhancer :=
  if _models_loaded self || _models_loading self then self
  else if negb (SURYA_AVAILABLE rt) then self
  else
    let n := attempts self in
    let use_cuda := _try_cuda rt n in
    let device := if use_cuda then "cuda"%string else "cpu"%string in
    match load_predictors rt n device with
    | Ok predictor =>
        {| _models_loaded := true; _models_loading := false;
           _recognition_predictor := recognition predictor;
           _detection_predictor := detection predictor;
           _table_rec_predictor := table_rec predictor;
           _device := Some device; attempts := S n |}
    | Raise _ =>
        {| _models_loaded := false; _models_loading := false;
           _recognition_predictor := _recognition_predictor self;
           _detection_predictor := _detection_predictor self;
           _table_rec_predictor := _table_rec_predictor self;
           _device := Some device; attempts := S n |}
    end.

Definition ensure_loaded (self : OCREnhancer) : OCREnhancer :=
  if negb (_models_loaded self) then _load_models self else self.

(** The region handed to the recognizer: the box grown by 5 pixels and
    clamped to the image, cropped, and pasted at the centre of a white
    canvas twice as wide and twice as high. *)
Definition padded_region (image : Image) (bbox : pixel_box) : result Image :=
  let '(x1, y1, x2, y2) := bbox in
  let thr := 5 in
  let '(width, height) := size pil image in
  let left := Z.max (x1 - thr) 0 in
  let top := Z.max (y1 - thr) 0 in
  let right := Z.min (x2 + thr) width in
  let bottom := Z.min (y2 + thr) height in
  cropped <- crop pil image (left, top, right, bottom) ;;
  let '(cropped_width, cropped_height) := size pil cropped in
  let scale_w := 2 in
  let scale_h := 2 in
  let bg_w := cropped_width * scale_w in
  let bg_h := cropped_height * scale_h in
  background <- new_rgb pil (bg_w, bg_h) ;;
  let paste_x := (bg_w - cropped_width) / 2 in
  let paste_y := (bg_h - cropped_height) / 2 in
  paste pil background cropped (paste_x, paste_y).

(** [line.confidence > 0.5] *)
Definition confident (line : Ocr.TextLine) : bool :=
  py_gt (Ocr.confidence line) (Float f_0_5).

(** The lines kept from the predictions of the recognizer. *)
Definition high_confidence_lines (predictions : list Ocr.OCRResult)
  : list pystr :=
  match predictions with
  | [] => []
  | first :: _ => map Ocr.text (filter confident (Ocr.text_lines first))
  end.

(** The body of the [try] block of [extract_text_from_region]. *)
Definition recognize_region (self : OCREnhancer) (image : Image)
           (bbox : pixel_box) (old_text : pystr) (math_mode : bool)
  : result pystr :=
  background <- padded_region image bbox ;;
  predictor <- callable (_recognition_predictor self) ;;
  predictions <- predictor background (_detection_predictor self) math_mode ;;
  let lines := high_confidence_lines predictions in
  let enhanced_text := strip U (join_space lines) in
  Ok (if truthy enhanced_text then enhanced_text else old_text).

Definition extract_text_from_region (self : OCREnhancer) (image : Image)
           (bbox : pixel_box) (old_text : pystr) (math_mode : bool)
  : pystr * OCREnhancer :=
  let self := ensure_loaded self in
  if negb (_models_loaded self) then (old_text, self)
  else
    match recognize_region self image bbox old_text math_mode with
    | Ok enhanced => (enhanced, self)
    | Raise _ => (old_text, self)
    end.

(** [{(cell.row_id, cell.col_id): cell for cell in cells}[(row, col)]]:
    a later cell with the same key replaces an earlier one. *)
Definition surya_cell_dict (cells : list Surya.TableCell) (row col : Z)
  : option Surya.TableCell :=
  find (fun c => (Surya.row_id c =? row) && (Surya.col_id c =? col))
       (rev cells).

(** The [for cell in table_cells] loop of [enhance_table_structure];
    an exception ends it and is swallowed by the enclosing [try]. *)
Fixpoint update_cells (predicted : list Surya.TableCell)
         (table_bbox : pixel_box) (page_dim : Z * Z) (pdf_w pdf_h : float)
         (cells : list Cell.TableCell) : list Cell.TableCell :=
  match cells with
  | [] => []
  | cell :: rest =>
      let row := Cell.start_row_offset_idx cell in
      let col := Cell.start_col_offset_idx cell in
      match surya_cell_dict predicted row col with
      | Some surya_cell =>
          match update_cell_bbox cell surya_cell table_bbox page_dim
                                 pdf_w pdf_h with
          | Ok cell' =>
              cell' :: update_cells predicted table_bbox page_dim
                                    pdf_w pdf_h rest
          | Raise _ => cell :: rest
          end
      | None =>
          cell :: update_cells predicted table_bbox page_dim pdf_w pdf_h rest
      end
  end.

Definition enhance_table_structure (self : OCREnhancer) (table_image : Image)
           (page_dim : Z * Z) (table_item : Table.TableItem)
           (table_bbox : pixel_box) (pdf_w pdf_h : float)
  : Table.TableItem * OCREnhancer :=
  let self := ensure_loaded self in
  if negb (_models_loaded self) then (table_item, self)
  else
    match (predictor <- callable (_table_rec_predictor self) ;;
           predictor table_image) with
    | Ok (surya_table :: _) =>
        (Table.set_cells table_item
           (update_cells (Ocr.cells surya_table) table_bbox page_dim
                         pdf_w pdf_h (Table.table_cells table_item)),
         self)
    | Ok [] => (table_item, self)
    | Raise _ => (table_item, self)
    end.
End OCREnhancer.

Arguments size {Image}.
Arguments crop {Image}.
Arguments new_rgb {Image}.
Arguments paste {Image}.
Arguments open_base64 {Image}.
Arguments to_grayscale {Image}.
Arguments recognition {Image Detector}.
Arguments detection {Image Detector}.
Arguments table_rec {Image Detector}.
Arguments SURYA_AVAILABLE {Image Detector}.
Arguments _try_cuda {Image Detector}.
Arguments load_predictors {Image Detector}.
Arguments _models_loaded {Image Detector}.
Arguments _models_loading {Image Detector}.
Arguments _recognition_predictor {Image Detector}.
Arguments _detection_predictor {Image Detector}.
Arguments _table_rec_predictor {Image Detector}.
Arguments _device {Image Detector}.
Arguments attempts {Image Detector}.
Arguments new_OCREnhancer {Image Detector}.
Arguments _load_models {Image Detector}.
Arguments ensure_loaded {Image Detector}.
Arguments padded_region {Image}.
Arguments recognize_region {Image Detector}.
Arguments extract_text_from_region {Image Detector}.
Arguments enhance_table_structure {Image Detector}.

(** ** The document *)

Module Page.
Record ImageRef := {
  uri : option string
}.

(** [size] is [(page.size.width, page.size.height)]. *)
Record PageItem := {
  size : float * float;
  image : option ImageRef
}.
End Page.

Module Text.
Record TextItem := {
  item : Item.t;
  text : pystr
}.

Definition set_text (x : TextItem) (s : pystr) : TextItem :=
  {| item := item x; text := s |}.
End Text.

Module Doc.
(** [pages] is a dict in insertion order. *)
Record Document := {
  texts : list Text.TextItem;
  tables : list Table.TableItem;
  pictures : list Item.t;
  form_items : list Item.t;
  key_value_items : list Item.t;
  pages : list (Z * Page.PageItem)
}.

Definition set_texts (d : Document) (xs : list Text.TextItem) : Document :=
  {| texts := xs; tables := tables d; pictures := pictures d;
     form_items := form_items d; key_value_items := key_value_items d;
     pages := pages d |}.

Definition set_tables (d : Document) (xs : list Table.TableItem) : Document :=
  {| texts := texts d; tables := xs; pictures := pictures d;
     form_items := form_items d; key_value_items := key_value_items d;
     pages := pages d |}.
End Doc.

(** [hasattr(item, 'prov') and item.prov and item.prov[0].page_no == page_num] *)
Definition on_page (page_num : Z) (item : Item.t) : bool :=
  match first_prov item with
  | Some p => Prov.page_no p =? page_num
  | None => false
  end.

(** ** image_processor.py *)

(** [s.split(",", 1)] unpacked into two names: [None] when there is no
    comma (the unpacking raises). *)
Fixpoint split_comma (s : string) : option (string * string) :=
  match s with
  | EmptyString => None
  | String c s' =>
      if Ascii.eqb c ","%char then Some (EmptyString, s')
      else match split_comma s' with
           | Some (h, d) => Some (String c h, d)
           | None => None
           end
  end.

Section ImageProcessor.
Variable Image : Type.
Variable pil : Imaging Image.

Definition preprocess_image (image : Image) : Image :=
  to_grayscale pil image.

Definition extract_page_image_from_data_uri (data_uri : string)
  : option Image :=
  if negb (String.prefix "data:" data_uri) then None
  else match split_comma data_uri with
       | None => None
       | Some (header, base64_data) =>
           match open_base64 pil base64_data with
           | Ok image => Some image
           | Raise _ => None
           end
       end.
End ImageProcessor.

Arguments preprocess_image {Image}.
Arguments extract_page_image_from_data_uri {Image}.

(** ** document_processor.py *)

Section DocumentEnhancer.
Variable Image : Type.
Variable Detector : Type.
Variable U : UnicodeData.
Variable pil : Imaging Image.
Variable rt : Runtime Image Detector.

Definition OCR : Type := OCREnhancer Image Detector.

Record DocumentEnhancer := {
  enable_formula_enhancement : bool;
  enable_character_encoding_fix : bool;
  ocr_enhancer : OCR
}.

(** [DocumentEnhancer.__init__] *)
Definition new_DocumentEnhancer (formula encoding : bool) : DocumentEnhancer :=
  {| enable_formula_enhancement := formula;
     enable_character_encoding_fix := encoding;
     ocr_enhancer := new_OCREnhancer |}.

Definition set_ocr (self : DocumentEnhancer) (o : OCR) : DocumentEnhancer :=
  {| enable_formula_enhancement := enable_formula_enhancement self;
     enable_character_encoding_fix := enable_character_encoding_fix self;
     ocr_enhancer := o |}.

Definition _should_enhance_text (self : DocumentEnhancer) (text : pystr)
  : Needs.t :=
  needs_ocr_enhancement U text
    (enable_formula_enhancement self) (enable_character_encoding_fix self).

Definition _get_page_image (page : Page.PageItem) : option Image :=
  match Page.image page with
  | Some img =>
      match Page.uri img with
      | Some u => extract_page_image_from_data_uri pil u
      | None => None
      end
  | None => None
  end.

(** The inner loop of [_collect_non_text_bboxes] over one attribute. *)
Fixpoint collect_bboxes (page_num : Z) (pdf_w pdf_h : float) (img_w img_h : Z)
         (items : list Item.t) : result (list pixel_box) :=
  match items with
  | [] => Ok []
  | item :: rest =>
      if on_page page_num item then
        bbox <- get_pixel_bbox item pdf_w pdf_h img_w img_h ;;
        more <- collect_bboxes page_num pdf_w pdf_h img_w img_h rest ;;
        Ok (bbox :: more)
      else collect_bboxes page_num pdf_w pdf_h img_w img_h rest
  end.

Definition _collect_non_text_bboxes (page_num : Z) (pdf_w pdf_h : float)
           (img_w img_h : Z) (document : Doc.Document)
  : result (list pixel_box) :=
  collect_bboxes page_num pdf_w pdf_h img_w img_h
    (Doc.pictures document ++ Doc.form_items document
     ++ Doc.key_value_items document
     ++ map Table.item (Doc.tables document)).

(** One round of the [for cell in table.data.table_cells] loop of
    [_process_tables]. *)
Definition process_cell (self : DocumentEnhancer) (page_image : Image)
           (pdf_w pdf_h : float) (img_w img_h : Z)
           (cell : Cell.TableCell) (ocr : OCR)
  : result unit * Cell.TableCell * OCR :=
  if Needs.any (_should_enhance_text self (Cell.text cell)) then
    let need_formula_enhancement :=
      Needs.formula (_should_enhance_text self (Cell.text cell)) in
    match get_pixel_bbox (Cell.item cell) pdf_w pdf_h img_w img_h with
    | Raise e => (Raise e, cell, ocr)
    | Ok cell_bbox =>
        let '(enhanced_text, ocr) :=
          extract_text_from_region U pil rt ocr page_image
            cell_bbox (Cell.text cell) need_formula_enhancement in
        if truthy enhanced_text
           && negb (pystr_eqb enhanced_text (Cell.text cell))
        then (Ok tt, Cell.set_text cell enhanced_text, ocr)
        else (Ok tt, cell, ocr)
    end
  else (Ok tt, cell, ocr).

(** One round of the [for table in tables] loop of [_process_tables]. *)
Definition process_table (self : DocumentEnhancer) (page_num : Z)
           (page_image : Image) (pdf_w pdf_h : float) (img_w img_h : Z)
           (table : Table.TableItem) (ocr : OCR)
  : result unit * Table.TableItem * OCR :=
  if negb (on_page page_num (Table.item table)) then (Ok tt, table, ocr)
  else
    match get_pixel_bbox (Table.item table) pdf_w pdf_h img_w img_h with
    | Raise e => (Raise e, table, ocr)
    | Ok table_bbox =>
        match crop pil page_image table_bbox with
        | Raise e => (Raise e, table, ocr)
        | Ok table_image =>
            let '(table, ocr) :=
              enhance_table_structure rt ocr table_image
                (img_w, img_h) table table_bbox pdf_w pdf_h in
            let '(res, cells, ocr) :=
              for_each (process_cell self page_image pdf_w pdf_h img_w img_h)
                       (Table.table_cells table) ocr in
            (res, Table.set_cells table cells, ocr)
        end
    end.

Definition _process_tables (self : DocumentEnhancer) (page_num : Z)
           (page_image : Image) (pdf_w pdf_h : float) (img_w img_h : Z)
           (tables : list Table.TableItem) (ocr : OCR)
  : result unit * list Table.TableItem * OCR :=
  for_each (process_table self page_num page_image pdf_w pdf_h img_w img_h)
           tables ocr.

(** [any(calculate_overlap_ratio(text_bbox, other) > 0.05 for other in ...)] *)
Fixpoint has_overlap (text_bbox : pixel_box) (non_text_bboxes : list pixel_box)
  : result bool :=
  match non_text_bboxes with
  | [] => Ok false
  | other_bbox :: rest =>
      ratio <- calculate_overlap_ratio text_bbox other_bbox ;;
      if py_gt ratio (Float f_0_05) then Ok true
      else has_overlap text_bbox rest
  end.

(** [calculate_overlap_ratio(text_bbox, other_bbox) > 0.05] *)
Definition occludes (text_bbox other_bbox : pixel_box) : bool :=
  match calculate_overlap_ratio text_bbox other_bbox with
  | Ok ratio => py_gt ratio (Float f_0_05)
  | Raise _ => false
  end.

(** One round of the [for text in texts] loop of
    [_process_text_elements]. *)
Definition process_text (self : DocumentEnhancer) (page_num : Z)
           (page_image : Image) (pdf_w pdf_h : float) (img_w img_h : Z)
           (non_text_bboxes : list pixel_box)
           (text : Text.TextItem) (ocr : OCR)
  : result unit * Text.TextItem * OCR :=
  if negb (on_page page_num (Text.item text)) then (Ok tt, text, ocr)
  else
    match (text_bbox <- get_pixel_bbox (Text.item text)
                                       pdf_w pdf_h img_w img_h ;;
           overlap <- has_overlap text_bbox non_text_bboxes ;;
           Ok (text_bbox, overlap)) with
    | Raise e => (Raise e, text, ocr)
    | Ok (text_bbox, true) => (Ok tt, text, ocr)
    | Ok (text_bbox, false) =>
        if Needs.any (_should_enhance_text self (Text.text text)) then
          let need_formula_enhancement :=
            Needs.formula (_should_enhance_text self (Text.text text)) in
          let '(enhanced_text, ocr) :=
            extract_text_from_region U pil rt ocr page_image
              text_bbox (Text.text text) need_formula_enhancement in
          if truthy enhanced_text
             && negb (pystr_eqb enhanced_text (Text.text text))
          then (Ok tt, Text.set_text text enhanced_text, ocr)
          else (Ok tt, text, ocr)
        else (Ok tt, text, ocr)
    end.

Definition _process_text_elements (self : DocumentEnhancer) (page_num : Z)
           (page_image : Image) (pdf_w pdf_h : float) (img_w img_h : Z)
           (non_text_bboxes : list pixel_box)
           (texts : list Text.TextItem) (ocr : OCR)
  : result unit * list Text.TextItem * OCR :=
  for_each (process_text self page_num page_image pdf_w pdf_h img_w img_h
                         non_text_bboxes)
           texts ocr.

Definition _process_page_elements (self : DocumentEnhancer)
           (page : Page.PageItem) (page_image : Image) (page_num : Z)
           (document : Doc.Document) (ocr : OCR)
  : result unit * Doc.Document * OCR :=
  let '(img_w, img_h) := size pil page_image in
  let '(pdf_w, pdf_h) := Page.size page in
  match _collect_non_text_bboxes page_num pdf_w pdf_h img_w img_h document with
  | Raise e => (Raise e, document, ocr)
  | Ok non_text_bboxes =>
      match _process_tables self page_num page_image pdf_w pdf_h img_w img_h
                            (Doc.tables document) ocr with
      | (Raise e, tables, ocr) => (Raise e, Doc.set_tables document tables, ocr)
      | (Ok _, tables, ocr) =>
          let document := Doc.set_tables document tables in
          let '(res, texts, ocr) :=
            _process_text_elements self page_num page_image pdf_w pdf_h
              img_w img_h non_text_bboxes (Doc.texts document) ocr in
          (res, Doc.set_texts document texts, ocr)
      end
  end.

(** The [for page_num, page in document.pages.items()] loop. *)
Fixpoint process_pages (self : DocumentEnhancer)
         (pages : list (Z * Page.PageItem)) (document : Doc.Document)
         (ocr : OCR) : result unit * Doc.Document * OCR :=
  match pages with
  | [] => (Ok tt, document, ocr)
  | (page_num, page) :: rest =>
      match _get_page_image page with
      | None => process_pages self rest document ocr
      | Some page_image =>
          let page_image := preprocess_image pil page_image in
          match _process_page_elements self page page_image page_num
                                       document ocr with
          | (Ok _, document, ocr) => process_pages self rest document ocr
          | (Raise e, document, ocr) => (Raise e, document, ocr)
          end
      end
  end.

(** The document is enhanced in place and the same object is returned:
    the outcome says whether the call returned or raised, next to the
    document and the enhancer as the call leaves them. *)
Definition process_conversion_result (self : DocumentEnhancer)
           (conversion_result : option Doc.Document)
  : result unit * option Doc.Document * DocumentEnhancer :=
  match conversion_result with
  | None => (Ok tt, conversion_result, self)
  | Some document =>
      if negb (enable_formula_enhancement self
               || enable_character_encoding_fix self)
      then (Ok tt, conversion_result, self)
      else
        let '(res, document, ocr) :=
          process_pages self (Doc.pages document) document
                        (ocr_enhancer self) in
        (res, Some document, set_ocr self ocr)
  end.
End DocumentEnhancer.

Arguments enable_formula_enhancement {Image Detector}.
Arguments enable_character_encoding_fix {Image Detector}.
Arguments ocr_enhancer {Image Detector}.
Arguments new_DocumentEnhancer {Image Detector}.
Arguments set_ocr {Image Detector}.
Arguments _should_enhance_text {Image Detector}.
Arguments _get_page_image {Image}.
Arguments process_cell {Image Detector}.
Arguments process_table {Image Detector}.
Arguments _process_tables {Image Detector}.
Arguments process_text {Image Detector}.
Arguments _process_text_elements {Image Detector}.
Arguments _process_page_elements {Image Detector}.
Arguments process_pages {Image Detector}.
Arguments process_conversion_result {Image Detector}.

(** ** The contracts of the specification, in its own words

    These definitions follow the prose of the specification, not the
    code; the properties below compare the two. *)
Module Spec.

(** The three axis rules, as the specification writes them.

    [int(v / pdf * img)] *)
Definition direct (v pdf : float) (img : Z) : result Z :=
  q <- py_truediv (Float v) (Float pdf) ;;
  p <- py_mul q (Int img) ;;
  py_int p.

(** [int((pdf - v) / pdf * img)] *)
Definition mirrored (v pdf : float) (img : Z) : result Z :=
  d <- py_sub (Float pdf) (Float v) ;;
  q <- py_truediv d (Float pdf) ;;
  p <- py_mul q (Int img) ;;
  py_int p.

(** [int((pdf / 2 - v) / pdf * img + img / 2)] *)
Definition centred (v pdf : float) (img : Z) : result Z :=
  c <- py_truediv (Float pdf) (Int 2) ;;
  d <- py_sub c (Float v) ;;
  q <- py_truediv d (Float pdf) ;;
  p <- py_mul q (Int img) ;;
  h <- py_truediv (Int img) (Int 2) ;;
  s <- py_add p h ;;
  py_int s.

(** [toPixelBBox]: the axis rules, one case per origin. *)
Definition toPixelBBox (box : BBox.BoundingBox) (origin : CoordOrigin.t)
           (pdfW pdfH : float) (imgW imgH : Z) : result pixel_box :=
  let l := BBox.l box in
  let t := BBox.t box in
  let r := BBox.r box in
  let b := BBox.b box in
  '(x1, x2) <-
    match origin with
    | CoordOrigin.TOPLEFT | CoordOrigin.BOTTOMLEFT | CoordOrigin.CENTER =>
        x1 <- direct l pdfW imgW ;;
        x2 <- direct r pdfW imgW ;;
        Ok (x1, x2)
    | CoordOrigin.TOPRIGHT | CoordOrigin.BOTTOMRIGHT =>
        x1 <- mirrored r pdfW imgW ;;
        x2 <- mirrored l pdfW imgW ;;
        Ok (x1, x2)
    end ;;
  '(y1, y2) <-
    match origin with
    | CoordOrigin.TOPLEFT | CoordOrigin.TOPRIGHT =>
        y1 <- direct t pdfH imgH ;;
        y2 <- direct b pdfH imgH ;;
        Ok (y1, y2)
    | CoordOrigin.BOTTOMLEFT | CoordOrigin.BOTTOMRIGHT =>
        y1 <- mirrored t pdfH imgH ;;
        y2 <- mirrored b pdfH imgH ;;
        Ok (y1, y2)
    | CoordOrigin.CENTER =>
        y1 <- centred t pdfH imgH ;;
        y2 <- centred b pdfH imgH ;;
        Ok (y1, y2)
    end ;;
  Ok (x1, y1, x2, y2).

(** The same rules on positive dimensions, in the operations of IEEE
    754 binary64: [iw] and [ih] are the image sizes as doubles, [hh] is
    half the image height. *)
Definition direct64 (v pdf img : float) : float := fmul (fdiv v pdf) img.

Definition mirrored64 (v pdf img : float) : float :=
  fmul (fdiv (fsub pdf v) pdf) img.

Definition centred64 (v pdf img half_img : float) : float :=
  fadd (fmul (fdiv (fsub (fdiv pdf (double 2)) v) pdf) img) half_img.

Definition x64 (origin : CoordOrigin.t) (l r pdfW iw : float)
  : float * float :=
  match origin with
  | CoordOrigin.TOPLEFT | CoordOrigin.BOTTOMLEFT | CoordOrigin.CENTER =>
      (direct64 l pdfW iw, direct64 r pdfW iw)
  | CoordOrigin.TOPRIGHT | CoordOrigin.BOTTOMRIGHT =>
      (mirrored64 r pdfW iw, mirrored64 l pdfW iw)
  end.

Definition y64 (origin : CoordOrigin.t) (t b pdfH ih hh : float)
  : float * float :=
  match origin with
  | CoordOrigin.TOPLEFT | CoordOrigin.TOPRIGHT =>
      (direct64 t pdfH ih, direct64 b pdfH ih)
  | CoordOrigin.BOTTOMLEFT | CoordOrigin.BOTTOMRIGHT =>
      (mirrored64 t pdfH ih, mirrored64 b pdfH ih)
  | CoordOrigin.CENTER =>
      (centred64 t pdfH ih hh, centred64 b pdfH ih hh)
  end.

(** The four coordinates truncated to integers, left to right. *)
Definition truncated (x y : float * float) : result pixel_box :=
  x1 <- trunc (fst x) ;;
  x2 <- trunc (snd x) ;;
  y1 <- trunc (fst y) ;;
  y2 <- trunc (snd y) ;;
  Ok (x1, y1, x2, y2).

Definition area (box : pixel_box) : Z :=
  let '(x1, y1, x2, y2) := box in (x2 - x1) * (y2 - y1).

Definition intersection (boxA boxB : pixel_box) : Z :=
  let '(ax1, ay1, ax2, ay2) := boxA in
  let '(bx1, by1, bx2, by2) := boxB in
  Z.max 0 (Z.min ax2 bx2 - Z.max ax1 bx1)
  * Z.max 0 (Z.min ay2 by2 - Z.max ay1 by1).

(** [overlapRatio]: intersection over the area of the first box, and 0
    when that area is 0. *)
Definition overlapRatio (boxA boxB : pixel_box) : result num :=
  if area boxA =? 0 then Ok (Int 0)
  else py_truediv (Int (intersection boxA boxB)) (Int (area boxA)).

(** The inverse of the TOPLEFT pixel formula on one coordinate. *)
Definition to_document (px : num) (img : Z) (pdf : float) : result num :=
  a <- py_truediv px (Int img) ;;
  py_mul a (Float pdf).

(** The cell box moved by the corner of the table and mapped back to
    document units, before any margin is applied. *)
Definition naive_inverse (cellPixelBox : float * float * float * float)
           (tableOriginPixel : Z * Z) (imgW imgH : Z) (pdfW pdfH : float)
  : result (num * num * num * num) :=
  let '(cx1, cy1, cx2, cy2) := cellPixelBox in
  let '(tx, ty) := tableOriginPixel in
  px1 <- py_add (Int tx) (Float cx1) ;;
  py1 <- py_add (Int ty) (Float cy1) ;;
  px2 <- py_add (Int tx) (Float cx2) ;;
  py2 <- py_add (Int ty) (Float cy2) ;;
  l <- to_document px1 imgW pdfW ;;
  t <- to_document py1 imgH pdfH ;;
  r <- to_document px2 imgW pdfW ;;
  b <- to_document py2 imgH pdfH ;;
  Ok (l, t, r, b).

(** [pixelCellToDocBBox]: the naive box with every edge moved inward by
    4 units, tagged TOPLEFT. *)
Definition pixelCellToDocBBox (cellPixelBox : float * float * float * float)
           (tableOriginPixel : Z * Z) (imgW imgH : Z) (pdfW pdfH : float)
  : result BBox.BoundingBox :=
  '(l, t, r, b) <- naive_inverse cellPixelBox tableOriginPixel
                                 imgW imgH pdfW pdfH ;;
  l <- py_add l (Int 4) ;;
  t <- py_add t (Int 4) ;;
  r <- py_sub r (Int 4) ;;
  b <- py_sub b (Int 4) ;;
  BoundingBox l t r b (OEnum CoordOrigin.TOPLEFT).

(** [needle] occurs in [hay]. *)
Definition mentions (needle hay : string) : Prop :=
  exists before after, hay = (before ++ needle ++ after)%string.

(** The character has a Unicode name, and the name mentions ARABIC,
    LATIN or MATHEMATICAL. *)
Definition accepted (U : UnicodeData) (c : Z) : Prop :=
  exists n,
    name U c = Some n
    /\ (mentions "ARABIC" n \/ mentions "LATIN" n
        \/ mentions "MATHEMATICAL" n).

(** An alphabetic character whose Unicode name mentions LATIN. *)
Definition latin_letter (U : UnicodeData) (c : Z) : Prop :=
  isalpha U c = true /\ exists n, name U c = Some n /\ mentions "LATIN" n.

(** One of the fixed replacement and control symbols: U+F09D, U+FFFD,
    U+F0AB, NUL, SUB. *)
Definition fixed_symbol (c : Z) : Prop :=
  c = 61597 \/ c = 65533 \/ c = 61611 \/ c = 0 \/ c = 26.

(** The first provenance record of the element targets the page. *)
Definition targets (item : Item.t) (page_num : Z) : Prop :=
  exists p rest,
    Item.prov item = Some (p :: rest) /\ Prov.page_no p = page_num.


(** The texts joined with single spaces. *)
Definition joined (lines : list pystr) : pystr :=
  match lines with
  | [] => []
  | first :: rest => first ++ flat_map (fun line => 32 :: line) rest
  end.

End Spec.

(** ** Predicates on characters *)

(** Two tables give the same row for the character [c]. *)
Definition same_rows (U V : UnicodeData) (c : Z) : Prop :=
  name U c = name V c /\ isalpha U c = isalpha V c
  /\ isdigit U c = isdigit V c /\ isspace U c = isspace V c.

(** The character has a Unicode name, and the name mentions one of the
    accepted scripts. *)
Definition accepted_script (U : UnicodeData) (c : Z) : bool :=
  match name U c with
  | Some n => contains "ARABIC" n || contains "LATIN" n
              || contains "MATHEMATICAL" n
  | None => false
  end.

(** ** Predicates on the model runtime and on documents *)

(** Initialization can never succeed: the package is missing, or every
    attempt at loading raises. *)
Definition never_loads {Image Detector : Type} (rt : Runtime Image Detector)
  : Prop :=
  SURYA_AVAILABLE rt = false
  \/ forall (n : nat) (device : string),
      exists e, load_predictors rt n device = Raise e.

(** The adapter has no model loaded. *)
Definition idle {Image Detector : Type} (ocr : OCREnhancer Image Detector)
  : Prop :=
  _models_loaded ocr = false.

(** The elements that [_collect_non_text_bboxes] walks through, in the
    order of the walk. *)
Definition non_text_items (document : Doc.Document) : list Item.t :=
  Doc.pictures document ++ Doc.form_items document
  ++ Doc.key_value_items document ++ map Table.item (Doc.tables document).

(** The outcome of a call that fails only when a conversion fails: it
    returns exactly when [good] holds, and an exception it raises is one
    for which [bad] holds. *)
Definition verdict (outcome : result unit) (good : Prop) (bad : exn -> Prop)
  : Prop :=
  (good -> outcome = Ok tt)
  /\ (outcome = Ok tt -> good)
  /\ (forall e, outcome = Raise e -> bad e).

Section Geometry.
Variable Image : Type.
Variable Detector : Type.
Variable U : UnicodeData.
Variable pil : Imaging Image.

(** Every conversion and crop that the pass makes on one page succeeds:
    the boxes of the elements on the page, the crops of its tables, and
    the boxes of the cells whose text calls for recognition. *)
Definition page_geometry_ok (self : DocumentEnhancer Image Detector)
           (document : Doc.Document) (page_num : Z) (page : Page.PageItem)
           (page_image : Image) : Prop :=
  let '(img_w, img_h) := size pil page_image in
  let '(pdf_w, pdf_h) := Page.size page in
  (forall item,
      In item (non_text_items document
               ++ map Text.item (Doc.texts document)) ->
      Spec.targets item page_num ->
      exists bx, get_pixel_bbox item pdf_w pdf_h img_w img_h = Ok bx)
  /\ (forall table bx,
         In table (Doc.tables document) ->
         Spec.targets (Table.item table) page_num ->
         get_pixel_bbox (Table.item table) pdf_w pdf_h img_w img_h = Ok bx ->
         exists region, crop pil page_image bx = Ok region)
  /\ (forall table cell,
         In table (Doc.tables document) ->
         Spec.targets (Table.item table) page_num ->
         In cell (Table.table_cells table) ->
         Needs.any (_should_enhance_text U self
                                         (Cell.text cell)) = true ->
         exists bx,
           get_pixel_bbox (Cell.item cell) pdf_w pdf_h img_w img_h = Ok bx).

Definition geometry_ok (self : DocumentEnhancer Image Detector)
           (document : Doc.Document) : Prop :=
  forall page_num page image,
    In (page_num, page) (Doc.pages document) ->
    _get_page_image pil page = Some image ->
    page_geometry_ok self document page_num page
                     (preprocess_image pil image).

(** One of those conversions or crops raises [e]. *)
Definition page_geometry_raises (self : DocumentEnhancer Image Detector)
           (document : Doc.Document) (page_num : Z) (page : Page.PageItem)
           (page_image : Image) (e : exn) : Prop :=
  let '(img_w, img_h) := size pil page_image in
  let '(pdf_w, pdf_h) := Page.size page in
  (exists item,
      In item (non_text_items document
               ++ map Text.item (Doc.texts document))
      /\ Spec.targets item page_num
      /\ get_pixel_bbox item pdf_w pdf_h img_w img_h = Raise e)
  \/ (exists table bx,
         In table (Doc.tables document)
         /\ Spec.targets (Table.item table) page_num
         /\ get_pixel_bbox (Table.item table) pdf_w pdf_h img_w img_h = Ok bx
         /\ crop pil page_image bx = Raise e)
  \/ (exists table cell,
         In table (Doc.tables document)
         /\ Spec.targets (Table.item table) page_num
         /\ In cell (Table.table_cells table)
         /\ Needs.any (_should_enhance_text U self (Cell.text cell)) = true
         /\ get_pixel_bbox (Cell.item cell) pdf_w pdf_h img_w img_h
            = Raise e).

Definition geometry_raises (self : DocumentEnhancer Image Detector)
           (document : Doc.Document) (e : exn) : Prop :=
  exists page_num page image,
    In (page_num, page) (Doc.pages document)
    /\ _get_page_image pil page = Some image
    /\ page_geometry_raises self document page_num page
                            (preprocess_image pil image) e.
End Geometry.

Arguments page_geometry_ok {Image Detector}.
Arguments geometry_ok {Image Detector}.
Arguments page_geometry_raises {Image Detector}.
Arguments geometry_raises {Image Detector}.

(** ** Sample data *)
Module Sample.

Definition digit_names : list string :=
  ["ZERO"; "ONE"; "TWO"; "THREE"; "FOUR"; "FIVE"; "SIX"; "SEVEN"; "EIGHT";
   "NINE"]%string.

Definition letter (c : Z) : string :=
  String (ascii_of_N (Z.to_N c)) EmptyString.

Definition between (lo hi c : Z) : bool := (lo <=? c) && (c <=? hi).

(** The Arabic letters BEH, REH, SAD, AIN, NOON and YEH. *)
Definition arabic_letters : list (Z * string) :=
  [(1576, "ARABIC LETTER BEH"); (1585, "ARABIC LETTER REH");
   (1589, "ARABIC LETTER SAD"); (1593, "ARABIC LETTER AIN");
   (1606, "ARABIC LETTER NOON"); (1610, "ARABIC LETTER YEH")]%string.

Definition lookup (c : Z) (rows : list (Z * string)) : option string :=
  option_map snd (find (fun row => fst row =? c) rows).

(** The rows of the Unicode character database for ASCII, for
    superscript two, for e with acute accent, for six Arabic letters,
    for one CJK ideograph and for the replacement character.  Any other
    code point is answered as an unnamed character that is neither
    letter, digit nor space. *)
Definition ucd : UnicodeData :=
  {| name := fun c =>
       if c =? 32 then Some "SPACE"%string
       else if between 48 57 c then
         Some ("DIGIT " ++ nth (Z.to_nat (c - 48)) digit_names "")%string
       else if c =? 61 then Some "EQUALS SIGN"%string
       else if between 65 90 c then
         Some ("LATIN CAPITAL LETTER " ++ letter c)%string
       else if between 97 122 c then
         Some ("LATIN SMALL LETTER " ++ letter (c - 32))%string
       else if c =? 178 then Some "SUPERSCRIPT TWO"%string
       else if c =? 233 then Some "LATIN SMALL LETTER E WITH ACUTE"%string
       else if c =? 20013 then Some "CJK UNIFIED IDEOGRAPH-4E2D"%string
       else if c =? 65533 then Some "REPLACEMENT CHARACTER"%string
       else lookup c arabic_letters;
     isalpha := fun c =>
       between 65 90 c || between 97 122 c || (c =? 233) || (c =? 20013)
       || existsb (fun row => fst row =? c) arabic_letters;
     isdigit := fun c => between 48 57 c || (c =? 178);
     isdecimal := between 48 57;
     isspace := fun c => between 9 13 c || between 28 32 c |}.

(** The text of the second example of the formula check. *)
Definition arabic_text : pystr := [1606; 1589; 32; 1593; 1585; 1576; 1610].

(** A box [(l, t, r, b)] given by integers. *)
Definition box (l t r b : Z) (o : origin_attr) : BBox.BoundingBox :=
  {| BBox.l := double l; BBox.t := double t;
     BBox.r := double r; BBox.b := double b;
     BBox.coord_origin := o |}.

(** An element without provenance that carries its own box. *)
Definition boxed (bx : BBox.BoundingBox) : Item.t :=
  {| Item.prov := None; Item.bbox := Some bx |}.

(** An element whose only provenance record is on [page] with box [bx]
    and a [coord_origin] attribute [o]. *)
Definition placed (page : Z) (bx : BBox.BoundingBox) (o : option origin_attr)
  : Item.t :=
  {| Item.prov := Some [ {| Prov.page_no := page; Prov.bbox := Some bx;
                            Prov.coord_origin := o |} ];
     Item.bbox := None |}.

(** A table cell whose box is out of date, and the cell predicted for
    it. *)
Definition stale_cell : Cell.TableCell :=
  {| Cell.text := str "x2";
     Cell.bbox := Some (box 0 0 1 1 (OEnum CoordOrigin.BOTTOMLEFT));
     Cell.start_row_offset_idx := 0;
     Cell.start_col_offset_idx := 0 |}.

Definition predicted_cell : Surya.TableCell :=
  {| Surya.row_id := 0; Surya.col_id := 0;
     Surya.bbox := (double 10, double 10, double 50, double 30) |}.

(** An image of which only the size is kept. *)
Inductive Raster := Blank (width height : Z).

Definition pil : Imaging Raster :=
  {| size := fun image => let 'Blank w h := image in (w, h);
     crop := fun _ region =>
               let '(x1, y1, x2, y2) := region in
               Ok (Blank (x2 - x1) (y2 - y1));
     new_rgb := fun dims => Ok (Blank (fst dims) (snd dims));
     paste := fun background _ _ => Ok background;
     open_base64 := fun _ => Ok (Blank 100 100);
     to_grayscale := fun image => image |}.

(** 0.9 *)
Definition f_0_9 : float := Eval vm_compute in fdiv (double 9) (double 10).

(** A recognizer that reads one line, " x", with confidence 0.9. *)
Definition recognizer : RecognitionPredictor Raster unit :=
  fun _ _ _ =>
    Ok [ {| Ocr.text_lines :=
              [ {| Ocr.text := str " x"; Ocr.confidence := Float f_0_9 |} ] |} ].

(** 0.3 *)
Definition f_0_3 : float := Eval vm_compute in fdiv (double 3) (double 10).

(** A recognizer that reads four lines: " a" with confidence 0.9, "zz"
    with 0.3, "c" with exactly 0.5 and "b " with 0.9. *)
Definition four_lines : list Ocr.OCRResult :=
  [ {| Ocr.text_lines :=
         [ {| Ocr.text := str " a"; Ocr.confidence := Float f_0_9 |};
           {| Ocr.text := str "zz"; Ocr.confidence := Float f_0_3 |};
           {| Ocr.text := str "c"; Ocr.confidence := Float f_0_5 |};
           {| Ocr.text := str "b "; Ocr.confidence := Float f_0_9 |} ] |} ].

Definition reader : RecognitionPredictor Raster unit :=
  fun _ _ _ => Ok four_lines.

(** A runtime in which loading succeeds and gives that recognizer. *)
Definition reading : Runtime Raster unit :=
  {| SURYA_AVAILABLE := true;
     _try_cuda := fun _ => false;
     load_predictors := fun _ _ =>
       Ok {| recognition := Some reader;
             detection := Some tt;
             table_rec := None |} |}.

(** A runtime in which loading succeeds on the general-purpose device. *)
Definition ready : Runtime Raster unit :=
  {| SURYA_AVAILABLE := true;
     _try_cuda := fun _ => false;
     load_predictors := fun _ _ =>
       Ok {| recognition := Some recognizer;
             detection := Some tt;
             table_rec := None |} |}.

(** The adapter after its first use in that runtime. *)
Definition loaded : OCREnhancer Raster unit :=
  _load_models ready new_OCREnhancer.

(** A runtime in which the package imports and loading always raises. *)
Definition broken : Runtime Raster unit :=
  {| SURYA_AVAILABLE := true;
     _try_cuda := fun _ => false;
     load_predictors := fun _ _ => Raise ExternalError |}.

(** A fresh orchestrator with the given flags. *)
Definition enhancer (formula encoding : bool) : DocumentEnhancer Raster unit :=
  new_DocumentEnhancer formula encoding.

Definition page (width height : Z) : Page.PageItem :=
  {| Page.size := (double width, double height);
     Page.image :=
       Some {| Page.uri := Some "data:image/png;base64,AAAA"%string |} |}.

(** A line of text, "x2", on page 1. *)
Definition line : Text.TextItem :=
  {| Text.item := placed 1 (box 10 90 40 80 (OEnum CoordOrigin.BOTTOMLEFT))
                         None;
     Text.text := str "x2" |}.

(** One page with a picture and the line of text next to it. *)
Definition document (width height : Z) : Doc.Document :=
  {| Doc.texts := [ line ];
     Doc.tables := [];
     Doc.pictures :=
       [ placed 1 (box 50 50 90 10 (OEnum CoordOrigin.BOTTOMLEFT)) None ];
     Doc.form_items := [];
     Doc.key_value_items := [];
     Doc.pages := [ (1, page width height) ] |}.


(** One page with a table whose only cell, "x2", carries no box. *)
Definition document_with_bare_cell : Doc.Document :=
  {| Doc.texts := [];
     Doc.tables :=
       [ {| Table.item :=
              placed 1 (box 10 90 90 10 (OEnum CoordOrigin.BOTTOMLEFT)) None;
            Table.table_cells :=
              [ {| Cell.text := str "x2"; Cell.bbox := None;
                   Cell.start_row_offset_idx := 0;
                   Cell.start_col_offset_idx := 0 |} ] |} ];
     Doc.pictures := [];
     Doc.form_items := [];
     Doc.key_value_items := [];
     Doc.pages := [ (1, page 100 100) ] |}.

End Sample.

(** ** enhancement_store.py *)

Module Store.
Record EnhancementOptions := {
  enable_advanced_formula_enrichment : bool;
  enable_character_encoding_fix : bool
}.

(** The dict [_store]: one entry per task id, in insertion order.  The
    lock serializes the calls; each method is one step. *)
Definition EnhancementStore : Type := list (string * EnhancementOptions).

(** [EnhancementStore.__init__] *)
Definition new_EnhancementStore : EnhancementStore := [].

(** [self._store[task_id] = options] *)
Fixpoint set_options (self : EnhancementStore) (task_id : string)
         (options : EnhancementOptions) : EnhancementStore :=
  match self with
  | [] => [(task_id, options)]
  | (k, v) :: rest =>
      if String.eqb k task_id then (k, options) :: rest
      else (k, v) :: set_options rest task_id options
  end.

(** [self._store.get(task_id)] *)
Fixpoint get_options (self : EnhancementStore) (task_id : string)
  : option EnhancementOptions :=
  match self with
  | [] => None
  | (k, v) :: rest =>
      if String.eqb k task_id then Some v else get_options rest task_id
  end.

(** [self._store.pop(task_id, None)] *)
Fixpoint remove_options (self : EnhancementStore) (task_id : string)
  : EnhancementStore :=
  match self with
  | [] => []
  | (k, v) :: rest =>
      if String.eqb k task_id then rest
      else (k, v) :: remove_options rest task_id
  end.

(** [self._store.clear()] *)
Definition clear (self : EnhancementStore) : EnhancementStore := [].

(** The keys of a dict are distinct. *)
Definition well_formed (self : EnhancementStore) : Prop :=
  NoDup (map fst self).
End Store.

(** ** Predicates on boxes, cells and documents *)

(** The five origin names that [get_pixel_bbox] tests for. *)
Definition origin_names : list string :=
  [CoordOrigin.value CoordOrigin.TOPLEFT; CoordOrigin.value CoordOrigin.TOPRIGHT;
   CoordOrigin.value CoordOrigin.BOTTOMLEFT;
   CoordOrigin.value CoordOrigin.BOTTOMRIGHT;
   CoordOrigin.value CoordOrigin.CENTER].

(** The box and the origin attribute that [get_pixel_bbox] reads from an
    element. *)
Definition declared (item : Item.t) (bx : BBox.BoundingBox) (o : origin_attr)
  : Prop :=
  match first_prov item with
  | Some p => Prov.bbox p = Some bx
              /\ o = match Prov.coord_origin p with
                     | Some a => a
                     | None => OEnum CoordOrigin.BOTTOMLEFT
                     end
  | None => Item.bbox item = Some bx /\ o = BBox.coord_origin bx
  end.

(** The pixel box moved by [(dx, dy)]. *)
Definition shift (dx dy : Z) (box : pixel_box) : pixel_box :=
  let '(x1, y1, x2, y2) := box in (x1 + dx, y1 + dy, x2 + dx, y2 + dy).

(** [inner] has positive width and height and lies inside [outer]. *)
Definition inside (inner outer : pixel_box) : Prop :=
  let '(x1, y1, x2, y2) := inner in
  let '(u1, v1, u2, v2) := outer in
  x1 < x2 /\ y1 < y2 /\ u1 <= x1 /\ v1 <= y1 /\ x2 <= u2 /\ y2 <= v2.

(** The conversions of [update_cell_bbox] that can raise: the corner of
    the table and the size of the image as floats, and the division by
    that size. *)
Definition frame_check (table_bbox : pixel_box) (page_dim : Z * Z)
  : result unit :=
  let '(tx1, ty1, tx2, ty2) := table_bbox in
  let '(img_w, img_h) := page_dim in
  _ <- float_of_int tx1 ;;
  _ <- float_of_int ty1 ;;
  w <- float_of_int img_w ;;
  if is_zero w then Raise ZeroDivisionError
  else
    h <- float_of_int img_h ;;
    if is_zero h then Raise ZeroDivisionError else Ok tt.

(** What enhancement may do to a cell: row and column stay, the text
    stays or becomes a non-empty text, the box stays or becomes a box
    tagged TOPLEFT. *)
Definition cell_enhanced (c c' : Cell.TableCell) : Prop :=
  Cell.start_row_offset_idx c' = Cell.start_row_offset_idx c
  /\ Cell.start_col_offset_idx c' = Cell.start_col_offset_idx c
  /\ (Cell.text c' = Cell.text c \/ Cell.text c' <> [])
  /\ (Cell.bbox c' = Cell.bbox c
      \/ exists bx, Cell.bbox c' = Some bx
                    /\ BBox.coord_origin bx = OEnum CoordOrigin.TOPLEFT).

Definition table_enhanced (tb tb' : Table.TableItem) : Prop :=
  Table.item tb' = Table.item tb
  /\ Forall2 cell_enhanced (Table.table_cells tb) (Table.table_cells tb').

Definition text_enhanced (t t' : Text.TextItem) : Prop :=
  Text.item t' = Text.item t
  /\ (Text.text t' = Text.text t \/ Text.text t' <> []).

Definition document_enhanced (d d' : Doc.Document) : Prop :=
  Forall2 text_enhanced (Doc.texts d) (Doc.texts d')
  /\ Forall2 table_enhanced (Doc.tables d) (Doc.tables d')
  /\ Doc.pictures d' = Doc.pictures d
  /\ Doc.form_items d' = Doc.form_items d
  /\ Doc.key_value_items d' = Doc.key_value_items d
  /\ Doc.pages d' = Doc.pages d.

(** A use of the adapter: what each of its entry points does first. *)
Definition uses {Image Detector : Type} (rt : Runtime Image Detector)
           (n : nat) (self : OCREnhancer Image Detector)
  : OCREnhancer Image Detector :=
  Nat.iter n (ensure_loaded rt) self.

(** The device that the [n]-th attempt at loading asks for. *)
Definition device_of {Image Detector : Type} (rt : Runtime Image Detector)
           (n : nat) : string :=
  if _try_cuda rt n then "cuda"%string else "cpu"%string.

(** The part before the first comma holds no comma. *)
Fixpoint no_comma (s : string) : bool :=
  match s with
  | EmptyString => true
  | String c s' => negb (Ascii.eqb c ","%char) && no_comma s'
  end.

(** ** What a pass over the document keeps *)

(** The adapter [after] is [before] after some number of uses. *)
Definition used {Image Detector : Type} (rt : Runtime Image Detector)
           (before after : OCREnhancer Image Detector) : Prop :=
  exists n, after = uses rt n before.

(** No page of [pages] that has an image holds the element. *)
Definition off_pages {Image : Type} (pil : Imaging Image)
           (pages : list (Z * Page.PageItem)) (item : Item.t) : Prop :=
  forall page_num page image,
    In (page_num, page) pages ->
    _get_page_image pil page = Some image ->
    on_page page_num item = false.

Section Kept.
Variable Image : Type.
Variable Detector : Type.
Variable U : UnicodeData.
Variable self : DocumentEnhancer Image Detector.

(** The elements that a pass does not visit. *)
Variable skipped : Item.t -> Prop.

(** The analyzer does not ask for the text to be recognized again. *)
Definition unflagged (text : pystr) : Prop :=
  Needs.any (_should_enhance_text U self text) = false.

Definition text_kept (t t' : Text.TextItem) : Prop :=
  text_enhanced t t'
  /\ (unflagged (Text.text t) -> t' = t)
  /\ (skipped (Text.item t) -> t' = t).

Definition cell_kept (c c' : Cell.TableCell) : Prop :=
  cell_enhanced c c'
  /\ (unflagged (Cell.text c) -> Cell.text c' = Cell.text c).

Definition table_kept (tb tb' : Table.TableItem) : Prop :=
  Table.item tb' = Table.item tb
  /\ Forall2 cell_kept (Table.table_cells tb) (Table.table_cells tb')
  /\ (skipped (Table.item tb) -> tb' = tb).

Definition document_kept (d d' : Doc.Document) : Prop :=
  Forall2 text_kept (Doc.texts d) (Doc.texts d')
  /\ Forall2 table_kept (Doc.tables d) (Doc.tables d')
  /\ Doc.pictures d' = Doc.pictures d
  /\ Doc.form_items d' = Doc.form_items d
  /\ Doc.key_value_items d' = Doc.key_value_items d
  /\ Doc.pages d' = Doc.pages d.
End Kept.

Arguments unflagged {Image Detector}.
Arguments text_kept {Image Detector}.
Arguments cell_kept {Image Detector}.
Arguments table_kept {Image Detector}.
Arguments document_kept {Image Detector}.

(** ** More sample data *)
Module Fixture.
(** A table recognizer that finds one table with one cell. *)
Definition table_recognizer : TableRecPredictor Sample.Raster :=
  fun _ => Ok [ {| Ocr.cells := [ Sample.predicted_cell ] |} ].

(** A recognizer that fails. *)
Definition failing_recognizer : RecognitionPredictor Sample.Raster unit :=
  fun _ _ _ => Raise ExternalError.

(** A runtime in which loading fails at the first attempt and succeeds
    from the second on. *)
Definition flaky : Runtime Sample.Raster unit :=
  {| SURYA_AVAILABLE := true;
     _try_cuda := fun _ => false;
     load_predictors := fun n _ =>
       match n with
       | O => Raise ExternalError
       | S _ => Ok {| recognition := Some failing_recognizer;
                      detection := Some tt;
                      table_rec := Some table_recognizer |}
       end |}.

(** The adapter after two uses in that runtime. *)
Definition adapter : OCREnhancer Sample.Raster unit :=
  uses flaky 2 new_OCREnhancer.

(** A table on page 1 with one cell. *)
Definition table : Table.TableItem :=
  {| Table.item :=
       Sample.placed 1 (Sample.box 10 90 90 10 (OEnum CoordOrigin.BOTTOMLEFT))
                     None;
     Table.table_cells := [ Sample.stale_cell ] |}.

(** A store that holds options for the tasks "a" and "b", in that
    order. *)
Definition formula_only : Store.EnhancementOptions :=
  {| Store.enable_advanced_formula_enrichment := true;
     Store.enable_character_encoding_fix := false |}.

Definition encoding_only : Store.EnhancementOptions :=
  {| Store.enable_advanced_formula_enrichment := false;
     Store.enable_character_encoding_fix := true |}.

Definition two_tasks : Store.EnhancementStore :=
  Store.set_options
    (Store.set_options Store.new_EnhancementStore "a" formula_only)
    "b" encoding_only.

(** A page that was not rendered, and a page whose image is a link. *)
Definition bare_page : Page.PageItem :=
  {| Page.size := (double 100, double 100); Page.image := None |}.

Definition linked_page : Page.PageItem :=
  {| Page.size := (double 100, double 100);
     Page.image := Some {| Page.uri := Some "http://host/page.png"%string |} |}.

(** A line and a table on page 1 of a document without page images. *)
Definition unrendered : Doc.Document :=
  {| Doc.texts := [ Sample.line ];
     Doc.tables := [ table ];
     Doc.pictures := [];
     Doc.form_items := [];
     Doc.key_value_items := [];
     Doc.pages := [ (1, bare_page); (2, linked_page) ] |}.

(** The orchestrator with both flags set and the adapter loaded. *)
Definition warm : DocumentEnhancer Sample.Raster unit :=
  set_ocr (Sample.enhancer true true) adapter.
End Fixture.

(** * Properties *)

(** ** Rounded division of two ints *)

Lemma digits2_pos_size (p : positive) : digits2_pos p = Pos.size p.
Proof. induction p; simpl; congruence. Qed.

Lemma Zdigits2_le (m k : Z) : 0 <= m -> 0 <= k -> m < 2 ^ k -> Zdigits2 m <= k.
Proof.
  intros Hm Hk Hlt. destruct m as [|p|p]; simpl; try lia.
  rewrite digits2_pos_size.
  assert (H := Pos.size_le p).
  assert (H2 : (2 ^ Pos.size p <= 2 * p)%positive) by exact H.
  assert (H3 : 2 ^ Z.pos (Pos.size p) <= 2 * Z.pos p).
  { rewrite <- Pos2Z.inj_pow. change (2 * Z.pos p) with (Z.pos (2 * p)). lia. }
  destruct (Z_le_gt_dec (Z.pos (Pos.size p)) k) as [|Hgt]; [assumption|exfalso].
  assert (2 ^ (k + 1) <= 2 ^ Z.pos (Pos.size p)) by (apply Z.pow_le_mono_r; lia).
  rewrite Z.pow_add_r in H0 by lia. lia.
Qed.

Lemma shr_1_m (mrs : shr_record) :
  0 <= shr_m mrs -> shr_m (shr_1 mrs) = shr_m mrs / 2.
Proof.
  destruct mrs as [m r s]. simpl. intros Hm.
  destruct m as [|[p|p|]|p]; simpl; try lia; try reflexivity.
  - rewrite Pos2Z.inj_xI. apply Z.div_unique with (r := 1); lia.
  - rewrite Pos2Z.inj_xO. apply Z.div_unique with (r := 0); lia.
Qed.

Lemma iter_shr_1_m (p : positive) :
  forall mrs, 0 <= shr_m mrs ->
    shr_m (iter_pos shr_1 p mrs) = shr_m mrs / 2 ^ Z.pos p.
Proof.
  induction p as [p IH|p IH|]; intros mrs Hm; simpl iter_pos.
  - assert (Hp : 0 < 2 ^ Z.pos p) by (apply Z.pow_pos_nonneg; lia).
    assert (Hpow : 2 ^ Z.pos p~1 = 2 * 2 ^ Z.pos p * 2 ^ Z.pos p).
    { assert (E : Z.pos p~1 = 1 + Z.pos p + Z.pos p) by lia.
      rewrite E, !Z.pow_add_r by lia. reflexivity. }
    assert (H1 : 0 <= shr_m (shr_1 mrs)).
    { rewrite shr_1_m by assumption. apply Z.div_pos; lia. }
    assert (H2 : 0 <= shr_m (iter_pos shr_1 p (shr_1 mrs))).
    { rewrite IH by assumption. apply Z.div_pos; assumption. }
    rewrite IH by assumption. rewrite IH by assumption.
    rewrite shr_1_m by assumption.
    rewrite !Z.div_div by lia. rewrite Hpow. f_equal; lia.
  - assert (Hp : 0 < 2 ^ Z.pos p) by (apply Z.pow_pos_nonneg; lia).
    assert (Hpow : 2 ^ Z.pos p~0 = 2 ^ Z.pos p * 2 ^ Z.pos p).
    { assert (E : Z.pos p~0 = Z.pos p + Z.pos p) by lia.
      rewrite E, Z.pow_add_r by lia. reflexivity. }
    assert (H2 : 0 <= shr_m (iter_pos shr_1 p mrs)).
    { rewrite IH by assumption. apply Z.div_pos; assumption. }
    rewrite IH by assumption. rewrite IH by assumption.
    rewrite !Z.div_div by lia. rewrite Hpow. f_equal; lia.
  - rewrite shr_1_m by assumption. reflexivity.
Qed.

Lemma shr_record_of_loc_m (m : Z) (l : location) :
  shr_m (shr_record_of_loc m l) = m.
Proof. destruct l as [|[]]; reflexivity. Qed.

(** A mantissa [m] at exponent [e <= -53] with [m * 2^e <= 1] keeps
    that bound through the shift of [shr_fexp]. *)
Lemma shr_fexp_le_one (m e : Z) (l : location) :
  0 <= m -> e <= -53 -> m <= 2 ^ (- e) ->
  forall mrs' e', shr_fexp prec emax m e l = (mrs', e') ->
    0 <= shr_m mrs' /\ e' <= -52 /\ shr_m mrs' <= 2 ^ (- e') /\
    (m < 2 ^ (- e) -> e' <= -53 /\ shr_m mrs' < 2 ^ (- e')).
Proof.
  intros Hm He Hle mrs' e' Hs.
  unfold shr_fexp, shr in Hs.
  assert (Hpow : 0 < 2 ^ (- e)) by (apply Z.pow_pos_nonneg; lia).
  assert (Hd : Zdigits2 m <= - e + 1).
  { apply Zdigits2_le; try lia. rewrite Z.pow_add_r by lia. lia. }
  assert (Hd' : m < 2 ^ (- e) -> Zdigits2 m <= - e).
  { intros. apply Zdigits2_le; lia. }
  set (f := fexp prec emax (Zdigits2 m + e)) in *.
  assert (Hf : f <= -52) by (unfold f, fexp, emin, prec, emax; lia).
  assert (Hf' : m < 2 ^ (- e) -> f <= -53).
  { intros H. specialize (Hd' H). unfold f, fexp, emin, prec, emax; lia. }
  destruct (f - e) as [|n|n] eqn:En.
  - inversion Hs; subst. rewrite shr_record_of_loc_m. repeat split; try lia.
  - inversion Hs; subst. clear Hs.
    rewrite iter_shr_1_m by (rewrite shr_record_of_loc_m; assumption).
    rewrite shr_record_of_loc_m.
    assert (Hn : 0 < 2 ^ Z.pos n) by (apply Z.pow_pos_nonneg; lia).
    assert (Hsplit : 2 ^ (- e) = 2 ^ (- (e + Z.pos n)) * 2 ^ Z.pos n).
    { rewrite <- Z.pow_add_r by lia. f_equal. lia. }
    assert (He' : e + Z.pos n = f) by lia.
    split; [apply Z.div_pos; lia|].
    split; [lia|].
    split.
    + apply Z.div_le_upper_bound; [lia|]. rewrite Z.mul_comm, <- Hsplit. assumption.
    + intros Hlt. split; [specialize (Hf' Hlt); lia|].
      apply Z.div_lt_upper_bound; [lia|]. rewrite Z.mul_comm, <- Hsplit. assumption.
  - inversion Hs; subst. rewrite shr_record_of_loc_m. repeat split; try lia.
Qed.

Lemma round_nearest_even_bounds (m : Z) (l : location) :
  m <= round_nearest_even m l <= m + 1.
Proof.
  destruct l as [|[]]; simpl; try lia. destruct (Z.even m); lia.
Qed.

(** Rounding a non-negative number below one gives a double in [0, 1]. *)
Lemma binary_round_aux_below_one (m e : Z) (l : location) :
  0 <= m -> e <= -53 -> m < 2 ^ (- e) ->
  binary_round_aux prec emax false m e l = S754_zero false \/
  exists m' e', binary_round_aux prec emax false m e l = S754_finite false m' e'
                /\ e' < 0 /\ Z.pos m' <= 2 ^ (- e').
Proof.
  intros Hm He Hlt. unfold binary_round_aux.
  destruct (shr_fexp prec emax m e l) as [mrs1 e1] eqn:E1.
  destruct (shr_fexp_le_one m e l Hm He (Z.lt_le_incl _ _ Hlt) _ _ E1)
    as (H1 & _ & _ & H1').
  destruct (H1' Hlt) as [He1 Hm1].
  set (m2 := round_nearest_even (shr_m mrs1) (loc_of_shr_record mrs1)).
  assert (Hr := round_nearest_even_bounds (shr_m mrs1) (loc_of_shr_record mrs1)).
  fold m2 in Hr.
  destruct (shr_fexp prec emax m2 e1 loc_Exact) as [mrs3 e3] eqn:E3.
  destruct (shr_fexp_le_one m2 e1 loc_Exact ltac:(lia) He1 ltac:(lia) _ _ E3)
    as (H3 & He3 & Hm3 & _).
  destruct (shr_m mrs3) as [|p|p] eqn:Ep; [left; reflexivity| |lia].
  right. exists p, e3.
  replace (e3 <=? emax - prec) with true
    by (symmetry; apply Z.leb_le; unfold emax, prec; lia).
  repeat split; [lia|assumption].
Qed.

Lemma Zdigits2_pos_mono (p q : positive) :
  (p <= q)%positive -> Zdigits2 (Z.pos p) <= Zdigits2 (Z.pos q).
Proof.
  intros Hpq. apply Zdigits2_le; [lia|simpl; lia|].
  simpl. rewrite digits2_pos_size.
  assert (H := Pos.size_gt q).
  assert (Z.pos q < 2 ^ Z.pos (Pos.size q)); [|lia].
  rewrite <- Pos2Z.inj_pow. lia.
Qed.

Lemma fdiv_exact_lt (p q : positive) :
  (p < q)%positive ->
  fdiv (exact (Z.pos p)) (exact (Z.pos q)) = S754_zero false \/
  exists m e, fdiv (exact (Z.pos p)) (exact (Z.pos q)) = S754_finite false m e
              /\ e < 0 /\ Z.pos m <= 2 ^ (- e).
Proof.
  intros Hpq. unfold fdiv, exact, SFdiv, SFdiv_core_binary.
  assert (Hd := Zdigits2_pos_mono p q ltac:(lia)).
  set (d1 := Zdigits2 (Z.pos p)) in *. set (d2 := Zdigits2 (Z.pos q)) in *.
  set (e' := Z.min (fexp prec emax (d1 + 0 - (d2 + 0))) (0 - 0)).
  assert (He' : e' <= -53) by (unfold e', fexp, emin, prec, emax; lia).
  destruct (0 - 0 - e') as [|s|s] eqn:Es; try lia.
  rewrite Z.shiftl_mul_pow2 by lia.
  assert (Hs : Z.pos s = - e') by lia.
  assert (Hpow : 0 < 2 ^ Z.pos s) by (apply Z.pow_pos_nonneg; lia).
  assert (Hq := Z.div_eucl_eq (Z.pos p * 2 ^ Z.pos s) (Z.pos q) ltac:(lia)).
  assert (Hr := Z.mod_pos_bound (Z.pos p * 2 ^ Z.pos s) (Z.pos q) ltac:(lia)).
  unfold Z.modulo in Hr.
  destruct (Z.div_eucl (Z.pos p * 2 ^ Z.pos s) (Z.pos q)) as [qt r].
  simpl xorb.
  apply binary_round_aux_below_one; [nia|assumption|].
  rewrite <- Hs. nia.
Qed.

Lemma fdiv_exact_self (q : positive) :
  fdiv (exact (Z.pos q)) (exact (Z.pos q)) = f_1_0.
Proof.
  unfold fdiv, exact, SFdiv, SFdiv_core_binary.
  replace (Zdigits2 (Z.pos q) + 0 - (Zdigits2 (Z.pos q) + 0)) with 0 by lia.
  change (Z.min (fexp prec emax 0) (0 - 0)) with (-53).
  change (0 - 0 - -53) with 53.
  rewrite Z.shiftl_mul_pow2 by lia.
  assert (Hq : Z.pos q * 2 ^ 53 / Z.pos q = 2 ^ 53)
    by (rewrite Z.mul_comm; apply Z.div_mul; lia).
  assert (Hr : (Z.pos q * 2 ^ 53) mod Z.pos q = 0)
    by (rewrite Z.mul_comm; apply Z.mod_mul; lia).
  unfold Z.div, Z.modulo in Hq, Hr.
  destruct (Z.div_eucl (Z.pos q * 2 ^ 53) (Z.pos q)) as [qt r].
  simpl in Hq, Hr. subst qt r.
  destruct q; vm_compute; reflexivity.
Qed.

(** ** The result monad *)

Lemma bind_assoc {A B C : Type} (m : result A) (f : A -> result B)
      (g : B -> result C) :
  bind (bind m f) g = bind m (fun x => bind (f x) g).
Proof. destruct m; reflexivity. Qed.

Ltac step_bind :=
  match goal with
  | |- context [bind ?m _] =>
      lazymatch m with
      | Ok _ => fail
      | Raise _ => fail
      | _ => destruct m eqn:?; simpl bind
      end
  end.

Ltac step_bind_in H :=
  match type of H with
  | context [bind ?m _] =>
      lazymatch m with
      | Ok _ => fail
      | Raise _ => fail
      | _ => destruct m eqn:?; simpl bind in H
      end
  end.

(** Arithmetic with a float operand gives a float. *)
Lemma arith_float_r (iop : Z -> Z -> Z) (fop : float -> float -> float)
      (a : num) (g : float) (x : num) :
  arith iop fop a (Float g) = Ok x -> exists f, x = Float f.
Proof.
  unfold arith. destruct a as [z|f]; simpl.
  - destruct (float_of_int z); simpl; intros H; inversion H; eauto.
  - intros H; inversion H; eauto.
Qed.

Lemma arith_float_l (iop : Z -> Z -> Z) (fop : float -> float -> float)
      (g : float) (b : num) (x : num) :
  arith iop fop (Float g) b = Ok x -> exists f, x = Float f.
Proof.
  unfold arith. destruct b as [z|f]; simpl.
  - destruct (float_of_int z); simpl; intros H; inversion H; eauto.
  - intros H; inversion H; eauto.
Qed.

(** ** Coordinate conversion *)

Lemma float_of_int_2 : float_of_int 2 = Ok (S754_finite false 4503599627370496 (-51)).
Proof. reflexivity. Qed.

(** The helpers of the code compute the axis rules. *)
Lemma scale_direct (v pdf : float) (img : Z) :
  scale v pdf img = Spec.direct v pdf img.
Proof. unfold scale, scaled, Spec.direct. apply bind_assoc. Qed.

Lemma scale_mirrored_mirrored (v pdf : float) (img : Z) :
  scale_mirrored v pdf img = Spec.mirrored v pdf img.
Proof. reflexivity. Qed.

Lemma half_of_float (pdf : float) :
  py_truediv (Float pdf) (Int 2) = Ok (Float (fdiv pdf (double 2))).
Proof. unfold py_truediv, to_float. rewrite float_of_int_2. reflexivity. Qed.

Lemma scale_centered_centred (v pdf : float) (img : Z) :
  scale_centered (Float (fdiv pdf (double 2))) v pdf img
  = Spec.centred v pdf img.
Proof.
  unfold Spec.centred. rewrite half_of_float. reflexivity.
Qed.

Lemma get_pixel_bbox_resolved (item : Item.t) (bx : BBox.BoundingBox)
      (o : CoordOrigin.t) (pdf_w pdf_h : float) (img_w img_h : Z) :
  (match first_prov item with
   | Some p => Prov.bbox p = Some bx /\
               (Prov.coord_origin p = Some (OEnum o) \/
                Prov.coord_origin p = Some (OStr (CoordOrigin.value o)) \/
                (Prov.coord_origin p = None /\ o = CoordOrigin.BOTTOMLEFT))
   | None => Item.bbox item = Some bx /\
             (BBox.coord_origin bx = OEnum o \/
              BBox.coord_origin bx = OStr (CoordOrigin.value o))
   end) ->
  get_pixel_bbox item pdf_w pdf_h img_w img_h
  = Spec.toPixelBBox bx o pdf_w pdf_h img_w img_h.
Proof.
  intros H.
  assert (E : get_pixel_bbox item pdf_w pdf_h img_w img_h
              = get_pixel_bbox {| Item.prov := None;
                                  Item.bbox :=
                                    Some {| BBox.l := BBox.l bx;
                                            BBox.t := BBox.t bx;
                                            BBox.r := BBox.r bx;
                                            BBox.b := BBox.b bx;
                                            BBox.coord_origin := OEnum o |} |}
                               pdf_w pdf_h img_w img_h).
  { unfold get_pixel_bbox. destruct (first_prov item) as [p|].
    - destruct H as [Hb Ho]. rewrite Hb.
      assert (Hv : origin_value (match Prov.coord_origin p with
                                 | Some o0 => o0
                                 | None => OEnum CoordOrigin.BOTTOMLEFT
                                 end) = CoordOrigin.value o).
      { destruct Ho as [-> | [-> | [-> ->]]]; reflexivity. }
      cbn [bind first_prov Item.prov Item.bbox attr BBox.l BBox.t BBox.r
           BBox.b BBox.coord_origin origin_value].
      rewrite Hv. reflexivity.
    - destruct H as [Hb Ho]. rewrite Hb.
      assert (Hv : origin_value (BBox.coord_origin bx) = CoordOrigin.value o).
      { destruct Ho as [-> | ->]; reflexivity. }
      cbn [bind first_prov Item.prov Item.bbox attr BBox.l BBox.t BBox.r
           BBox.b BBox.coord_origin origin_value].
      rewrite Hv. reflexivity. }
  rewrite E. clear E H.
  unfold get_pixel_bbox, Spec.toPixelBBox.
  cbn [bind first_prov Item.prov Item.bbox attr BBox.l BBox.t BBox.r
       BBox.b BBox.coord_origin origin_value].
  rewrite !scale_direct, !scale_mirrored_mirrored.
  rewrite (half_of_float pdf_w), (half_of_float pdf_h).
  cbn [bind]. rewrite !scale_centered_centred.
  destruct o; reflexivity.
Qed.

(** A box (0, 0, 100, 50) with origin TOPRIGHT on a 200 x 100 page
    rendered at 200 x 100 pixels is mirrored to (100, 0, 200, 50). *)
Lemma mirrored_origin_example :
  get_pixel_bbox
    (Sample.placed 1 (Sample.box 0 0 100 50 (OEnum CoordOrigin.TOPRIGHT))
                   (Some (OEnum CoordOrigin.TOPRIGHT)))
    (double 200) (double 100) 200 100
  = Ok (100, 0, 200, 50).
Proof. reflexivity. Qed.

(** [C10] In [get_pixel_bbox], a first provenance record without a
    [coord_origin] attribute makes the box of that record read with the
    BOTTOMLEFT rules, whatever origin the box itself declares; an element
    with no provenance (the attribute missing, or an empty list) is read
    through its own [bbox] and the origin that box declares, as if a
    provenance record carried that box and that origin. *)
Theorem get_pixel_bbox_defaults :
  (forall (page : Z) (bx : BBox.BoundingBox) (rest : list Prov.ProvenanceItem)
          (own : option BBox.BoundingBox) (pdf_w pdf_h : float) (img_w img_h : Z),
      get_pixel_bbox
        {| Item.prov := Some ({| Prov.page_no := page; Prov.bbox := Some bx;
                                 Prov.coord_origin := None |} :: rest);
           Item.bbox := own |} pdf_w pdf_h img_w img_h
      = Spec.toPixelBBox bx CoordOrigin.BOTTOMLEFT pdf_w pdf_h img_w img_h)
  /\
  (forall (l t r b : float) (o : CoordOrigin.t)
          (pdf_w pdf_h : float) (img_w img_h : Z),
      let bx := {| BBox.l := l; BBox.t := t; BBox.r := r; BBox.b := b;
                   BBox.coord_origin := OEnum o |} in
      get_pixel_bbox {| Item.prov := None; Item.bbox := Some bx |}
                     pdf_w pdf_h img_w img_h
      = Spec.toPixelBBox bx o pdf_w pdf_h img_w img_h
      /\
      get_pixel_bbox {| Item.prov := Some []; Item.bbox := Some bx |}
                     pdf_w pdf_h img_w img_h
      = Spec.toPixelBBox bx o pdf_w pdf_h img_w img_h)
  /\
  (forall (bx : BBox.BoundingBox) (page : Z)
          (pdf_w pdf_h : float) (img_w img_h : Z),
      get_pixel_bbox {| Item.prov := None; Item.bbox := Some bx |}
                     pdf_w pdf_h img_w img_h
      = get_pixel_bbox
          {| Item.prov := Some [ {| Prov.page_no := page; Prov.bbox := Some bx;
                                    Prov.coord_origin :=
                                      Some (BBox.coord_origin bx) |} ];
             Item.bbox := None |}
          pdf_w pdf_h img_w img_h).
Proof.
  split; [|split].
  - intros. apply get_pixel_bbox_resolved. simpl. auto.
  - intros. split; apply get_pixel_bbox_resolved; simpl; auto.
  - intros. reflexivity.
Qed.

(** On positive dimensions only the truncations can raise, and the
    three rules are the double-precision expressions. *)
Section Binary64.
Variables (pdf : float) (img : Z) (iw : float).
Hypothesis Hpdf : is_zero pdf = false.
Hypothesis Himg : float_of_int img = Ok iw.

Lemma direct_binary64 (v : float) :
  Spec.direct v pdf img = trunc (Spec.direct64 v pdf iw).
Proof.
  unfold Spec.direct, Spec.direct64, py_truediv, py_mul, arith, to_float.
  cbn [bind]. rewrite Hpdf. cbn [bind]. rewrite Himg. reflexivity.
Qed.

Lemma mirrored_binary64 (v : float) :
  Spec.mirrored v pdf img = trunc (Spec.mirrored64 v pdf iw).
Proof.
  unfold Spec.mirrored, Spec.mirrored64, py_sub, py_truediv, py_mul, arith,
    to_float.
  cbn [bind]. rewrite Hpdf. cbn [bind]. rewrite Himg. reflexivity.
Qed.

Lemma centred_binary64 (v hh : float) :
  int_true_div img 2 = Ok hh ->
  Spec.centred v pdf img = trunc (Spec.centred64 v pdf iw hh).
Proof.
  intros Hh. unfold Spec.centred. rewrite half_of_float.
  unfold Spec.centred64, py_sub, py_add, py_truediv, py_mul, arith, to_float.
  cbn [bind]. rewrite Hpdf. cbn [bind]. rewrite Himg. cbn [bind].
  rewrite Hh. reflexivity.
Qed.
End Binary64.

Lemma toPixelBBox_binary64 (bx : BBox.BoundingBox) (o : CoordOrigin.t)
      (pdf_w pdf_h : float) (img_w img_h : Z) (iw ih hh : float) :
  is_zero pdf_w = false -> is_zero pdf_h = false ->
  float_of_int img_w = Ok iw -> float_of_int img_h = Ok ih ->
  int_true_div img_h 2 = Ok hh ->
  Spec.toPixelBBox bx o pdf_w pdf_h img_w img_h
  = Spec.truncated
      (Spec.x64 o (BBox.l bx) (BBox.r bx) pdf_w iw)
      (Spec.y64 o (BBox.t bx) (BBox.b bx) pdf_h ih hh).
Proof.
  intros Hw Hh Hiw Hih Hhh.
  unfold Spec.toPixelBBox, Spec.truncated, Spec.x64, Spec.y64.
  rewrite !(direct_binary64 pdf_w img_w iw Hw Hiw).
  rewrite !(mirrored_binary64 pdf_w img_w iw Hw Hiw).
  rewrite !(direct_binary64 pdf_h img_h ih Hh Hih).
  rewrite !(mirrored_binary64 pdf_h img_h ih Hh Hih).
  rewrite !(centred_binary64 pdf_h img_h ih Hh Hih _ hh Hhh).
  destruct o; cbn [fst snd];
    repeat match goal with
           | |- context [trunc ?f] => destruct (trunc f); cbn [bind]
           end; reflexivity.
Qed.

(** [C1] For each of the five origins, [get_pixel_bbox] computes the
    truncated pixel box of the axis rules, whether the origin is declared
    by the provenance record or by the element's own box.  On positive
    dimensions the four coordinates are the truncations of the
    double-precision values [(l / pdfW) * imgW], [((pdfW - r) / pdfW) *
    imgW], [((pdfH / 2 - t) / pdfH) * imgH + imgH / 2] and the like, one
    pair per axis and origin.  For TOPLEFT the conversion returns the
    edges of the box themselves, truncated to integers, whenever
    [(e / pdf) * img] evaluates to [e] in double precision for each edge
    [e]. *)
Theorem get_pixel_bbox_axis_rules :
  (forall (page : Z) (bx : BBox.BoundingBox) (o : CoordOrigin.t)
          (rest : list Prov.ProvenanceItem) (own : option BBox.BoundingBox)
          (pdf_w pdf_h : float) (img_w img_h : Z),
      get_pixel_bbox
        {| Item.prov := Some ({| Prov.page_no := page; Prov.bbox := Some bx;
                                 Prov.coord_origin := Some (OEnum o) |} :: rest);
           Item.bbox := own |} pdf_w pdf_h img_w img_h
      = Spec.toPixelBBox bx o pdf_w pdf_h img_w img_h)
  /\
  (forall (l t r b : float) (o : CoordOrigin.t)
          (pdf_w pdf_h : float) (img_w img_h : Z),
      let bx := {| BBox.l := l; BBox.t := t; BBox.r := r; BBox.b := b;
                   BBox.coord_origin := OEnum o |} in
      get_pixel_bbox {| Item.prov := None; Item.bbox := Some bx |}
                     pdf_w pdf_h img_w img_h
      = Spec.toPixelBBox bx o pdf_w pdf_h img_w img_h)
  /\
  (forall (l t r b : float) (o : CoordOrigin.t)
          (pdf_w pdf_h : float) (img_w img_h : Z) (iw ih hh : float),
      is_zero pdf_w = false -> is_zero pdf_h = false ->
      float_of_int img_w = Ok iw -> float_of_int img_h = Ok ih ->
      int_true_div img_h 2 = Ok hh ->
      get_pixel_bbox
        {| Item.prov := None;
           Item.bbox := Some {| BBox.l := l; BBox.t := t; BBox.r := r;
                                BBox.b := b; BBox.coord_origin := OEnum o |} |}
        pdf_w pdf_h img_w img_h
      = (let '(fx1, fx2) :=
           match o with
           | CoordOrigin.TOPLEFT | CoordOrigin.BOTTOMLEFT
           | CoordOrigin.CENTER =>
               (fmul (fdiv l pdf_w) iw, fmul (fdiv r pdf_w) iw)
           | CoordOrigin.TOPRIGHT | CoordOrigin.BOTTOMRIGHT =>
               (fmul (fdiv (fsub pdf_w r) pdf_w) iw,
                fmul (fdiv (fsub pdf_w l) pdf_w) iw)
           end in
         let '(fy1, fy2) :=
           match o with
           | CoordOrigin.TOPLEFT | CoordOrigin.TOPRIGHT =>
               (fmul (fdiv t pdf_h) ih, fmul (fdiv b pdf_h) ih)
           | CoordOrigin.BOTTOMLEFT | CoordOrigin.BOTTOMRIGHT =>
               (fmul (fdiv (fsub pdf_h t) pdf_h) ih,
                fmul (fdiv (fsub pdf_h b) pdf_h) ih)
           | CoordOrigin.CENTER =>
               (fadd (fmul (fdiv (fsub (fdiv pdf_h (double 2)) t) pdf_h) ih) hh,
                fadd (fmul (fdiv (fsub (fdiv pdf_h (double 2)) b) pdf_h) ih) hh)
           end in
         x1 <- trunc fx1 ;;
         x2 <- trunc fx2 ;;
         y1 <- trunc fy1 ;;
         y2 <- trunc fy2 ;;
         Ok (x1, y1, x2, y2)))
  /\
  (forall (l t r b : float) (pdf_w pdf_h : float) (img_w img_h : Z)
          (iw ih hh : float),
      is_zero pdf_w = false -> is_zero pdf_h = false ->
      float_of_int img_w = Ok iw -> float_of_int img_h = Ok ih ->
      int_true_div img_h 2 = Ok hh ->
      fmul (fdiv l pdf_w) iw = l ->
      fmul (fdiv r pdf_w) iw = r ->
      fmul (fdiv t pdf_h) ih = t ->
      fmul (fdiv b pdf_h) ih = b ->
      get_pixel_bbox
        {| Item.prov := None;
           Item.bbox := Some {| BBox.l := l; BBox.t := t; BBox.r := r; BBox.b := b;
                                BBox.coord_origin := OEnum CoordOrigin.TOPLEFT |} |}
        pdf_w pdf_h img_w img_h
      = (x1 <- trunc l ;;
         x2 <- trunc r ;;
         y1 <- trunc t ;;
         y2 <- trunc b ;;
         Ok (x1, y1, x2, y2))).
Proof.
  assert (H64 : forall (l t r b : float) (o : CoordOrigin.t)
                       (pdf_w pdf_h : float) (img_w img_h : Z)
                       (iw ih hh : float),
             is_zero pdf_w = false -> is_zero pdf_h = false ->
             float_of_int img_w = Ok iw -> float_of_int img_h = Ok ih ->
             int_true_div img_h 2 = Ok hh ->
             get_pixel_bbox
               {| Item.prov := None;
                  Item.bbox := Some {| BBox.l := l; BBox.t := t; BBox.r := r;
                                       BBox.b := b;
                                       BBox.coord_origin := OEnum o |} |}
               pdf_w pdf_h img_w img_h
             = Spec.truncated (Spec.x64 o l r pdf_w iw)
                              (Spec.y64 o t b pdf_h ih hh)).
  { intros l t r b o pdf_w pdf_h img_w img_h iw ih hh Hw Hh Hiw Hih Hhh.
    rewrite (get_pixel_bbox_resolved _
               {| BBox.l := l; BBox.t := t; BBox.r := r; BBox.b := b;
                  BBox.coord_origin := OEnum o |} o)
      by (simpl; auto).
    exact (toPixelBBox_binary64
             {| BBox.l := l; BBox.t := t; BBox.r := r; BBox.b := b;
                BBox.coord_origin := OEnum o |}
             o pdf_w pdf_h img_w img_h iw ih hh Hw Hh Hiw Hih Hhh). }
  split; [|split; [|split]].
  - intros. apply get_pixel_bbox_resolved. simpl. auto.
  - intros. apply get_pixel_bbox_resolved. simpl. auto.
  - intros l t r b o pdf_w pdf_h img_w img_h iw ih hh Hw Hh Hiw Hih Hhh.
    rewrite (H64 l t r b o pdf_w pdf_h img_w img_h iw ih hh) by assumption.
    destruct o; reflexivity.
  - intros l t r b pdf_w pdf_h img_w img_h iw ih hh Hw Hh Hiw Hih Hhh
           Hl Hr Ht Hb.
    rewrite (H64 l t r b CoordOrigin.TOPLEFT pdf_w pdf_h img_w img_h iw ih hh)
      by assumption.
    unfold Spec.truncated, Spec.x64, Spec.y64, Spec.direct64. cbn [fst snd].
    rewrite Hl, Hr, Ht, Hb. reflexivity.
Qed.

(** Three boxes with whole edges.  A TOPLEFT box on a 64 x 64 page
    rendered at 64 x 64 pixels maps to itself.  On a 256 x 128 page
    rendered at 512 x 256 pixels the box (10, 20, 30, 40) maps to
    (452, 216, 492, 176) when its origin is BOTTOMRIGHT and to
    (20, 216, 60, 176) when its origin is CENTER. *)
Lemma get_pixel_bbox_axis_rules_witness :
  get_pixel_bbox (Sample.boxed (Sample.box 10 20 30 40 (OEnum CoordOrigin.TOPLEFT)))
                 (double 64) (double 64) 64 64
  = Ok (10, 20, 30, 40)
  /\ get_pixel_bbox
       (Sample.boxed (Sample.box 10 20 30 40 (OEnum CoordOrigin.BOTTOMRIGHT)))
       (double 256) (double 128) 512 256
     = Ok (452, 216, 492, 176)
  /\ get_pixel_bbox
       (Sample.boxed (Sample.box 10 20 30 40 (OEnum CoordOrigin.CENTER)))
       (double 256) (double 128) 512 256
     = Ok (20, 216, 60, 176).
Proof.
  split; [|split].
  - exact (proj2 (proj2 (proj2 get_pixel_bbox_axis_rules))
                 (double 10) (double 20) (double 30) (double 40)
                 (double 64) (double 64) 64 64
                 (double 64) (double 64) (double 32)
                 eq_refl eq_refl eq_refl eq_refl eq_refl
                 eq_refl eq_refl eq_refl eq_refl).
  - exact (eq_trans
             (proj1 (proj2 (proj2 get_pixel_bbox_axis_rules))
                    (double 10) (double 20) (double 30) (double 40)
                    CoordOrigin.BOTTOMRIGHT
                    (double 256) (double 128) 512 256
                    (double 512) (double 256) (double 128)
                    eq_refl eq_refl eq_refl eq_refl eq_refl)
             eq_refl).
  - exact (eq_trans
             (proj1 (proj2 (proj2 get_pixel_bbox_axis_rules))
                    (double 10) (double 20) (double 30) (double 40)
                    CoordOrigin.CENTER
                    (double 256) (double 128) 512 256
                    (double 512) (double 256) (double 128)
                    eq_refl eq_refl eq_refl eq_refl eq_refl)
             eq_refl).
Defined.

(** On a 49 x 49 page rendered at 49 x 49 pixels the TOPLEFT box
    (1, 1, 2, 2) does not map to itself: 1/49*49 and 2/49*49 round below
    1 and 2. *)
Lemma topleft_identity_fails :
  get_pixel_bbox (Sample.boxed (Sample.box 1 1 2 2 (OEnum CoordOrigin.TOPLEFT)))
                 (double 49) (double 49) 49 49
  = Ok (0, 0, 1, 1)
  /\ py_int (Float (double 1)) = Ok 1
  /\ py_int (Float (double 2)) = Ok 2
  /\ (0, 0, 1, 1) <> (1, 1, 2, 2).
Proof.
  repeat split; try reflexivity. discriminate.
Qed.

Lemma to_document_float (px : num) (img : Z) (pdf : float) (x : num) :
  Spec.to_document px img pdf = Ok x -> exists f, x = Float f.
Proof.
  unfold Spec.to_document. destruct (py_truediv px (Int img)); simpl;
    [|discriminate].
  apply (arith_float_r Z.mul fmul).
Qed.

Lemma pixelCellToDocBBox_margin
      (cellPixelBox : float * float * float * float) (tx ty img_w img_h : Z)
      (pdf_w pdf_h : float) (bx : BBox.BoundingBox) :
  Spec.pixelCellToDocBBox cellPixelBox (tx, ty) img_w img_h pdf_w pdf_h = Ok bx ->
  exists l t r b : float,
    Spec.naive_inverse cellPixelBox (tx, ty) img_w img_h pdf_w pdf_h
    = Ok (Float l, Float t, Float r, Float b)
    /\ BBox.l bx = fadd l (double 4)
    /\ BBox.t bx = fadd t (double 4)
    /\ BBox.r bx = fsub r (double 4)
    /\ BBox.b bx = fsub b (double 4)
    /\ BBox.coord_origin bx = OEnum CoordOrigin.TOPLEFT.
Proof.
  intros H. unfold Spec.pixelCellToDocBBox in H.
  destruct (Spec.naive_inverse cellPixelBox (tx, ty) img_w img_h pdf_w pdf_h)
    as [[[[l t] r] b]|e] eqn:En; [|discriminate].
  assert (Hfl : exists l0 t0 r0 b0,
             l = Float l0 /\ t = Float t0 /\ r = Float r0 /\ b = Float b0).
  { unfold Spec.naive_inverse in En.
    destruct cellPixelBox as [[[cx1 cy1] cx2] cy2].
    repeat (step_bind_in En; try discriminate).
    inversion En; subst.
    repeat match goal with
           | E : Spec.to_document _ _ _ = Ok _ |- _ =>
               apply to_document_float in E; destruct E as [? ->]
           end.
    eauto 8. }
  destruct Hfl as (l0 & t0 & r0 & b0 & -> & -> & -> & ->).
  exists l0, t0, r0, b0. split; [reflexivity|].
  unfold py_add, py_sub, arith, to_float, BoundingBox in H.
  cbn [bind] in H. change (float_of_int 4) with (Ok (double 4)) in H.
  cbn [bind to_float] in H. inversion H; subst. repeat split.
Qed.

(** [C7] [update_cell_bbox] writes into the cell the box of the contract
    [pixelCellToDocBBox] computed on the predicted box and the corner of
    the table, and leaves the text, the row and the column of the cell
    as they were; it raises exactly when the contract does.  The box of
    the contract is the naive inverse image with 4 added to its left and
    top edges and 4 subtracted from its right and bottom edges, in
    double precision, and it is tagged TOPLEFT. *)
Theorem update_cell_bbox_margin
        (cell : Cell.TableCell) (surya_cell : Surya.TableCell)
        (tx1 ty1 tx2 ty2 img_w img_h : Z) (pdf_w pdf_h : float) :
  (forall cell' : Cell.TableCell,
      update_cell_bbox cell surya_cell (tx1, ty1, tx2, ty2) (img_w, img_h)
                       pdf_w pdf_h = Ok cell'
      <-> exists bx,
          Spec.pixelCellToDocBBox (Surya.bbox surya_cell) (tx1, ty1)
                                  img_w img_h pdf_w pdf_h = Ok bx
          /\ Cell.bbox cell' = Some bx
          /\ Cell.text cell' = Cell.text cell
          /\ Cell.start_row_offset_idx cell' = Cell.start_row_offset_idx cell
          /\ Cell.start_col_offset_idx cell' = Cell.start_col_offset_idx cell)
  /\
  (forall e : exn,
      update_cell_bbox cell surya_cell (tx1, ty1, tx2, ty2) (img_w, img_h)
                       pdf_w pdf_h = Raise e
      <-> Spec.pixelCellToDocBBox (Surya.bbox surya_cell) (tx1, ty1)
                                  img_w img_h pdf_w pdf_h = Raise e)
  /\
  (forall bx : BBox.BoundingBox,
      Spec.pixelCellToDocBBox (Surya.bbox surya_cell) (tx1, ty1)
                              img_w img_h pdf_w pdf_h = Ok bx ->
      exists l t r b : float,
        Spec.naive_inverse (Surya.bbox surya_cell) (tx1, ty1)
                           img_w img_h pdf_w pdf_h
        = Ok (Float l, Float t, Float r, Float b)
        /\ BBox.l bx = fadd l (double 4)
        /\ BBox.t bx = fadd t (double 4)
        /\ BBox.r bx = fsub r (double 4)
        /\ BBox.b bx = fsub b (double 4)
        /\ BBox.coord_origin bx = OEnum CoordOrigin.TOPLEFT).
Proof.
  destruct (Surya.bbox surya_cell) as [[[cx1 cy1] cx2] cy2] eqn:Eb.
  assert (Heq : update_cell_bbox cell surya_cell (tx1, ty1, tx2, ty2)
                                 (img_w, img_h) pdf_w pdf_h
                = (bx <- Spec.pixelCellToDocBBox (cx1, cy1, cx2, cy2) (tx1, ty1)
                                                 img_w img_h pdf_w pdf_h ;;
                   Ok {| Cell.text := Cell.text cell;
                         Cell.bbox := Some bx;
                         Cell.start_row_offset_idx :=
                           Cell.start_row_offset_idx cell;
                         Cell.start_col_offset_idx :=
                           Cell.start_col_offset_idx cell |})).
  { unfold update_cell_bbox, Spec.pixelCellToDocBBox, Spec.naive_inverse,
      Spec.to_document.
    rewrite Eb. rewrite !bind_assoc. repeat step_bind; reflexivity. }
  rewrite Heq.
  destruct (Spec.pixelCellToDocBBox (cx1, cy1, cx2, cy2) (tx1, ty1)
                                    img_w img_h pdf_w pdf_h)
    as [bx0|e0] eqn:Ep; cbn [bind].
  - split; [|split].
    + intros cell'. split.
      * intros H. inversion H; subst. exists bx0. repeat split.
      * intros (bx & Hbx & Hb & Ht & Hr & Hc). inversion Hbx; subst.
        destruct cell' as [text' bbox' row' col']. simpl in *. congruence.
    + intros e. split; discriminate.
    + intros bx Hbx. inversion Hbx; subst.
      exact (pixelCellToDocBBox_margin _ _ _ _ _ _ _ _ Ep).
  - split; [|split].
    + intros cell'. split; [discriminate|].
      intros (bx & Hbx & _). discriminate.
    + intros e. split; intros H; inversion H; reflexivity.
    + intros bx Hbx. discriminate.
Qed.

(** A predicted cell at (10, 10, 50, 30) in a table whose corner is the
    pixel (100, 200), on a 1000 x 1000 image of a 500 x 500 page: the
    naive inverse image is (55, 105, 75, 115), and the cell, whose box
    was (0, 0, 1, 1) with origin BOTTOMLEFT, gets the box
    (59, 109, 71, 111) with origin TOPLEFT. *)
Lemma update_cell_bbox_margin_witness :
  update_cell_bbox Sample.stale_cell Sample.predicted_cell
                   (100, 200, 300, 400) (1000, 1000) (double 500) (double 500)
  = Ok {| Cell.text := str "x2";
          Cell.bbox := Some (Sample.box 59 109 71 111
                                        (OEnum CoordOrigin.TOPLEFT));
          Cell.start_row_offset_idx := 0;
          Cell.start_col_offset_idx := 0 |}
  /\ exists l t r b : float,
      Spec.naive_inverse (Surya.bbox Sample.predicted_cell) (100, 200)
                         1000 1000 (double 500) (double 500)
      = Ok (Float l, Float t, Float r, Float b)
      /\ double 59 = fadd l (double 4)
      /\ double 109 = fadd t (double 4)
      /\ double 71 = fsub r (double 4)
      /\ double 111 = fsub b (double 4)
      /\ BBox.coord_origin
           (Sample.box 59 109 71 111 (OEnum CoordOrigin.TOPLEFT))
         = OEnum CoordOrigin.TOPLEFT.
Proof.
  split.
  - apply (proj1 (update_cell_bbox_margin
                    Sample.stale_cell Sample.predicted_cell
                    100 200 300 400 1000 1000 (double 500) (double 500))).
    exists (Sample.box 59 109 71 111 (OEnum CoordOrigin.TOPLEFT)).
    repeat split.
  - exact (proj2 (proj2 (update_cell_bbox_margin
                           Sample.stale_cell Sample.predicted_cell
                           100 200 300 400 1000 1000 (double 500) (double 500)))
                 (Sample.box 59 109 71 111 (OEnum CoordOrigin.TOPLEFT))
                 eq_refl).
Defined.

(** ** Overlap ratio *)

(** The float literals of the program are the doubles nearest to 1/20,
    1/2 and 1. *)
Lemma float_literals :
  int_true_div 5 100 = Ok f_0_05
  /\ int_true_div 1 2 = Ok f_0_5
  /\ float_of_int 1 = Ok f_1_0.
Proof. repeat split. Qed.

Lemma int_true_div_zero (q : Z) :
  0 < q -> int_true_div 0 q = Ok (S754_zero false).
Proof.
  intros Hq. unfold int_true_div.
  destruct q as [|q|q]; try lia. reflexivity.
Qed.

Lemma int_true_div_self (q : Z) :
  0 < q -> int_true_div q q = Ok f_1_0.
Proof.
  intros Hq. unfold int_true_div.
  destruct q as [|q|q]; try lia.
  change (Z.pos q =? 0) with false. cbv iota.
  rewrite fdiv_exact_self. reflexivity.
Qed.

(** The quotient of [0 <= p <= q] is a double between 0 and 1. *)
Lemma int_true_div_unit (p q : Z) :
  0 <= p <= q -> 0 < q ->
  exists f, int_true_div p q = Ok f
            /\ py_le (Int 0) (Float f) = true
            /\ py_le (Float f) (Int 1) = true.
Proof.
  intros Hp Hq.
  destruct (Z.eq_dec p 0) as [->|Hp0].
  { rewrite int_true_div_zero by assumption. eexists. repeat split. }
  destruct (Z.eq_dec p q) as [->|Hpq].
  { rewrite int_true_div_self by assumption. eexists. repeat split. }
  unfold int_true_div.
  destruct q as [|q|q]; try lia. destruct p as [|p|p]; try lia.
  change (Z.pos q =? 0) with false. cbv iota.
  destruct (fdiv_exact_lt p q ltac:(lia)) as [-> | (m & e & -> & He & Hm)].
  - eexists. repeat split.
  - eexists. split; [reflexivity|].
    unfold py_le, py_compare, compare_float_int. simpl option_map.
    replace (0 <=? e) with false by (symmetry; apply Z.leb_gt; assumption).
    split.
    + simpl. reflexivity.
    + rewrite Z.mul_1_l.
      destruct (Z.compare_spec (Z.pos m) (2 ^ (- e))); try reflexivity. lia.
Qed.

Lemma intersection_bounds (boxA boxB : pixel_box) :
  0 <= Spec.intersection boxA boxB
  /\ (0 < Spec.area boxA -> Spec.intersection boxA boxB <= Spec.area boxA)
  /\ (Spec.area boxA < 0 -> Spec.intersection boxA boxB = 0).
Proof.
  destruct boxA as [[[a0 a1] a2] a3], boxB as [[[b0 b1] b2] b3].
  unfold Spec.intersection, Spec.area.
  set (iw := Z.max 0 (Z.min a2 b2 - Z.max a0 b0)).
  set (ih := Z.max 0 (Z.min a3 b3 - Z.max a1 b1)).
  assert (Hiw : 0 <= iw) by (unfold iw; lia).
  assert (Hih : 0 <= ih) by (unfold ih; lia).
  assert (Hw : a2 - a0 <= 0 -> iw = 0) by (unfold iw; lia).
  assert (Hh : a3 - a1 <= 0 -> ih = 0) by (unfold ih; lia).
  assert (Hw' : 0 <= a2 - a0 -> iw <= a2 - a0) by (unfold iw; lia).
  assert (Hh' : 0 <= a3 - a1 -> ih <= a3 - a1) by (unfold ih; lia).
  clearbody iw ih.
  split; [nia|]. split.
  - intros Ha.
    destruct (Z_le_gt_dec (a2 - a0) 0) as [Hn|Hpw].
    + rewrite (Hw Hn). nia.
    + destruct (Z_le_gt_dec (a3 - a1) 0) as [Hn|Hph]; [nia|].
      specialize (Hw' ltac:(lia)). specialize (Hh' ltac:(lia)). nia.
  - intros Ha.
    destruct (Z_le_gt_dec (a2 - a0) 0) as [Hn|Hpw].
    + rewrite (Hw Hn). reflexivity.
    + rewrite (Hh ltac:(nia)). lia.
Qed.

Lemma calculate_overlap_ratio_unfold (boxA boxB : pixel_box) :
  calculate_overlap_ratio boxA boxB
  = if 0 <? Spec.area boxA
    then py_truediv (Int (Spec.intersection boxA boxB)) (Int (Spec.area boxA))
    else Ok (Int 0).
Proof.
  destruct boxA as [[[a0 a1] a2] a3], boxB as [[[b0 b1] b2] b3]. reflexivity.
Qed.

(** The ratio is always returned, and lies between 0 and 1. *)
Lemma calculate_overlap_ratio_unit (boxA boxB : pixel_box) :
  exists r, calculate_overlap_ratio boxA boxB = Ok r
            /\ py_le (Int 0) r = true /\ py_le r (Int 1) = true.
Proof.
  rewrite calculate_overlap_ratio_unfold.
  destruct (intersection_bounds boxA boxB) as (H0 & Hle & _).
  destruct (0 <? Spec.area boxA) eqn:Ea.
  - apply Z.ltb_lt in Ea.
    destruct (int_true_div_unit (Spec.intersection boxA boxB) (Spec.area boxA))
      as (f & Hf & Hlo & Hhi); [auto|assumption|].
    exists (Float f). unfold py_truediv. rewrite Hf. auto.
  - exists (Int 0). repeat split.
Qed.

Lemma SFcompare_refl (f : float) :
  f <> S754_nan -> SFcompare f f = Some Eq.
Proof.
  assert (Hm : forall m, Pos.compare_cont Eq m m = Eq)
    by (intros m; apply Pos.compare_cont_refl).
  destruct f as [[]|[]| |[] m e]; simpl; intros H;
    try reflexivity; try congruence;
    rewrite Z.compare_refl, Hm; reflexivity.
Qed.

(** [C2] [calculate_overlap_ratio] divides the area of the intersection
    by the area of the first box when that area is positive, and agrees
    in value with the contract [overlapRatio] on all boxes; it is 0 when
    the first box has area 0 or less and when the boxes do not intersect; a box
    of positive width and height overlaps itself with ratio 1.0; the
    ratio is not symmetric; and it always lies between 0 and 1. *)
Theorem calculate_overlap_ratio_spec (boxA boxB : pixel_box) :
  (0 < Spec.area boxA ->
   calculate_overlap_ratio boxA boxB
   = py_truediv (Int (Spec.intersection boxA boxB)) (Int (Spec.area boxA)))
  /\ (exists r s, calculate_overlap_ratio boxA boxB = Ok r
                  /\ Spec.overlapRatio boxA boxB = Ok s
                  /\ py_eq r s = true)
  /\ (Spec.area boxA <= 0 -> calculate_overlap_ratio boxA boxB = Ok (Int 0))
  /\ (Spec.intersection boxA boxB = 0 ->
      exists r, calculate_overlap_ratio boxA boxB = Ok r
                /\ py_eq r (Int 0) = true)
  /\ (forall x1 y1 x2 y2, boxA = (x1, y1, x2, y2) -> x1 < x2 -> y1 < y2 ->
      calculate_overlap_ratio boxA boxA = Ok (Float f_1_0))
  /\ (exists r, calculate_overlap_ratio boxA boxB = Ok r
                /\ py_le (Int 0) r = true /\ py_le r (Int 1) = true)
  /\ (exists boxC boxD,
         calculate_overlap_ratio boxC boxD <> calculate_overlap_ratio boxD boxC).
Proof.
  destruct (intersection_bounds boxA boxB) as (H0 & Hle & Hneg).
  split; [|split; [|split; [|split; [|split; [|split]]]]].
  - intros Ha. rewrite calculate_overlap_ratio_unfold.
    apply Z.ltb_lt in Ha. rewrite Ha. reflexivity.
  - rewrite calculate_overlap_ratio_unfold. unfold Spec.overlapRatio.
    destruct (Z.lt_trichotomy (Spec.area boxA) 0) as [Ha | [Ha | Ha]].
    + replace (0 <? Spec.area boxA) with false by (symmetry; apply Z.ltb_ge; lia).
      replace (Spec.area boxA =? 0) with false by (symmetry; apply Z.eqb_neq; lia).
      rewrite (Hneg Ha).
      destruct (Spec.area boxA) as [|a|a]; try lia.
      exists (Int 0), (Float (S754_zero true)). repeat split.
    + rewrite Ha. exists (Int 0), (Int 0). repeat split.
    + replace (0 <? Spec.area boxA) with true by (symmetry; apply Z.ltb_lt; lia).
      replace (Spec.area boxA =? 0) with false by (symmetry; apply Z.eqb_neq; lia).
      destruct (int_true_div_unit (Spec.intersection boxA boxB) (Spec.area boxA))
        as (f & Hf & Hlo & Hhi); [auto|assumption|].
      unfold py_truediv. rewrite Hf. exists (Float f), (Float f).
      repeat split. unfold py_eq, py_compare.
      rewrite SFcompare_refl; [reflexivity|].
      intros ->. discriminate.
  - intros Ha. rewrite calculate_overlap_ratio_unfold.
    replace (0 <? Spec.area boxA) with false by (symmetry; apply Z.ltb_ge; lia).
    reflexivity.
  - intros Hi. rewrite calculate_overlap_ratio_unfold, Hi.
    destruct (0 <? Spec.area boxA) eqn:Ea.
    + apply Z.ltb_lt in Ea. unfold py_truediv.
      rewrite int_true_div_zero by assumption.
      eexists. split; reflexivity.
    + eexists. split; reflexivity.
  - intros x1 y1 x2 y2 -> Hx Hy.
    rewrite calculate_overlap_ratio_unfold.
    assert (Hi : Spec.intersection (x1, y1, x2, y2) (x1, y1, x2, y2)
                 = Spec.area (x1, y1, x2, y2)).
    { unfold Spec.intersection, Spec.area.
      rewrite !Z.min_id, !Z.max_id. f_equal; lia. }
    assert (Ha : 0 < Spec.area (x1, y1, x2, y2)) by (unfold Spec.area; nia).
    rewrite Hi. apply Z.ltb_lt in Ha as Ha'. rewrite Ha'.
    unfold py_truediv. rewrite int_true_div_self by assumption. reflexivity.
  - apply calculate_overlap_ratio_unit.
  - exists (0, 0, 2, 2), (0, 0, 1, 1). vm_compute. discriminate.
Qed.

(** The 2 x 2 box at the origin overlaps itself with ratio 1.0. *)
Lemma calculate_overlap_ratio_spec_witness :
  calculate_overlap_ratio (0, 0, 2, 2) (0, 0, 2, 2) = Ok (Float f_1_0).
Proof.
  destruct (calculate_overlap_ratio_spec (0, 0, 2, 2) (0, 0, 2, 2))
    as (_ & _ & _ & _ & H & _).
  apply (H 0 0 2 2 eq_refl); reflexivity.
Defined.

(** The box (10, 10, 0, 0) has area (0 - 10) * (0 - 10) = 100, which is
    positive, and overlaps itself with ratio 0, not 1.0. *)
Lemma reversed_box_self_overlap :
  0 < Spec.area (10, 10, 0, 0)
  /\ calculate_overlap_ratio (10, 10, 0, 0) (10, 10, 0, 0)
     = Ok (Float (S754_zero false))
  /\ py_eq (Float (S754_zero false)) (Float f_1_0) = false.
Proof. repeat split. Qed.

(** ** Text quality *)

Section TextFacts.
Variable U : UnicodeData.

Lemma lstrip_nil_iff (s : pystr) :
  lstrip U s = [] <-> Forall (fun c => isspace U c = true) s.
Proof.
  induction s as [|c s IH]; simpl.
  - split; auto.
  - destruct (isspace U c) eqn:Ec.
    + rewrite IH. split; intros H; [constructor; assumption|].
      inversion H; assumption.
    + split; [discriminate|]. intros H. inversion H; congruence.
Qed.

Lemma lstrip_app_nonspace (s : pystr) (c : Z) :
  isspace U c = false -> lstrip U (s ++ [c]) <> [].
Proof.
  intros Hc. induction s as [|d s IH]; simpl.
  - rewrite Hc. discriminate.
  - destruct (isspace U d); [assumption|discriminate].
Qed.

Lemma lstrip_head (s : pystr) (c : Z) (rest : pystr) :
  lstrip U s = c :: rest -> isspace U c = false.
Proof.
  induction s as [|d s IH]; simpl; [discriminate|].
  destruct (isspace U d) eqn:Ed; [assumption|].
  intros H. inversion H; subst. assumption.
Qed.

(** A text is blank exactly when all its characters are spaces. *)
Lemma strip_nil_iff (s : pystr) :
  strip U s = [] <-> Forall (fun c => isspace U c = true) s.
Proof.
  rewrite <- lstrip_nil_iff. unfold strip, rstrip.
  destruct (lstrip U s) as [|c rest] eqn:El.
  - simpl. tauto.
  - split; [|discriminate]. intros H. exfalso.
    apply (f_equal (@rev Z)) in H. rewrite rev_involutive in H. simpl in H.
    apply (lstrip_app_nonspace (rev rest) c (lstrip_head _ _ _ El)).
    assumption.
Qed.

Lemma blank_iff (text : pystr) :
  negb (truthy text) || negb (truthy (strip U text)) = true
  <-> Forall (fun c => isspace U c = true) text.
Proof.
  rewrite <- strip_nil_iff.
  destruct text as [|c text]; [simpl; tauto|].
  simpl negb at 1. rewrite orb_false_l.
  destruct (strip U (c :: text)); simpl; split; congruence.
Qed.

Lemma formula_iff (text : pystr) :
  _needs_formula_enhancement U text = true
  <-> (exists c, In c text /\ isdigit U c = true)
      /\ (exists c, In c text /\ isalpha U c = true
                    /\ contains "LATIN" (name_or_empty U c) = true).
Proof.
  unfold _needs_formula_enhancement.
  rewrite andb_true_iff, !existsb_exists. split.
  - intros [(c & Hc & Hn) Hd]. apply filter_In in Hc. split; [assumption|].
    exists c. tauto.
  - intros [Hd (c & Hc & Ha & Hn)]. split; [|assumption].
    exists c. split; [apply filter_In; tauto|assumption].
Qed.

Lemma accepted_scripts_eq (n : string) :
  existsb (fun script => contains script n)
          ["ARABIC"; "LATIN"; "MATHEMATICAL"]%string
  = contains "ARABIC" n || contains "LATIN" n || contains "MATHEMATICAL" n.
Proof.
  cbn [existsb]. rewrite orb_false_r, orb_assoc. reflexivity.
Qed.

Lemma valid_non_ascii_iff (text : pystr) :
  _is_valid_non_ascii U text = true
  <-> forall c, In c text -> 127 < c -> accepted_script U c = true.
Proof.
  induction text as [|c text IH]; cbn [_is_valid_non_ascii].
  - split; [intros _ c []|reflexivity].
  - destruct (127 <? c) eqn:Ec.
    + apply Z.ltb_lt in Ec.
      assert (Hc : (match name U c with
                    | Some n =>
                        if existsb (fun script => contains script n)
                                   ["ARABIC"; "LATIN"; "MATHEMATICAL"]%string
                        then _is_valid_non_ascii U text
                        else false
                    | None => false
                    end)
                   = accepted_script U c && _is_valid_non_ascii U text).
      { unfold accepted_script. destruct (name U c) as [n|]; [|reflexivity].
        rewrite accepted_scripts_eq.
        destruct (contains "ARABIC" n || contains "LATIN" n
                  || contains "MATHEMATICAL" n); reflexivity. }
      rewrite Hc, andb_true_iff, IH. split.
      * intros [Ha H] d [<-|Hd] Hlt; auto.
      * intros H. split; [apply H; [left; reflexivity|assumption]|].
        intros d Hd. apply H. right; assumption.
    + apply Z.ltb_ge in Ec. rewrite IH. split.
      * intros H d [<-|Hd] Hlt; [lia|auto].
      * intros H d Hd. apply H. right; assumption.
Qed.

Lemma encoding_iff (text : pystr) :
  _has_encoding_issues U text = true
  <-> (exists c, In c error_chars /\ In c text)
      \/ (exists c, In c text /\ 127 < c /\ accepted_script U c = false).
Proof.
  unfold _has_encoding_issues.
  assert (Herr : existsb (fun char => existsb (Z.eqb char) text) error_chars
                 = true <-> exists c, In c error_chars /\ In c text).
  { rewrite existsb_exists. split; intros (c & Hc & H); exists c;
      (split; [assumption|]).
    - apply existsb_exists in H. destruct H as (d & Hd & E).
      apply Z.eqb_eq in E. subst. assumption.
    - apply existsb_exists. exists c. split; [assumption|apply Z.eqb_refl]. }
  assert (Hval : _is_valid_non_ascii U text = false
                 <-> exists c, In c text /\ 127 < c
                               /\ accepted_script U c = false).
  { split.
    - intros H. destruct (existsb (fun c => (127 <? c)
                                            && negb (accepted_script U c)) text)
        eqn:Ex.
      + apply existsb_exists in Ex. destruct Ex as (c & Hc & E).
        apply andb_true_iff in E. destruct E as [E1 E2].
        apply Z.ltb_lt in E1. apply negb_true_iff in E2. eauto.
      + exfalso. assert (Hv : _is_valid_non_ascii U text = true).
        { apply valid_non_ascii_iff. intros c Hc Hlt.
          destruct (accepted_script U c) eqn:Ea; [reflexivity|].
          assert (existsb (fun c => (127 <? c)
                                    && negb (accepted_script U c)) text = true).
          { apply existsb_exists. exists c. split; [assumption|].
            rewrite Ea. apply andb_true_iff. split; [|reflexivity].
            apply Z.ltb_lt; assumption. }
          congruence. }
        congruence.
    - intros (c & Hc & Hlt & Ha).
      destruct (_is_valid_non_ascii U text) eqn:Ev; [|reflexivity].
      rewrite valid_non_ascii_iff in Ev. rewrite (Ev c Hc Hlt) in Ha.
      discriminate. }
  destruct (existsb (fun char => existsb (Z.eqb char) text) error_chars) eqn:E1.
  - split; [intros _; left; apply Herr; reflexivity|reflexivity].
  - destruct (_is_valid_non_ascii U text) eqn:Ev.
    + rewrite andb_false_r. split; [discriminate|].
      intros [H|H]; [apply Herr in H; discriminate|].
      apply Hval in H. discriminate.
    + assert (Hs : search_non_ascii text = true).
      { destruct (proj1 Hval eq_refl) as (c & Hc & Hlt & _).
        apply existsb_exists. exists c. split; [assumption|].
        apply negb_true_iff. apply andb_false_iff. right.
        apply Z.leb_gt. assumption. }
      rewrite Hs. simpl. split; [|reflexivity].
      intros _. right. apply Hval. reflexivity.
Qed.
End TextFacts.

(** Membership in a string, and the fixed symbols, written out. *)
Lemma prefix_append (needle hay : string) :
  String.prefix needle hay = true
  <-> exists after, hay = (needle ++ after)%string.
Proof.
  revert hay. induction needle as [|a needle IH]; intros hay.
  - destruct hay; simpl; split; eauto.
  - destruct hay as [|b hay]; simpl.
    + split; [discriminate|]. intros [after H]. discriminate.
    + destruct (ascii_dec a b) as [->|Hab].
      * rewrite IH. split; intros [after H]; exists after.
        -- rewrite H. reflexivity.
        -- inversion H. reflexivity.
      * split; [discriminate|]. intros [after H]. congruence.
Qed.

Lemma contains_nil (needle : string) :
  contains needle "" = String.prefix needle "".
Proof.
  cbn [contains]. destruct (String.prefix needle ""); reflexivity.
Qed.

Lemma contains_cons (needle : string) (b : ascii) (hay : string) :
  contains needle (String b hay)
  = String.prefix needle (String b hay) || contains needle hay.
Proof.
  cbn [contains]. destruct (String.prefix needle (String b hay)); reflexivity.
Qed.

Lemma contains_mentions (needle hay : string) :
  contains needle hay = true <-> Spec.mentions needle hay.
Proof.
  unfold Spec.mentions. induction hay as [|b hay IH].
  - rewrite contains_nil, prefix_append. split.
    + intros [after H]. exists ""%string, after. exact H.
    + intros (before & after & H). destruct before; [|discriminate].
      exists after. exact H.
  - rewrite contains_cons, orb_true_iff, prefix_append, IH. split.
    + intros [[after H] | (before & after & H)].
      * exists ""%string, after. exact H.
      * exists (String b before), after. simpl. rewrite H. reflexivity.
    + intros (before & after & H). destruct before as [|c before].
      * left. exists after. exact H.
      * right. inversion H. exists before, after. reflexivity.
Qed.

Lemma not_mentions (needle hay : string) :
  contains needle hay = false -> ~ Spec.mentions needle hay.
Proof.
  intros H Hm. apply contains_mentions in Hm. congruence.
Qed.

Lemma accepted_script_accepted (U : UnicodeData) (c : Z) :
  accepted_script U c = true <-> Spec.accepted U c.
Proof.
  unfold accepted_script, Spec.accepted.
  destruct (name U c) as [n|].
  - rewrite !orb_true_iff, !contains_mentions. split.
    + intros H. exists n. split; [reflexivity|tauto].
    + intros (m & E & H). inversion E; subst. tauto.
  - split; [discriminate|]. intros (m & E & _). discriminate.
Qed.

Lemma not_accepted (U : UnicodeData) (c : Z) :
  accepted_script U c = false <-> ~ Spec.accepted U c.
Proof.
  rewrite <- accepted_script_accepted.
  destruct (accepted_script U c); split; congruence.
Qed.

Lemma latin_letter_iff (U : UnicodeData) (c : Z) :
  isalpha U c = true /\ contains "LATIN" (name_or_empty U c) = true
  <-> Spec.latin_letter U c.
Proof.
  unfold Spec.latin_letter, name_or_empty.
  destruct (name U c) as [n|].
  - rewrite contains_mentions. split.
    + intros [Ha Hm]. split; [assumption|]. exists n. auto.
    + intros [Ha (m & E & Hm)]. inversion E; subst. auto.
  - split.
    + intros [_ H]. discriminate.
    + intros [_ (m & E & _)]. discriminate.
Qed.

Lemma fixed_symbol_iff (c : Z) : In c error_chars <-> Spec.fixed_symbol c.
Proof.
  unfold error_chars, Spec.fixed_symbol. simpl.
  split; intros H; repeat destruct H as [H|H]; subst; auto 10.
  contradiction.
Qed.

(** The analyzer reads only the rows of the characters of the text. *)
Section TableRows.
Variables U V : UnicodeData.

Lemma lstrip_rows (s : pystr) :
  Forall (same_rows U V) s -> lstrip U s = lstrip V s.
Proof.
  induction 1 as [|c s (_ & _ & _ & Hc) _ IH]; simpl; [reflexivity|].
  rewrite <- Hc, IH. reflexivity.
Qed.

Lemma lstrip_Forall (P : Z -> Prop) (s : pystr) :
  Forall P s -> Forall P (lstrip U s).
Proof.
  induction 1 as [|c s Hc Hs IH]; simpl; [constructor|].
  destruct (isspace U c); [assumption|constructor; assumption].
Qed.

Lemma strip_rows (s : pystr) :
  Forall (same_rows U V) s -> strip U s = strip V s.
Proof.
  intros H. unfold strip, rstrip.
  rewrite <- (lstrip_rows s H).
  rewrite (lstrip_rows (rev (lstrip U s))); [reflexivity|].
  apply Forall_rev, lstrip_Forall, H.
Qed.

Lemma existsb_rows (f g : Z -> bool) (s : pystr) :
  Forall (fun c => f c = g c) s -> existsb f s = existsb g s.
Proof.
  induction 1 as [|c s Hc _ IH]; simpl; congruence.
Qed.

Lemma filter_rows (f g : Z -> bool) (s : pystr) :
  Forall (fun c => f c = g c) s -> filter f s = filter g s.
Proof.
  induction 1 as [|c s Hc _ IH]; simpl; [reflexivity|].
  rewrite Hc, IH. reflexivity.
Qed.

Lemma formula_rows (s : pystr) :
  Forall (same_rows U V) s ->
  _needs_formula_enhancement U s = _needs_formula_enhancement V s.
Proof.
  intros H. unfold _needs_formula_enhancement.
  rewrite (existsb_rows (isdigit U) (isdigit V) s)
    by (eapply Forall_impl; [|exact H]; intros c (_ & _ & Hd & _); exact Hd).
  rewrite (filter_rows (isalpha U) (isalpha V) s)
    by (eapply Forall_impl; [|exact H]; intros c (_ & Ha & _ & _); exact Ha).
  f_equal. apply existsb_rows.
  apply Forall_forall. intros c Hc. apply filter_In in Hc.
  destruct Hc as [Hc _]. rewrite Forall_forall in H.
  destruct (H c Hc) as (Hn & _). unfold name_or_empty. rewrite Hn. reflexivity.
Qed.

Lemma valid_rows (s : pystr) :
  Forall (same_rows U V) s ->
  _is_valid_non_ascii U s = _is_valid_non_ascii V s.
Proof.
  induction 1 as [|c s (Hn & _) _ IH]; cbn [_is_valid_non_ascii];
    [reflexivity|].
  rewrite Hn, IH. reflexivity.
Qed.

Lemma needs_rows (s : pystr) (check_formula check_encoding : bool) :
  Forall (same_rows U V) s ->
  needs_ocr_enhancement U s check_formula check_encoding
  = needs_ocr_enhancement V s check_formula check_encoding.
Proof.
  intros H. unfold needs_ocr_enhancement, _has_encoding_issues.
  rewrite (strip_rows s H), (formula_rows s H), (valid_rows s H).
  reflexivity.
Qed.
End TableRows.

Lemma same_rows_refl (U : UnicodeData) (s : pystr) : Forall (same_rows U U) s.
Proof. apply Forall_forall. intros c _. repeat split. Qed.

Lemma non_blank_iff (U : UnicodeData) (text : pystr) :
  truthy (strip U text) = true
  <-> exists c, In c text /\ isspace U c = false.
Proof.
  split.
  - intros H.
    destruct (Forall_Exists_dec (fun c => isspace U c = true)
                (fun c => bool_dec (isspace U c) true) text) as [Hall|Hex].
    + apply (strip_nil_iff U) in Hall. rewrite Hall in H. discriminate.
    + apply Exists_exists in Hex. destruct Hex as (c & Hc & Hn).
      exists c. split; [assumption|].
      destruct (isspace U c); [contradiction Hn; reflexivity|reflexivity].
  - intros (c & Hc & Hn).
    destruct (strip U text) as [|d rest] eqn:Es; [|reflexivity].
    apply strip_nil_iff in Es. rewrite Forall_forall in Es.
    rewrite (Es c Hc) in Hn. discriminate.
Qed.

(** [C5] With the formula check on, the formula flag is raised exactly
    for the texts that hold a character accepted by [str.isdigit] and an
    alphabetic character whose Unicode name mentions LATIN, provided no
    space of the table is a digit.  Every decimal digit is such a
    character, so a decimal digit and a Latin letter raise the flag, but
    a text may be flagged without holding a decimal digit.  A text made
    of spaces only, the empty text included, gets neither flag.  On any
    table with the Unicode rows of their characters, "y=x2" gets the
    flag, and the Arabic example does not, with or without a digit
    after it. *)
Theorem formula_flag_spec (U : UnicodeData) :
  (forall c, isspace U c = true -> isdigit U c = false) ->
  (forall (text : pystr) (check_encoding : bool),
      Needs.formula (needs_ocr_enhancement U text true check_encoding) = true
      <-> (exists c, In c text /\ isdigit U c = true)
          /\ (exists c, In c text /\ Spec.latin_letter U c))
  /\ ((forall c, isdecimal U c = true -> isdigit U c = true) ->
      forall (text : pystr) (check_encoding : bool),
        (exists c, In c text /\ isdecimal U c = true) ->
        (exists c, In c text /\ Spec.latin_letter U c) ->
        Needs.formula (needs_ocr_enhancement U text true check_encoding)
        = true)
  /\ (forall (text : pystr) (check_formula check_encoding : bool),
         Forall (fun c => isspace U c = true) text ->
         needs_ocr_enhancement U text check_formula check_encoding
         = {| Needs.encoding := false; Needs.formula := false |})
  /\ (Forall (same_rows U Sample.ucd) (str "y=x2") ->
      Needs.formula (needs_ocr_enhancement U (str "y=x2") true false) = true)
  /\ (Forall (same_rows U Sample.ucd) (Sample.arabic_text ++ str "2") ->
      Needs.formula (needs_ocr_enhancement U Sample.arabic_text true false)
      = false
      /\ Needs.formula
           (needs_ocr_enhancement U (Sample.arabic_text ++ str "2") true false)
         = false).
Proof.
  intros Hsd.
  assert (Hiff : forall (text : pystr) (check_encoding : bool),
             Needs.formula (needs_ocr_enhancement U text true check_encoding)
             = true
             <-> (exists c, In c text /\ isdigit U c = true)
                 /\ (exists c, In c text /\ Spec.latin_letter U c)).
  { intros text ce.
    assert (Hl : (exists c, In c text /\ Spec.latin_letter U c)
                 <-> exists c, In c text /\ isalpha U c = true
                               /\ contains "LATIN" (name_or_empty U c) = true).
    { split; intros (c & Hc & H); exists c; (split; [assumption|]);
        apply latin_letter_iff; assumption. }
    rewrite Hl. unfold needs_ocr_enhancement.
    destruct (negb (truthy text) || negb (truthy (strip U text))) eqn:Eb.
    - apply blank_iff in Eb. simpl. split; [discriminate|].
      intros [(c & Hc & Hd) _]. rewrite Forall_forall in Eb.
      rewrite (Hsd c (Eb c Hc)) in Hd. discriminate.
    - simpl. apply formula_iff. }
  split; [exact Hiff|]. split; [|split; [|split]].
  - intros Hdec text ce (c & Hc & Hd) Hlatin. apply Hiff.
    split; [|assumption]. exists c. auto.
  - intros text cf ce Hb. unfold needs_ocr_enhancement.
    apply blank_iff in Hb. rewrite Hb. reflexivity.
  - intros H. rewrite (needs_rows U Sample.ucd _ _ _ H). reflexivity.
  - intros H. split.
    + rewrite (needs_rows U Sample.ucd Sample.arabic_text).
      * reflexivity.
      * apply Forall_app in H. exact (proj1 H).
    + rewrite (needs_rows U Sample.ucd _ _ _ H). reflexivity.
Qed.

Lemma sample_spaces_are_no_digits (c : Z) :
  isspace Sample.ucd c = true -> isdigit Sample.ucd c = false.
Proof.
  unfold Sample.ucd, isspace, isdigit, Sample.between.
  intros H. apply orb_true_iff in H.
  rewrite !andb_true_iff, !Z.leb_le in H.
  apply orb_false_iff. rewrite andb_false_iff, !Z.leb_gt, Z.eqb_neq. lia.
Qed.

Lemma sample_decimals_are_digits (c : Z) :
  isdecimal Sample.ucd c = true -> isdigit Sample.ucd c = true.
Proof.
  unfold Sample.ucd, isdecimal, isdigit. intros ->. reflexivity.
Qed.

(** On the sample table, "y=x2" holds the digit 2 and the letter y,
    whose name is LATIN SMALL LETTER Y, and is flagged as a formula; the
    Arabic example followed by the digit 2 holds no Latin letter and is
    not flagged; "7 e-acute" holds a decimal digit and a Latin letter and
    is flagged. *)
Lemma formula_flag_spec_witness :
  Needs.formula (needs_ocr_enhancement Sample.ucd (str "y=x2") true false)
  = true
  /\ Needs.formula
       (needs_ocr_enhancement Sample.ucd (Sample.arabic_text ++ str "2")
                              true false)
     = false
  /\ Needs.formula (needs_ocr_enhancement Sample.ucd [55; 32; 233] true true)
     = true.
Proof.
  split; [|split].
  - apply (proj1 (formula_flag_spec Sample.ucd sample_spaces_are_no_digits)).
    split.
    + exists 50. split; [simpl; auto|reflexivity].
    + exists 121. split; [simpl; auto|].
      split; [reflexivity|].
      exists "LATIN SMALL LETTER Y"%string. split; [reflexivity|].
      exists ""%string, " SMALL LETTER Y"%string. reflexivity.
  - apply (proj2 (proj2 (proj2 (proj2
             (formula_flag_spec Sample.ucd sample_spaces_are_no_digits))))).
    apply same_rows_refl.
  - apply (proj1 (proj2 (formula_flag_spec Sample.ucd
                           sample_spaces_are_no_digits))
                 sample_decimals_are_digits).
    + exists 55. split; [simpl; auto|reflexivity].
    + exists 233. split; [simpl; auto|].
      split; [reflexivity|].
      exists "LATIN SMALL LETTER E WITH ACUTE"%string. split; [reflexivity|].
      exists ""%string, " SMALL LETTER E WITH ACUTE"%string. reflexivity.
Defined.

(** The text "x" followed by superscript two holds no decimal digit:
    superscript two is accepted by [str.isdigit] and not by
    [str.isdecimal].  It is flagged as a formula. *)
Lemma superscript_two_is_flagged :
  Needs.formula (needs_ocr_enhancement Sample.ucd [120; 178] true false)
  = true
  /\ isdigit Sample.ucd 178 = true
  /\ (forall c, In c [120; 178] -> isdecimal Sample.ucd c = false)
  /\ (forall c, In c [120; 178] -> ~ (48 <= c <= 57)).
Proof.
  split; [reflexivity|]. split; [reflexivity|]. split.
  - intros c [<-|[<-|[]]]; reflexivity.
  - intros c [<-|[<-|[]]]; lia.
Qed.

(** [C6] With the encoding check on, a text that is not blank gets the
    encoding flag exactly when it holds one of the five fixed symbols
    U+F09D, U+FFFD, U+F0AB, NUL, SUB, or a character above 127 that has
    no Unicode name or whose name mentions none of ARABIC, LATIN,
    MATHEMATICAL.  A text without the fixed symbols is not flagged when
    all its characters above 127 are of the accepted scripts, in
    particular when it is ASCII without NUL and SUB. *)
Theorem encoding_flag_spec (U : UnicodeData) (text : pystr)
        (check_formula : bool) :
  (exists c, In c text /\ isspace U c = false) ->
  (Needs.encoding (needs_ocr_enhancement U text check_formula true) = true
   <-> (exists c, In c text
                  /\ (c = 61597 \/ c = 65533 \/ c = 61611 \/ c = 0 \/ c = 26))
       \/ (exists c, In c text /\ 127 < c /\ ~ Spec.accepted U c))
  /\ ((forall c, In c text ->
                 c <> 61597 /\ c <> 65533 /\ c <> 61611 /\ c <> 0 /\ c <> 26) ->
      (forall c, In c text -> 127 < c -> Spec.accepted U c) ->
      Needs.encoding (needs_ocr_enhancement U text check_formula true) = false)
  /\ ((forall c, In c text -> 0 < c <= 127 /\ c <> 26) ->
      Needs.encoding (needs_ocr_enhancement U text check_formula true) = false).
Proof.
  intros Hnb. apply non_blank_iff in Hnb.
  assert (Ht : truthy text = true).
  { destruct text; [discriminate|reflexivity]. }
  assert (He : Needs.encoding (needs_ocr_enhancement U text check_formula true)
               = _has_encoding_issues U text).
  { unfold needs_ocr_enhancement. rewrite Ht, Hnb. reflexivity. }
  rewrite He.
  assert (Hiff : _has_encoding_issues U text = true
                 <-> (exists c, In c text
                                /\ (c = 61597 \/ c = 65533 \/ c = 61611
                                    \/ c = 0 \/ c = 26))
                     \/ (exists c, In c text /\ 127 < c
                                   /\ ~ Spec.accepted U c)).
  { rewrite encoding_iff. split.
    - intros [(c & Hc & Hin) | (c & Hin & Hlt & Ha)].
      + left. exists c. split; [assumption|].
        apply fixed_symbol_iff. assumption.
      + right. exists c. repeat split; try assumption.
        apply not_accepted. assumption.
    - intros [(c & Hin & Hc) | (c & Hin & Hlt & Ha)].
      + left. exists c. split; [|assumption].
        apply fixed_symbol_iff. assumption.
      + right. exists c. repeat split; try assumption.
        apply not_accepted. assumption. }
  assert (Hno : (forall c, In c text ->
                           c <> 61597 /\ c <> 65533 /\ c <> 61611
                           /\ c <> 0 /\ c <> 26) ->
                (forall c, In c text -> 127 < c -> Spec.accepted U c) ->
                _has_encoding_issues U text = false).
  { intros Herr Hacc.
    apply not_true_is_false. intros E. apply Hiff in E.
    destruct E as [(c & Hin & Hc) | (c & Hin & Hlt & Ha)].
    - specialize (Herr c Hin). lia.
    - exact (Ha (Hacc c Hin Hlt)). }
  split; [exact Hiff|]. split; [exact Hno|].
  intros Hascii. apply Hno.
  - intros c Hc. specialize (Hascii c Hc). lia.
  - intros c Hc Hlt. specialize (Hascii c Hc). lia.
Qed.

(** On the sample table: "e-acute 2" is not flagged, e-acute being a
    Latin letter; the replacement character is flagged as a fixed
    symbol; the ideograph U+4E2D is flagged, its name mentioning none of
    the three scripts; U+0378, which has no name, is flagged; and the
    ASCII text "y=x2" is not flagged. *)
Lemma encoding_flag_spec_witness :
  Needs.encoding (needs_ocr_enhancement Sample.ucd [233; 50] false true)
  = false
  /\ Needs.encoding (needs_ocr_enhancement Sample.ucd [97; 65533] false true)
     = true
  /\ Needs.encoding (needs_ocr_enhancement Sample.ucd [20013] false true)
     = true
  /\ Needs.encoding (needs_ocr_enhancement Sample.ucd [888] false true)
     = true
  /\ Needs.encoding (needs_ocr_enhancement Sample.ucd (str "y=x2") true true)
     = false.
Proof.
  split; [|split; [|split; [|split]]].
  - refine (proj1 (proj2 (encoding_flag_spec Sample.ucd [233; 50] false _))
                  _ _).
    + exists 233. split; [simpl; auto|reflexivity].
    + intros c [<-|[<-|[]]]; lia.
    + intros c [<-|[<-|[]]] Hlt; [|lia].
      exists "LATIN SMALL LETTER E WITH ACUTE"%string.
      split; [reflexivity|]. right. left.
      exists ""%string, " SMALL LETTER E WITH ACUTE"%string. reflexivity.
  - refine (proj2 (proj1 (encoding_flag_spec Sample.ucd [97; 65533] false _))
                  _).
    + exists 97. split; [simpl; auto|reflexivity].
    + left. exists 65533. split; [simpl; auto|auto].
  - refine (proj2 (proj1 (encoding_flag_spec Sample.ucd [20013] false _)) _).
    + exists 20013. split; [simpl; auto|reflexivity].
    + right. exists 20013. split; [simpl; auto|]. split; [lia|].
      apply not_accepted. reflexivity.
  - refine (proj2 (proj1 (encoding_flag_spec Sample.ucd [888] false _)) _).
    + exists 888. split; [simpl; auto|reflexivity].
    + right. exists 888. split; [simpl; auto|]. split; [lia|].
      intros (n & E & _). discriminate.
  - refine (proj2 (proj2 (encoding_flag_spec Sample.ucd (str "y=x2") true _))
                  _).
    + exists 121. split; [simpl; auto|reflexivity].
    + intros c Hc. vm_compute in Hc.
      destruct Hc as [<-|[<-|[<-|[<-|[]]]]]; lia.
Defined.

(** The text "A" followed by NUL is plain ASCII and is not blank, and it
    gets the encoding flag: NUL is one of the fixed symbols. *)
Lemma ascii_with_nul_is_flagged :
  Forall (fun c => 0 <= c <= 127) [65; 0]
  /\ (forall c, In c [65; 0] -> 127 < c ->
                accepted_script Sample.ucd c = true)
  /\ truthy (strip Sample.ucd [65; 0]) = true
  /\ Needs.encoding (needs_ocr_enhancement Sample.ucd [65; 0] false true)
     = true.
Proof.
  split; [repeat constructor; lia|]. split; [|split; reflexivity].
  intros c Hin Hlt. simpl in Hin. lia.
Qed.

(** ** The recognition adapter *)

Lemma join_space_cons (first : pystr) (rest : list pystr) :
  join_space (first :: rest)
  = first ++ flat_map (fun line => 32 :: line) rest.
Proof.
  revert first. induction rest as [|second rest IH]; intros first.
  - simpl. rewrite app_nil_r. reflexivity.
  - change (join_space (first :: second :: rest))
      with (first ++ 32 :: join_space (second :: rest)).
    rewrite IH. reflexivity.
Qed.

Lemma join_space_joined (lines : list pystr) :
  join_space lines = Spec.joined lines.
Proof.
  destruct lines as [|first rest]; [reflexivity|]. apply join_space_cons.
Qed.

Section Adapter.
Variable Image : Type.
Variable Detector : Type.
Variable U : UnicodeData.
Variable pil : Imaging Image.
Variable rt : Runtime Image Detector.

Lemma ensure_loaded_when_loaded (self : OCREnhancer Image Detector) :
  _models_loaded self = true -> ensure_loaded rt self = self.
Proof. unfold ensure_loaded. intros ->. reflexivity. Qed.

(** An adapter whose initialization cannot succeed stays unloaded. *)
Lemma ensure_loaded_never (self : OCREnhancer Image Detector) :
  never_loads rt -> _models_loaded self = false ->
  _models_loaded (ensure_loaded rt self) = false.
Proof.
  intros Hn Hl. unfold ensure_loaded, _load_models. rewrite Hl. simpl.
  destruct (_models_loading self); [assumption|].
  destruct Hn as [Hs | Hf].
  - rewrite Hs. assumption.
  - destruct (SURYA_AVAILABLE rt); [|assumption]. simpl.
    destruct (Hf (attempts self)
                 (if _try_cuda rt (attempts self) then "cuda" else "cpu")%string)
      as [e ->].
    reflexivity.
Qed.

Lemma extract_text_unloaded (self : OCREnhancer Image Detector)
      (image : Image) (bbox : pixel_box) (old_text : pystr) (math_mode : bool) :
  never_loads rt -> _models_loaded self = false ->
  extract_text_from_region U pil rt self image bbox old_text math_mode
  = (old_text, ensure_loaded rt self).
Proof.
  intros Hn Hl. unfold extract_text_from_region.
  rewrite (ensure_loaded_never self Hn Hl). reflexivity.
Qed.

Lemma enhance_table_unloaded (self : OCREnhancer Image Detector)
      (table_image : Image) (page_dim : Z * Z) (table_item : Table.TableItem)
      (table_bbox : pixel_box) (pdf_w pdf_h : float) :
  never_loads rt -> _models_loaded self = false ->
  enhance_table_structure rt self table_image page_dim table_item
                          table_bbox pdf_w pdf_h
  = (table_item, ensure_loaded rt self).
Proof.
  intros Hn Hl. unfold enhance_table_structure.
  rewrite (ensure_loaded_never self Hn Hl). reflexivity.
Qed.

(** [C8] When the models are loaded, at the latest by the load that
    the call itself makes, and the recognizer returns predictions for
    the padded region, [extract_text_from_region] keeps the lines of
    the first prediction whose confidence is above 0.5, joins their
    texts with single spaces, strips the result, and returns it when it
    is not empty and the previous text otherwise. *)
Theorem extract_text_keeps_confident_lines
        (self : OCREnhancer Image Detector) (image : Image)
        (bbox : pixel_box) (old_text : pystr) (math_mode : bool)
        (background : Image)
        (predictor : RecognitionPredictor Image Detector)
        (predictions : list Ocr.OCRResult) :
  _models_loaded (ensure_loaded rt self) = true ->
  padded_region pil image bbox = Ok background ->
  _recognition_predictor (ensure_loaded rt self) = Some predictor ->
  predictor background (_detection_predictor (ensure_loaded rt self))
            math_mode = Ok predictions ->
  let kept :=
    match predictions with
    | [] => []
    | first :: _ =>
        filter (fun line => py_gt (Ocr.confidence line) (Float f_0_5))
               (Ocr.text_lines first)
    end in
  let joined := Spec.joined (map Ocr.text kept) in
  extract_text_from_region U pil rt self image bbox old_text math_mode
  = (if truthy (strip U joined) then strip U joined else old_text,
     ensure_loaded rt self).
Proof.
  intros Hl Hp Hr Hpred kept joined.
  unfold extract_text_from_region.
  rewrite Hl. simpl negb. cbv iota.
  unfold recognize_region. rewrite Hp, Hr. simpl. rewrite Hpred. simpl.
  replace (high_confidence_lines predictions) with (map Ocr.text kept)
    by (unfold kept, high_confidence_lines; destruct predictions; reflexivity).
  rewrite join_space_joined. reflexivity.
Qed.
End Adapter.

(** A fresh adapter loads its models at the call.  The recognizer reads
    four lines: " a" and "b " with confidence 0.9 are kept, "zz" with 0.3
    and "c" with exactly 0.5 are dropped, and "a b" is returned. *)
Lemma extract_text_keeps_confident_lines_witness :
  extract_text_from_region Sample.ucd Sample.pil Sample.reading
                           new_OCREnhancer
                           (Sample.Blank 100 100) (10, 10, 40, 20)
                           (str "y") true
  = (str "a b", ensure_loaded Sample.reading new_OCREnhancer)
  /\ _models_loaded (new_OCREnhancer (Image := Sample.Raster)
                                     (Detector := unit)) = false.
Proof.
  split; [|reflexivity].
  exact (extract_text_keeps_confident_lines
           Sample.Raster unit Sample.ucd Sample.pil Sample.reading
           new_OCREnhancer
           (Sample.Blank 100 100) (10, 10, 40, 20) (str "y") true
           (Sample.Blank 80 40) Sample.reader Sample.four_lines
           eq_refl eq_refl eq_refl eq_refl).
Defined.

(** The lines kept are " a" and "b "; joined with a single space they
    read " a b ", and the call returns "a b". *)
Lemma joined_string_is_stripped :
  Sample.reader (Sample.Blank 80 40) (Some tt) true = Ok Sample.four_lines
  /\ map Ocr.text
         (filter (fun line => py_gt (Ocr.confidence line) (Float f_0_5))
                 (match Sample.four_lines with
                  | first :: _ => Ocr.text_lines first
                  | [] => []
                  end))
     = [str " a"; str "b "]
  /\ join_space [str " a"; str "b "] = str " a b "
  /\ fst (extract_text_from_region Sample.ucd Sample.pil Sample.reading
            new_OCREnhancer (Sample.Blank 100 100) (10, 10, 40, 20)
            (str "y") true)
     = str "a b"
  /\ str "a b" <> str " a b ".
Proof. repeat split. discriminate. Qed.

(** ** The orchestrator *)

Lemma for_each_frame {A S : Type} (body : A -> S -> result unit * A * S)
      (Inv : S -> Prop) (Good : A -> Prop) (Bad : exn -> A -> Prop)
      (xs : list A) :
  (forall x s, In x xs -> Inv s ->
               exists r s', body x s = (r, x, s') /\ Inv s'
                            /\ verdict r (Good x) (fun e => Bad e x)) ->
  forall s, Inv s ->
            exists r s', for_each body xs s = (r, xs, s') /\ Inv s'
                         /\ verdict r (forall x, In x xs -> Good x)
                                    (fun e => exists x, In x xs /\ Bad e x).
Proof.
  unfold verdict.
  induction xs as [|x xs IH]; intros Hbody s Hs; simpl.
  - exists (Ok tt), s. repeat split; auto.
    + intros _ x [].
    + intros e H. discriminate.
  - destruct (Hbody x s (or_introl eq_refl) Hs)
      as (r & s1 & E & Hs1 & Hg & Ho & Hb).
    rewrite E. destruct r as [[]|e].
    + destruct (IH (fun y t Hy => Hbody y t (or_intror Hy)) s1 Hs1)
        as (r2 & s2 & E2 & Hs2 & Hg2 & Ho2 & Hb2).
      rewrite E2. exists r2, s2. split; [reflexivity|]. split; [assumption|].
      split; [|split].
      * intros Hall. apply Hg2. intros y Hy. apply Hall. right; assumption.
      * intros Hr y [<-|Hy]; [apply Ho; reflexivity|apply Ho2; assumption].
      * intros e Hr. destruct (Hb2 e Hr) as (y & Hy & Hbad).
        exists y. split; [right; assumption|assumption].
    + exists (Raise e), s1. split; [reflexivity|]. split; [assumption|].
      split; [|split].
      * intros Hall. apply Hg, Hall. left; reflexivity.
      * discriminate.
      * intros e' Hr. exists x. split; [left; reflexivity|]. apply Hb, Hr.
Qed.

Lemma on_page_targets (page_num : Z) (item : Item.t) :
  on_page page_num item = true <-> Spec.targets item page_num.
Proof.
  unfold on_page, first_prov, Spec.targets.
  destruct (Item.prov item) as [[|p rest]|].
  - split; [discriminate|]. intros (q & more & E & _). discriminate.
  - rewrite Z.eqb_eq. split.
    + intros H. exists p, rest. auto.
    + intros (q & more & E & H). inversion E; subst. reflexivity.
  - split; [discriminate|]. intros (q & more & E & _). discriminate.
Qed.

Lemma off_page_targets (page_num : Z) (item : Item.t) :
  on_page page_num item = false <-> ~ Spec.targets item page_num.
Proof.
  rewrite <- on_page_targets.
  destruct (on_page page_num item); split; congruence.
Qed.

Lemma pystr_eqb_refl (s : pystr) : pystr_eqb s s = true.
Proof. unfold pystr_eqb. destruct (list_eq_dec Z.eq_dec s s); congruence. Qed.


Lemma has_overlap_existsb (text_bbox : pixel_box) (boxes : list pixel_box) :
  has_overlap text_bbox boxes = Ok (existsb (occludes text_bbox) boxes).
Proof.
  induction boxes as [|other rest IH]; simpl; [reflexivity|].
  unfold occludes at 1.
  destruct (calculate_overlap_ratio_unit text_bbox other) as (r & -> & _).
  simpl. destruct (py_gt r (Float f_0_05)); [reflexivity|exact IH].
Qed.


Lemma collect_bboxes_ok (page_num : Z) (pdf_w pdf_h : float)
      (img_w img_h : Z) (items : list Item.t) :
  (forall item, In item items -> on_page page_num item = true ->
                exists bx, get_pixel_bbox item pdf_w pdf_h img_w img_h = Ok bx) ->
  exists boxes,
    collect_bboxes page_num pdf_w pdf_h img_w img_h items = Ok boxes.
Proof.
  induction items as [|item rest IH]; intros H; simpl; [eauto|].
  destruct (IH (fun i Hi => H i (or_intror Hi))) as [more Em].
  destruct (on_page page_num item) eqn:Ep; [|eauto].
  destruct (H item (or_introl eq_refl) Ep) as [bx ->]. simpl.
  rewrite Em. simpl. eauto.
Qed.

(** The collection returns when every element on the page converts, and
    raises what the conversion of one of them raises. *)
Lemma collect_bboxes_outcome (page_num : Z) (pdf_w pdf_h : float)
      (img_w img_h : Z) (items : list Item.t) :
  match collect_bboxes page_num pdf_w pdf_h img_w img_h items with
  | Ok _ =>
      forall item, In item items -> Spec.targets item page_num ->
                   exists bx,
                     get_pixel_bbox item pdf_w pdf_h img_w img_h = Ok bx
  | Raise e =>
      exists item, In item items /\ Spec.targets item page_num
                   /\ get_pixel_bbox item pdf_w pdf_h img_w img_h = Raise e
  end.
Proof.
  induction items as [|item rest IH]; simpl.
  - intros item [].
  - destruct (on_page page_num item) eqn:Ep.
    + apply on_page_targets in Ep.
      destruct (get_pixel_bbox item pdf_w pdf_h img_w img_h) as [bx|e] eqn:Eb;
        simpl.
      * destruct (collect_bboxes page_num pdf_w pdf_h img_w img_h rest)
          as [more|e]; simpl.
        -- intros i [<-|Hi] Ht; [eauto|apply IH; assumption].
        -- destruct IH as (i & Hi & Ht & Hr). exists i. auto.
      * exists item. auto.
    + apply off_page_targets in Ep.
      destruct (collect_bboxes page_num pdf_w pdf_h img_w img_h rest)
        as [more|e].
      * intros i [<-|Hi] Ht; [contradiction|apply IH; assumption].
      * destruct IH as (i & Hi & Ht & Hr). exists i. auto.
Qed.

Lemma set_cells_same (table : Table.TableItem) :
  Table.set_cells table (Table.table_cells table) = table.
Proof. destruct table; reflexivity. Qed.

Lemma set_tables_same (document : Doc.Document) :
  Doc.set_tables document (Doc.tables document) = document.
Proof. destruct document; reflexivity. Qed.

Lemma set_texts_same (document : Doc.Document) :
  Doc.set_texts document (Doc.texts document) = document.
Proof. destruct document; reflexivity. Qed.

Section Orchestrator.
Variable Image : Type.
Variable Detector : Type.
Variable U : UnicodeData.
Variable pil : Imaging Image.
Variable rt : Runtime Image Detector.

Variable self : DocumentEnhancer Image Detector.
Hypothesis Hnever : never_loads rt.

Lemma process_cell_idle (page_image : Image) (pdf_w pdf_h : float)
      (img_w img_h : Z) (cell : Cell.TableCell)
      (ocr : OCREnhancer Image Detector) :
  idle ocr ->
  exists r ocr',
    process_cell U pil rt self page_image pdf_w pdf_h img_w img_h cell ocr
    = (r, cell, ocr')
    /\ idle ocr'
    /\ verdict r
         (Needs.any (_should_enhance_text U self (Cell.text cell)) = true ->
          exists bx, get_pixel_bbox (Cell.item cell) pdf_w pdf_h img_w img_h
                     = Ok bx)
         (fun e =>
            Needs.any (_should_enhance_text U self (Cell.text cell)) = true
            /\ get_pixel_bbox (Cell.item cell) pdf_w pdf_h img_w img_h
               = Raise e).
Proof.
  intros Hi. unfold process_cell, verdict.
  destruct (Needs.any (_should_enhance_text U self (Cell.text cell))) eqn:En.
  - destruct (get_pixel_bbox (Cell.item cell) pdf_w pdf_h img_w img_h)
      as [bx|e] eqn:Eb.
    + rewrite (extract_text_unloaded Image Detector U pil rt ocr) by assumption.
      rewrite pystr_eqb_refl, andb_false_r.
      exists (Ok tt), (ensure_loaded rt ocr).
      split; [reflexivity|].
      split; [apply ensure_loaded_never; assumption|].
      split; [reflexivity|]. split; [eauto|discriminate].
    + exists (Raise e), ocr.
      split; [reflexivity|]. split; [assumption|]. split; [|split].
      * intros H. destruct (H eq_refl) as [bx Hbx]. discriminate.
      * discriminate.
      * intros e' H. inversion H; subst. auto.
  - exists (Ok tt), ocr.
    split; [reflexivity|]. split; [assumption|].
    split; [reflexivity|]. split; [discriminate|discriminate].
Qed.

Lemma process_table_idle (page_num : Z) (page_image : Image)
      (pdf_w pdf_h : float) (img_w img_h : Z) (table : Table.TableItem)
      (ocr : OCREnhancer Image Detector) :
  idle ocr ->
  exists r ocr',
    process_table U pil rt self page_num page_image pdf_w pdf_h img_w img_h
                  table ocr
    = (r, table, ocr')
    /\ idle ocr'
    /\ verdict r
         (Spec.targets (Table.item table) page_num ->
          (exists bx, get_pixel_bbox (Table.item table) pdf_w pdf_h
                                     img_w img_h = Ok bx)
          /\ (forall bx, get_pixel_bbox (Table.item table) pdf_w pdf_h
                                        img_w img_h = Ok bx ->
                         exists region, crop pil page_image bx = Ok region)
          /\ (forall cell, In cell (Table.table_cells table) ->
                Needs.any (_should_enhance_text U self (Cell.text cell))
                = true ->
                exists bx, get_pixel_bbox (Cell.item cell) pdf_w pdf_h
                                          img_w img_h = Ok bx))
         (fun e =>
            Spec.targets (Table.item table) page_num
            /\ (get_pixel_bbox (Table.item table) pdf_w pdf_h img_w img_h
                = Raise e
                \/ (exists bx,
                       get_pixel_bbox (Table.item table) pdf_w pdf_h
                                      img_w img_h = Ok bx
                       /\ crop pil page_image bx = Raise e)
                \/ (exists cell,
                       In cell (Table.table_cells table)
                       /\ Needs.any (_should_enhance_text U self
                                                          (Cell.text cell))
                          = true
                       /\ get_pixel_bbox (Cell.item cell) pdf_w pdf_h
                                         img_w img_h = Raise e))).
Proof.
  intros Hi. unfold process_table, verdict.
  destruct (on_page page_num (Table.item table)) eqn:Ep; simpl.
  2:{ apply off_page_targets in Ep. exists (Ok tt), ocr.
      split; [reflexivity|]. split; [assumption|].
      split; [reflexivity|]. split; [intros _ Ht; contradiction|].
      discriminate. }
  apply on_page_targets in Ep.
  destruct (get_pixel_bbox (Table.item table) pdf_w pdf_h img_w img_h)
    as [bx|e] eqn:Eb.
  2:{ exists (Raise e), ocr.
      split; [reflexivity|]. split; [assumption|]. split; [|split].
      - intros H. destruct (H Ep) as ([bx Hbx] & _). discriminate.
      - discriminate.
      - intros e' H. inversion H; subst. auto. }
  destruct (crop pil page_image bx) as [region|e] eqn:Ec.
  2:{ exists (Raise e), ocr.
      split; [reflexivity|]. split; [assumption|]. split; [|split].
      - intros H. destruct (H Ep) as (_ & Hc & _).
        destruct (Hc bx eq_refl) as [region Hr]. congruence.
      - discriminate.
      - intros e' H. inversion H; subst. split; [assumption|].
        right. left. exists bx. auto. }
  rewrite (enhance_table_unloaded Image Detector rt ocr) by assumption.
  destruct (for_each_frame
              (process_cell U pil rt self page_image pdf_w pdf_h img_w img_h)
              idle _ _
              (Table.table_cells table)
              (fun cell s _ Hs =>
                 process_cell_idle page_image pdf_w pdf_h img_w img_h cell s Hs)
              (ensure_loaded rt ocr)
              (ensure_loaded_never Image Detector rt ocr Hnever Hi))
    as (r & ocr' & E & Hi' & Hg & Ho & Hb).
  rewrite E, set_cells_same. exists r, ocr'.
  split; [reflexivity|]. split; [assumption|]. split; [|split].
  - intros H. destruct (H Ep) as (_ & _ & Hcells). apply Hg. exact Hcells.
  - intros Hr _. split; [eauto|]. split.
    + intros bx' Hbx'. inversion Hbx'; subst. eauto.
    + apply Ho. assumption.
  - intros e Hr. split; [assumption|]. right. right.
    destruct (Hb e Hr) as (cell & Hc & Hn & Hraise). exists cell. auto.
Qed.

Lemma process_text_idle (page_num : Z) (page_image : Image)
      (pdf_w pdf_h : float) (img_w img_h : Z) (boxes : list pixel_box)
      (text : Text.TextItem) (ocr : OCREnhancer Image Detector) :
  idle ocr ->
  exists r ocr',
    process_text U pil rt self page_num page_image pdf_w pdf_h img_w img_h
                 boxes text ocr
    = (r, text, ocr')
    /\ idle ocr'
    /\ verdict r
         (Spec.targets (Text.item text) page_num ->
          exists bx, get_pixel_bbox (Text.item text) pdf_w pdf_h img_w img_h
                     = Ok bx)
         (fun e =>
            Spec.targets (Text.item text) page_num
            /\ get_pixel_bbox (Text.item text) pdf_w pdf_h img_w img_h
               = Raise e).
Proof.
  intros Hi. unfold process_text, verdict.
  destruct (on_page page_num (Text.item text)) eqn:Ep; simpl.
  2:{ apply off_page_targets in Ep. exists (Ok tt), ocr.
      split; [reflexivity|]. split; [assumption|].
      split; [reflexivity|]. split; [intros _ Ht; contradiction|].
      discriminate. }
  apply on_page_targets in Ep.
  destruct (get_pixel_bbox (Text.item text) pdf_w pdf_h img_w img_h)
    as [bx|e] eqn:Eb; simpl.
  2:{ exists (Raise e), ocr.
      split; [reflexivity|]. split; [assumption|]. split; [|split].
      - intros H. destruct (H Ep) as [bx Hbx]. discriminate.
      - discriminate.
      - intros e' H. inversion H; subst. auto. }
  rewrite has_overlap_existsb. simpl.
  destruct (existsb (occludes bx) boxes).
  { exists (Ok tt), ocr.
    split; [reflexivity|]. split; [assumption|].
    split; [reflexivity|]. split; [eauto|discriminate]. }
  destruct (Needs.any (_should_enhance_text U self (Text.text text))).
  2:{ exists (Ok tt), ocr.
      split; [reflexivity|]. split; [assumption|].
      split; [reflexivity|]. split; [eauto|discriminate]. }
  rewrite (extract_text_unloaded Image Detector U pil rt ocr) by assumption.
  rewrite pystr_eqb_refl, andb_false_r.
  exists (Ok tt), (ensure_loaded rt ocr).
  split; [reflexivity|].
  split; [apply ensure_loaded_never; assumption|].
  split; [reflexivity|]. split; [eauto|discriminate].
Qed.

Lemma process_page_idle (page : Page.PageItem) (page_image : Image)
      (page_num : Z) (document : Doc.Document)
      (ocr : OCREnhancer Image Detector) :
  idle ocr ->
  exists r ocr',
    _process_page_elements U pil rt self page page_image page_num document ocr
    = (r, document, ocr')
    /\ idle ocr'
    /\ verdict r
         (page_geometry_ok U pil self document page_num page page_image)
         (page_geometry_raises U pil self document page_num page page_image).
Proof.
  intros Hi.
  unfold _process_page_elements, page_geometry_ok, page_geometry_raises,
    verdict.
  destruct (size pil page_image) as [img_w img_h].
  destruct (Page.size page) as [pdf_w pdf_h].
  assert (Hcol := collect_bboxes_outcome page_num pdf_w pdf_h img_w img_h
                    (non_text_items document)).
  unfold _collect_non_text_bboxes. fold (non_text_items document).
  destruct (collect_bboxes page_num pdf_w pdf_h img_w img_h
                           (non_text_items document)) as [boxes|e].
  2:{ destruct Hcol as (item & Hin & Ht & Hr).
      exists (Raise e), ocr.
      split; [reflexivity|]. split; [assumption|]. split; [|split].
      - intros (Hitems & _). exfalso.
        destruct (Hitems item) as [bx Hbx];
          [apply in_or_app; left; assumption|assumption|congruence].
      - discriminate.
      - intros e' H. inversion H; subst. left. exists item.
        split; [apply in_or_app; left; assumption|auto]. }
  unfold _process_tables.
  destruct (for_each_frame
              (process_table U pil rt self page_num page_image
                             pdf_w pdf_h img_w img_h)
              idle _ _ (Doc.tables document)
              (fun table s _ Hs =>
                 process_table_idle page_num page_image pdf_w pdf_h
                                    img_w img_h table s Hs)
              ocr Hi)
    as (r1 & ocr1 & E1 & Hi1 & Hg1 & Ho1 & Hb1).
  rewrite E1, set_tables_same.
  assert (Htab : forall table, In table (Doc.tables document) ->
                               In (Table.item table)
                                  (non_text_items document
                                   ++ map Text.item (Doc.texts document))).
  { intros table Hin. apply in_or_app. left.
    unfold non_text_items. rewrite !in_app_iff. right. right. right.
    apply in_map. assumption. }
  destruct r1 as [[]|e].
  2:{ exists (Raise e), ocr1.
      split; [reflexivity|]. split; [assumption|]. split; [|split].
      - intros (Hitems & Hcrop & Hcells). apply Hg1.
        intros table Hin Hp. repeat split.
        + apply Hitems; [apply Htab|]; assumption.
        + intros bx; apply Hcrop; assumption.
        + intros cell; apply Hcells; assumption.
      - discriminate.
      - intros e' H. inversion H; subst.
        destruct (Hb1 e' eq_refl) as (table & Hin & Ht & Hbad).
        destruct Hbad as [Hr | [(bx & Hbx & Hr) | (cell & Hc & Hn & Hr)]].
        + left. exists (Table.item table).
          split; [apply Htab; assumption|auto].
        + right. left. exists table, bx. auto.
        + right. right. exists table, cell. auto. }
  unfold _process_text_elements.
  destruct (for_each_frame
              (process_text U pil rt self page_num page_image
                            pdf_w pdf_h img_w img_h boxes)
              idle _ _ (Doc.texts document)
              (fun text s _ Hs =>
                 process_text_idle page_num page_image pdf_w pdf_h
                                   img_w img_h boxes text s Hs)
              ocr1 Hi1)
    as (r2 & ocr2 & E2 & Hi2 & Hg2 & Ho2 & Hb2).
  rewrite E2, set_texts_same. exists r2, ocr2.
  split; [reflexivity|]. split; [assumption|]. split; [|split].
  - intros (Hitems & _). apply Hg2. intros text Hin Hp.
    apply Hitems; [|assumption]. apply in_or_app. right.
    apply in_map. assumption.
  - intros Hr. split; [|split].
    + intros item Hin Ht. apply in_app_or in Hin.
      destruct Hin as [Hin|Hin]; [apply Hcol; assumption|].
      apply in_map_iff in Hin. destruct Hin as (text & <- & Hin).
      apply (Ho2 Hr text Hin). assumption.
    + intros table bx Hin Ht Hbx.
      destruct (Ho1 eq_refl table Hin Ht) as (_ & Hc & _). apply Hc, Hbx.
    + intros table cell Hin Ht Hc Hn.
      destruct (Ho1 eq_refl table Hin Ht) as (_ & _ & Hcells).
      apply Hcells; assumption.
  - intros e Hr. destruct (Hb2 e Hr) as (text & Hin & Ht & Hraise).
    left. exists (Text.item text). split; [|auto].
    apply in_or_app. right. apply in_map. assumption.
Qed.

Lemma process_pages_idle (document : Doc.Document)
      (pages : list (Z * Page.PageItem)) :
  forall ocr : OCREnhancer Image Detector,
    idle ocr ->
    exists r ocr',
      process_pages U pil rt self pages document ocr = (r, document, ocr')
      /\ idle ocr'
      /\ verdict r
           (forall page_num page image,
               In (page_num, page) pages ->
               _get_page_image pil page = Some image ->
               page_geometry_ok U pil self document page_num page
                                (preprocess_image pil image))
           (fun e =>
              exists page_num page image,
                In (page_num, page) pages
                /\ _get_page_image pil page = Some image
                /\ page_geometry_raises U pil self document page_num page
                                        (preprocess_image pil image) e).
Proof.
  unfold verdict.
  induction pages as [|[page_num page] rest IH]; intros ocr Hi; simpl.
  - exists (Ok tt), ocr.
    split; [reflexivity|]. split; [assumption|]. split; [reflexivity|].
    split; [intros _ n p i []|discriminate].
  - destruct (_get_page_image pil page) as [image|] eqn:Eg.
    + destruct (process_page_idle page (preprocess_image pil image) page_num
                                  document ocr Hi)
        as (r1 & ocr1 & E1 & Hi1 & Hg1 & Ho1 & Hb1).
      rewrite E1. destruct r1 as [[]|e].
      * destruct (IH ocr1 Hi1) as (r2 & ocr2 & E2 & Hi2 & Hg2 & Ho2 & Hb2).
        rewrite E2. exists r2, ocr2.
        split; [reflexivity|]. split; [assumption|]. split; [|split].
        -- intros H. apply Hg2. intros n p i Hin. apply H. right; assumption.
        -- intros Hr n p i [Heq|Hin] Himg.
           ++ inversion Heq; subst. rewrite Eg in Himg.
              inversion Himg; subst. apply Ho1. reflexivity.
           ++ apply (Ho2 Hr n p i Hin Himg).
        -- intros e Hr. destruct (Hb2 e Hr) as (n & p & i & Hin & Himg & Hbad).
           exists n, p, i. split; [right; assumption|auto].
      * exists (Raise e), ocr1.
        split; [reflexivity|]. split; [assumption|]. split; [|split].
        -- intros H. apply Hg1.
           apply (H page_num page image); [left; reflexivity|assumption].
        -- discriminate.
        -- intros e' Hr. exists page_num, page, image.
           split; [left; reflexivity|]. split; [assumption|].
           apply Hb1. assumption.
    + destruct (IH ocr Hi) as (r2 & ocr2 & E2 & Hi2 & Hg2 & Ho2 & Hb2).
      exists r2, ocr2.
      split; [assumption|]. split; [assumption|]. split; [|split].
      * intros H. apply Hg2. intros n p i Hin. apply H. right; assumption.
      * intros Hr n p i [Heq|Hin] Himg.
        -- inversion Heq; subst. congruence.
        -- apply (Ho2 Hr n p i Hin Himg).
      * intros e Hr. destruct (Hb2 e Hr) as (n & p & i & Hin & Himg & Hbad).
        exists n, p, i. split; [right; assumption|auto].
Qed.
End Orchestrator.

(** [C3] With both enhancement flags off, [process_conversion_result]
    returns at once: the document and the enhancer, its adapter
    included, are left as they were. *)
Theorem disabled_is_identity
        (Image Detector : Type) (U : UnicodeData) (pil : Imaging Image)
        (rt : Runtime Image Detector) (self : DocumentEnhancer Image Detector)
        (conversion_result : option Doc.Document) :
  enable_formula_enhancement self = false ->
  enable_character_encoding_fix self = false ->
  process_conversion_result U pil rt self conversion_result
  = (Ok tt, conversion_result, self).
Proof.
  intros Hf He. unfold process_conversion_result. rewrite Hf, He.
  destruct conversion_result; reflexivity.
Qed.

(** The sample document goes through a disabled enhancer unchanged. *)
Lemma disabled_is_identity_witness :
  process_conversion_result Sample.ucd Sample.pil Sample.broken
    (Sample.enhancer false false) (Some (Sample.document 100 100))
  = (Ok tt, Some (Sample.document 100 100), Sample.enhancer false false).
Proof.
  exact (disabled_is_identity Sample.Raster unit Sample.ucd Sample.pil
           Sample.broken (Sample.enhancer false false)
           (Some (Sample.document 100 100)) eq_refl eq_refl).
Defined.

(** [C4] When initialization of the models can never succeed,
    [extract_text_from_region] returns the previous text,
    [enhance_table_structure] returns the table with its cells as they
    were, and the adapter stays unloaded.  The orchestrator, whatever its
    flags, leaves the document as it was and loads nothing, whether it
    returns or raises.  It returns whenever the geometry of the elements
    it visits converts and its table regions crop; with a flag on it
    returns only then; and an exception that it raises is the exception
    of one of those conversions or crops. *)
Theorem graceful_degradation
        (Image Detector : Type) (U : UnicodeData) (pil : Imaging Image)
        (rt : Runtime Image Detector) :
  never_loads rt ->
  (forall (self : OCREnhancer Image Detector) (image : Image)
          (bbox : pixel_box) (old_text : pystr) (math_mode : bool),
      _models_loaded self = false ->
      fst (extract_text_from_region U pil rt self image bbox old_text math_mode)
      = old_text
      /\ _models_loaded
           (snd (extract_text_from_region U pil rt self image bbox
                                          old_text math_mode)) = false)
  /\ (forall (self : OCREnhancer Image Detector) (table_image : Image)
             (page_dim : Z * Z) (table_item : Table.TableItem)
             (table_bbox : pixel_box) (pdf_w pdf_h : float),
         _models_loaded self = false ->
         fst (enhance_table_structure rt self table_image page_dim table_item
                                      table_bbox pdf_w pdf_h)
         = table_item
         /\ _models_loaded
              (snd (enhance_table_structure rt self table_image page_dim
                      table_item table_bbox pdf_w pdf_h)) = false)
  /\ (forall (self : DocumentEnhancer Image Detector) (document : Doc.Document),
         _models_loaded (ocr_enhancer self) = false ->
         exists outcome self',
           process_conversion_result U pil rt self (Some document)
           = (outcome, Some document, self')
           /\ _models_loaded (ocr_enhancer self') = false
           /\ (geometry_ok U pil self document -> outcome = Ok tt)
           /\ (enable_formula_enhancement self
               || enable_character_encoding_fix self = true ->
               outcome = Ok tt -> geometry_ok U pil self document)
           /\ (forall e, outcome = Raise e ->
                         geometry_raises U pil self document e)).
Proof.
  intros Hn. split; [|split].
  - intros self image bbox old_text math_mode Hl.
    rewrite (extract_text_unloaded Image Detector U pil rt self) by assumption.
    split; [reflexivity|]. apply ensure_loaded_never; assumption.
  - intros self table_image page_dim table_item table_bbox pdf_w pdf_h Hl.
    rewrite (enhance_table_unloaded Image Detector rt self) by assumption.
    split; [reflexivity|]. apply ensure_loaded_never; assumption.
  - intros self document Hl. unfold process_conversion_result.
    destruct (enable_formula_enhancement self
              || enable_character_encoding_fix self) eqn:Ef; cbn [negb].
    + destruct (process_pages_idle Image Detector U pil rt self Hn document
                  (Doc.pages document) (ocr_enhancer self) Hl)
        as (r & ocr' & E & Hi & Hg & Ho & Hb).
      rewrite E. exists r, (set_ocr self ocr'). split; [reflexivity|].
      split; [exact Hi|]. split; [|split].
      * intros H. apply Hg. exact H.
      * intros _ Hr. exact (Ho Hr).
      * intros e Hr. exact (Hb e Hr).
    + exists (Ok tt), self. split; [reflexivity|]. split; [assumption|].
      split; [reflexivity|]. split; [discriminate|discriminate].
Qed.

Lemma broken_never_loads : never_loads Sample.broken.
Proof. right. intros n device. exists ExternalError. reflexivity. Qed.

Lemma sample_geometry_ok :
  geometry_ok Sample.ucd Sample.pil (Sample.enhancer true true)
              (Sample.document 100 100).
Proof.
  intros page_num page image Hin Himg. simpl in Hin.
  destruct Hin as [Heq|[]]. inversion Heq; subst. clear Heq.
  vm_compute in Himg. inversion Himg; subst. clear Himg.
  unfold page_geometry_ok. simpl. split; [|split].
  - intros item [<-|[<-|[]]] _; eexists; vm_compute; reflexivity.
  - intros table bx [].
  - intros table cell [].
Qed.

(** With a runtime whose loading always raises, the sample document goes
    through an enhancer with both flags on and comes back unchanged; the
    document whose cell carries no box comes back unchanged as well, and
    the [AttributeError] that surfaces is that of a conversion. *)
Lemma graceful_degradation_witness :
  (fst (fst (process_conversion_result Sample.ucd Sample.pil Sample.broken
               (Sample.enhancer true true)
               (Some (Sample.document 100 100))))
   = Ok tt
   /\ snd (fst (process_conversion_result Sample.ucd Sample.pil Sample.broken
                  (Sample.enhancer true true)
                  (Some (Sample.document 100 100))))
      = Some (Sample.document 100 100))
  /\ (snd (fst (process_conversion_result Sample.ucd Sample.pil Sample.broken
                  (Sample.enhancer true true)
                  (Some Sample.document_with_bare_cell)))
      = Some Sample.document_with_bare_cell
      /\ geometry_raises Sample.ucd Sample.pil (Sample.enhancer true true)
                         Sample.document_with_bare_cell AttributeError).
Proof.
  split.
  - destruct (proj2 (proj2 (graceful_degradation Sample.Raster unit Sample.ucd
                              Sample.pil Sample.broken broken_never_loads))
                    (Sample.enhancer true true) (Sample.document 100 100)
                    eq_refl)
      as (outcome & self' & E & _ & Hg & _).
    rewrite E. simpl. split; [|reflexivity].
    apply Hg. exact sample_geometry_ok.
  - destruct (proj2 (proj2 (graceful_degradation Sample.Raster unit Sample.ucd
                              Sample.pil Sample.broken broken_never_loads))
                    (Sample.enhancer true true) Sample.document_with_bare_cell
                    eq_refl)
      as (outcome & self' & E & _ & _ & _ & Hb).
    rewrite E. simpl. split; [reflexivity|].
    apply Hb.
    assert (H : fst (fst (process_conversion_result Sample.ucd Sample.pil
                            Sample.broken (Sample.enhancer true true)
                            (Some Sample.document_with_bare_cell)))
                = Raise AttributeError) by (vm_compute; reflexivity).
    rewrite E in H. exact H.
Defined.

(** With both flags on and a runtime that never loads, a table cell that
    calls for recognition and carries no box makes the orchestrator raise
    [AttributeError], and a page of width 0 makes it raise
    [ZeroDivisionError]. *)
Lemma geometry_errors_surface :
  fst (fst (process_conversion_result Sample.ucd Sample.pil Sample.broken
              (Sample.enhancer true true)
              (Some Sample.document_with_bare_cell)))
  = Raise AttributeError
  /\ fst (fst (process_conversion_result Sample.ucd Sample.pil Sample.broken
                 (Sample.enhancer true true)
                 (Some (Sample.document 0 100))))
     = Raise ZeroDivisionError.
Proof. split; vm_compute; reflexivity. Qed.





(** A whole run on the sample document with a runtime that loads: the
    models are loaded at the first region, the line "x2" is recognized
    again, and its text becomes "x". *)
Lemma enhancement_run_example :
  let '(outcome, document, self) :=
    process_conversion_result Sample.ucd Sample.pil Sample.ready
      (Sample.enhancer true true) (Some (Sample.document 100 100)) in
  outcome = Ok tt
  /\ option_map (fun d => map Text.text (Doc.texts d)) document
     = Some [str "x"]
  /\ option_map (fun d => map Text.item (Doc.texts d)) document
     = Some [Text.item Sample.line]
  /\ option_map Doc.pictures document
     = Some (Doc.pictures (Sample.document 100 100))
  /\ _models_loaded (ocr_enhancer self) = true
  /\ attempts (ocr_enhancer self) = 1%nat.
Proof. vm_compute. repeat split. Qed.

(** * Further properties *)

(** ** Coordinate conversion: origins, precedence and errors *)

Lemma get_pixel_bbox_declared (item : Item.t) (bx : BBox.BoundingBox)
      (o : origin_attr) (pdf_w pdf_h : float) (img_w img_h : Z) :
  declared item bx o ->
  get_pixel_bbox item pdf_w pdf_h img_w img_h
  = get_pixel_bbox {| Item.prov := None;
                      Item.bbox :=
                        Some {| BBox.l := BBox.l bx; BBox.t := BBox.t bx;
                                BBox.r := BBox.r bx; BBox.b := BBox.b bx;
                                BBox.coord_origin := o |} |}
                   pdf_w pdf_h img_w img_h.
Proof.
  unfold declared, get_pixel_bbox.
  destruct (first_prov item) as [p|]; intros [Hb ->]; rewrite Hb; reflexivity.
Qed.

(** [X1] An origin name that is none of the five names gets the mirrored
    rule on the x axis and the centre rule on the y axis: the [else]
    branches of [get_pixel_bbox] catch it. *)
Theorem get_pixel_bbox_unknown_origin
        (item : Item.t) (bx : BBox.BoundingBox) (s : string)
        (pdf_w pdf_h : float) (img_w img_h : Z) :
  declared item bx (OStr s) ->
  str_in s origin_names = false ->
  get_pixel_bbox item pdf_w pdf_h img_w img_h
  = (x1 <- scale_mirrored (BBox.r bx) pdf_w img_w ;;
     x2 <- scale_mirrored (BBox.l bx) pdf_w img_w ;;
     cy <- py_truediv (Float pdf_h) (Int 2) ;;
     y1 <- scale_centered cy (BBox.t bx) pdf_h img_h ;;
     y2 <- scale_centered cy (BBox.b bx) pdf_h img_h ;;
     Ok (x1, y1, x2, y2)).
Proof.
  intros Hd Hs. rewrite (get_pixel_bbox_declared _ _ _ _ _ _ _ Hd).
  unfold get_pixel_bbox. simpl.
  unfold str_in, origin_names in Hs. simpl in Hs.
  repeat (apply orb_false_iff in Hs; destruct Hs as [? Hs]).
  unfold str_in. simpl existsb.
  repeat match goal with H : (_ =? _)%string = false |- _ => rewrite H; clear H end.
  simpl.
  destruct (scale_mirrored (BBox.r bx) pdf_w img_w); simpl; [|reflexivity].
  destruct (scale_mirrored (BBox.l bx) pdf_w img_w); simpl; [|reflexivity].
  destruct (scale_centered _ (BBox.t bx) pdf_h img_h); simpl; [|reflexivity].
  destruct (scale_centered _ (BBox.b bx) pdf_h img_h); reflexivity.
Qed.

(** The name "topleft" in lower case is not one of the five: the box
    (0, 0, 100, 50) on a 200 x 100 page is mirrored and centred. *)
Lemma get_pixel_bbox_unknown_origin_witness :
  get_pixel_bbox (Sample.boxed (Sample.box 0 0 100 50 (OStr "topleft")))
                 (double 200) (double 100) 200 100
  = Ok (100, 100, 200, 50).
Proof.
  exact (eq_trans
           (get_pixel_bbox_unknown_origin
              (Sample.boxed (Sample.box 0 0 100 50 (OStr "topleft")))
              (Sample.box 0 0 100 50 (OStr "topleft")) "topleft"
              (double 200) (double 100) 200 100
              (conj eq_refl eq_refl) eq_refl)
           eq_refl).
Defined.

(** [X2] The result of [get_pixel_bbox] depends on the element only
    through the four edges of the box it reads and the origin it reads:
    with provenance these are the box of the first record and the
    [coord_origin] attribute of that record (BOTTOMLEFT when absent), so
    the later records, the element's own box and the origin that the box
    of the record declares play no part. *)
Theorem get_pixel_bbox_depends_on_declared
        (item item' : Item.t) (bx bx' : BBox.BoundingBox) (o : origin_attr)
        (pdf_w pdf_h : float) (img_w img_h : Z) :
  declared item bx o -> declared item' bx' o ->
  BBox.l bx = BBox.l bx' -> BBox.t bx = BBox.t bx' ->
  BBox.r bx = BBox.r bx' -> BBox.b bx = BBox.b bx' ->
  get_pixel_bbox item pdf_w pdf_h img_w img_h
  = get_pixel_bbox item' pdf_w pdf_h img_w img_h.
Proof.
  intros Hd Hd' Hl Ht Hr Hb.
  rewrite (get_pixel_bbox_declared _ _ _ _ _ _ _ Hd).
  rewrite (get_pixel_bbox_declared _ _ _ _ _ _ _ Hd').
  rewrite Hl, Ht, Hr, Hb. reflexivity.
Qed.

(** A record without [coord_origin] whose box declares TOPLEFT, followed
    by a second record, is read as the bare box tagged BOTTOMLEFT. *)
Lemma get_pixel_bbox_depends_on_declared_witness :
  get_pixel_bbox
    {| Item.prov :=
         Some [ {| Prov.page_no := 1;
                   Prov.bbox :=
                     Some (Sample.box 10 90 40 80 (OEnum CoordOrigin.TOPLEFT));
                   Prov.coord_origin := None |};
                {| Prov.page_no := 2; Prov.bbox := None;
                   Prov.coord_origin := None |} ];
       Item.bbox := Some (Sample.box 0 0 1 1 (OEnum CoordOrigin.CENTER)) |}
    (double 100) (double 100) 100 100
  = get_pixel_bbox
      (Sample.boxed (Sample.box 10 90 40 80 (OEnum CoordOrigin.BOTTOMLEFT)))
      (double 100) (double 100) 100 100.
Proof.
  apply (get_pixel_bbox_depends_on_declared
           _ _
           (Sample.box 10 90 40 80 (OEnum CoordOrigin.TOPLEFT))
           (Sample.box 10 90 40 80 (OEnum CoordOrigin.BOTTOMLEFT))
           (OEnum CoordOrigin.BOTTOMLEFT));
    solve [split; reflexivity | reflexivity].
Defined.

(** [X3] [get_pixel_bbox] raises [AttributeError] for an element that has
    neither provenance nor a box, and for one whose first record has no
    box; for an element with a box it raises [ZeroDivisionError] when
    the page width is zero, whatever the origin. *)
Theorem get_pixel_bbox_errors
        (item : Item.t) (pdf_w pdf_h : float) (img_w img_h : Z) :
  (first_prov item = None -> Item.bbox item = None ->
   get_pixel_bbox item pdf_w pdf_h img_w img_h = Raise AttributeError)
  /\ (forall p, first_prov item = Some p -> Prov.bbox p = None ->
                get_pixel_bbox item pdf_w pdf_h img_w img_h
                = Raise AttributeError)
  /\ (forall bx o, declared item bx o -> is_zero pdf_w = true ->
                   get_pixel_bbox item pdf_w pdf_h img_w img_h
                   = Raise ZeroDivisionError).
Proof.
  split; [|split].
  - intros Hp Hb. unfold get_pixel_bbox. rewrite Hp, Hb. reflexivity.
  - intros p Hp Hb. unfold get_pixel_bbox. rewrite Hp, Hb. reflexivity.
  - intros bx o Hd Hz. rewrite (get_pixel_bbox_declared _ _ _ _ _ _ _ Hd).
    assert (Hs : forall v, scale v pdf_w img_w = Raise ZeroDivisionError).
    { intros v. unfold scale, scaled. simpl. rewrite Hz. reflexivity. }
    assert (Hm : forall v, scale_mirrored v pdf_w img_w
                           = Raise ZeroDivisionError).
    { intros v. unfold scale_mirrored. simpl. rewrite Hz. reflexivity. }
    unfold get_pixel_bbox. cbn -[str_in scale scale_mirrored scale_centered].
    rewrite Hs, Hm.
    destruct (str_in (origin_value o) _); reflexivity.
Qed.

(** The sample picture on a page of width 0. *)
Lemma get_pixel_bbox_errors_witness :
  get_pixel_bbox
    (Sample.placed 1 (Sample.box 50 50 90 10 (OEnum CoordOrigin.BOTTOMLEFT)) None)
    (double 0) (double 100) 100 100
  = Raise ZeroDivisionError.
Proof.
  exact (proj2 (proj2 (get_pixel_bbox_errors
                         (Sample.placed 1 (Sample.box 50 50 90 10
                                             (OEnum CoordOrigin.BOTTOMLEFT)) None)
                         (double 0) (double 100) 100 100))
               (Sample.box 50 50 90 10 (OEnum CoordOrigin.BOTTOMLEFT))
               (OEnum CoordOrigin.BOTTOMLEFT)
               (conj eq_refl eq_refl) eq_refl).
Defined.

(** ** Overlap ratio: containment and translation *)

Lemma overlap_ratio_inside (inner outer : pixel_box) :
  inside inner outer ->
  calculate_overlap_ratio inner outer = Ok (Float f_1_0).
Proof.
  destruct inner as [[[x1 y1] x2] y2], outer as [[[u1 v1] u2] v2].
  intros (Hx & Hy & H1 & H2 & H3 & H4).
  rewrite calculate_overlap_ratio_unfold.
  assert (Hi : Spec.intersection (x1, y1, x2, y2) (u1, v1, u2, v2)
               = Spec.area (x1, y1, x2, y2)).
  { unfold Spec.intersection, Spec.area. f_equal; lia. }
  assert (Ha : 0 < Spec.area (x1, y1, x2, y2)) by (unfold Spec.area; nia).
  rewrite Hi. apply Z.ltb_lt in Ha as Ha'. rewrite Ha'.
  unfold py_truediv. rewrite int_true_div_self by assumption. reflexivity.
Qed.

(** [X4] A box of positive width and height that lies inside the other
    box has overlap ratio exactly 1.0 with it, which is above the 0.05
    threshold of the text pass. *)
Theorem calculate_overlap_ratio_inside (inner outer : pixel_box) :
  inside inner outer ->
  calculate_overlap_ratio inner outer = Ok (Float f_1_0)
  /\ occludes inner outer = true.
Proof.
  intros H. split; [apply overlap_ratio_inside; assumption|].
  unfold occludes. rewrite (overlap_ratio_inside _ _ H). reflexivity.
Qed.

(** A 30 x 10 box inside a 100 x 100 box. *)
Lemma calculate_overlap_ratio_inside_witness :
  calculate_overlap_ratio (10, 10, 40, 20) (0, 0, 100, 100) = Ok (Float f_1_0)
  /\ occludes (10, 10, 40, 20) (0, 0, 100, 100) = true.
Proof.
  apply (calculate_overlap_ratio_inside (10, 10, 40, 20) (0, 0, 100, 100)).
  simpl. lia.
Defined.

(** [X5] Moving both boxes by the same offset does not change their
    overlap ratio. *)
Theorem calculate_overlap_ratio_shift (dx dy : Z) (boxA boxB : pixel_box) :
  calculate_overlap_ratio (shift dx dy boxA) (shift dx dy boxB)
  = calculate_overlap_ratio boxA boxB.
Proof.
  rewrite !calculate_overlap_ratio_unfold.
  destruct boxA as [[[a0 a1] a2] a3], boxB as [[[b0 b1] b2] b3].
  assert (Hi : Spec.intersection (shift dx dy (a0, a1, a2, a3))
                                 (shift dx dy (b0, b1, b2, b3))
               = Spec.intersection (a0, a1, a2, a3) (b0, b1, b2, b3)).
  { unfold Spec.intersection, shift. f_equal; lia. }
  assert (Ha : Spec.area (shift dx dy (a0, a1, a2, a3))
               = Spec.area (a0, a1, a2, a3)).
  { unfold Spec.area, shift. f_equal; lia. }
  rewrite Hi, Ha. reflexivity.
Qed.

(** ** Table structure: what a prediction can change *)

Lemma float_of_int_4 :
  float_of_int 4 = Ok (S754_finite false 4503599627370496 (-50)).
Proof. reflexivity. Qed.

Lemma update_cell_bbox_outcome
      (cell : Cell.TableCell) (surya_cell : Surya.TableCell)
      (table_bbox : pixel_box) (page_dim : Z * Z) (pdf_w pdf_h : float) :
  match frame_check table_bbox page_dim with
  | Raise e =>
      update_cell_bbox cell surya_cell table_bbox page_dim pdf_w pdf_h = Raise e
  | Ok _ =>
      exists bx,
        update_cell_bbox cell surya_cell table_bbox page_dim pdf_w pdf_h
        = Ok (Cell.set_bbox cell bx)
        /\ BBox.coord_origin bx = OEnum CoordOrigin.TOPLEFT
  end.
Proof.
  destruct table_bbox as [[[tx1 ty1] tx2] ty2], page_dim as [img_w img_h].
  unfold frame_check, update_cell_bbox.
  destruct (Surya.bbox surya_cell) as [[[cx1 cy1] cx2] cy2].
  unfold py_add, py_sub, py_mul, py_truediv, arith, to_float.
  rewrite float_of_int_4.
  destruct (float_of_int tx1) as [fx|e]; simpl; [|reflexivity].
  destruct (float_of_int ty1) as [fy|e]; simpl; [|reflexivity].
  destruct (float_of_int img_w) as [fw|e]; simpl; [|reflexivity].
  destruct (is_zero fw); simpl; [reflexivity|].
  destruct (float_of_int img_h) as [fh|e]; simpl; [|reflexivity].
  destruct (is_zero fh); simpl; [reflexivity|].
  eexists. split; reflexivity.
Qed.

(** [X6] Whether [update_cell_bbox] raises depends on the corner of the
    table and the size of the image only, never on the cell or on the
    predicted box: it raises what the conversion of that frame raises
    ([ZeroDivisionError] for an image of width or height 0), and
    otherwise stores a TOPLEFT box.  So when it succeeds for one cell of
    a table it succeeds for every cell. *)
Theorem update_cell_bbox_fails_on_frame_only
        (cell : Cell.TableCell) (surya_cell : Surya.TableCell)
        (table_bbox : pixel_box) (page_dim : Z * Z) (pdf_w pdf_h : float) :
  (forall e, frame_check table_bbox page_dim = Raise e ->
             update_cell_bbox cell surya_cell table_bbox page_dim pdf_w pdf_h
             = Raise e)
  /\ (frame_check table_bbox page_dim = Ok tt ->
      exists bx,
        update_cell_bbox cell surya_cell table_bbox page_dim pdf_w pdf_h
        = Ok (Cell.set_bbox cell bx)
        /\ BBox.coord_origin bx = OEnum CoordOrigin.TOPLEFT)
  /\ (forall cell' other other_prediction,
         update_cell_bbox cell surya_cell table_bbox page_dim pdf_w pdf_h
         = Ok cell' ->
         exists other',
           update_cell_bbox other other_prediction table_bbox page_dim
                            pdf_w pdf_h = Ok other')
  /\ (forall tx1 ty1 tx2 ty2 img_h fx fy,
         table_bbox = (tx1, ty1, tx2, ty2) -> page_dim = (0, img_h) ->
         float_of_int tx1 = Ok fx -> float_of_int ty1 = Ok fy ->
         update_cell_bbox cell surya_cell table_bbox page_dim pdf_w pdf_h
         = Raise ZeroDivisionError).
Proof.
  assert (H := update_cell_bbox_outcome cell surya_cell table_bbox page_dim
                                        pdf_w pdf_h).
  split; [|split; [|split]].
  - intros e He. rewrite He in H. exact H.
  - intros He. rewrite He in H. exact H.
  - intros cell' other other_prediction Hok.
    assert (H' := update_cell_bbox_outcome other other_prediction table_bbox
                                           page_dim pdf_w pdf_h).
    destruct (frame_check table_bbox page_dim) as [[]|e].
    + destruct H' as (bx & -> & _). eauto.
    + congruence.
  - intros tx1 ty1 tx2 ty2 img_h fx fy -> -> Hx Hy.
    unfold frame_check in H. rewrite Hx, Hy in H. exact H.
Qed.

(** The sample cell in a table at (100, 200) on an image of width 0. *)
Lemma update_cell_bbox_fails_on_frame_only_witness :
  update_cell_bbox Sample.stale_cell Sample.predicted_cell
                   (100, 200, 300, 400) (0, 1000) (double 500) (double 500)
  = Raise ZeroDivisionError.
Proof.
  exact (proj2 (proj2 (proj2
           (update_cell_bbox_fails_on_frame_only
              Sample.stale_cell Sample.predicted_cell (100, 200, 300, 400)
              (0, 1000) (double 500) (double 500))))
           100 200 300 400 1000 (double 100) (double 200)
           eq_refl eq_refl eq_refl eq_refl).
Defined.

Lemma surya_cell_dict_Some (cells : list Surya.TableCell) (row col : Z)
      (c : Surya.TableCell) :
  surya_cell_dict cells row col = Some c ->
  In c cells /\ Surya.row_id c = row /\ Surya.col_id c = col.
Proof.
  unfold surya_cell_dict. intros H. apply find_some in H.
  destruct H as [Hin Hk]. apply in_rev in Hin.
  apply andb_true_iff in Hk. destruct Hk as [Hr Hc].
  apply Z.eqb_eq in Hr. apply Z.eqb_eq in Hc. auto.
Qed.

Lemma find_app_skip {A : Type} (f : A -> bool) (l1 l2 : list A) :
  (forall d, In d l1 -> f d = false) -> find f (l1 ++ l2) = find f l2.
Proof.
  induction l1 as [|d l1 IH]; intros H; simpl; [reflexivity|].
  rewrite (H d (or_introl eq_refl)). apply IH.
  intros d' Hd. apply H. right; assumption.
Qed.

(** [X7] The dict of predicted cells is keyed by (row, column): a lookup
    returns a predicted cell with that key, and none only when no
    predicted cell has it; when several predicted cells share a key, the
    one that comes last is used. *)
Theorem surya_cell_dict_lookup (cells : list Surya.TableCell) (row col : Z) :
  (forall c, surya_cell_dict cells row col = Some c ->
             In c cells /\ Surya.row_id c = row /\ Surya.col_id c = col)
  /\ (surya_cell_dict cells row col = None <->
      forall c, In c cells ->
                ~ (Surya.row_id c = row /\ Surya.col_id c = col))
  /\ (forall c later,
         Surya.row_id c = row -> Surya.col_id c = col ->
         (forall d, In d later ->
                    ~ (Surya.row_id d = row /\ Surya.col_id d = col)) ->
         surya_cell_dict (cells ++ c :: later) row col = Some c).
Proof.
  split; [|split].
  - apply surya_cell_dict_Some.
  - unfold surya_cell_dict. split.
    + intros H c Hin [Hr Hc].
      assert (Hf := find_none _ _ H c (proj1 (in_rev cells c) Hin)).
      simpl in Hf. subst. rewrite !Z.eqb_refl in Hf. discriminate.
    + intros H.
      destruct (find _ (rev cells)) as [c|] eqn:E; [|reflexivity].
      exfalso. destruct (surya_cell_dict_Some cells row col c E) as (Hin & Hk).
      exact (H c Hin Hk).
  - intros c later Hr Hc Hlater. unfold surya_cell_dict.
    rewrite rev_app_distr. simpl rev. rewrite <- app_assoc.
    rewrite find_app_skip.
    + simpl. rewrite Hr, Hc, !Z.eqb_refl. reflexivity.
    + intros d Hd. apply in_rev in Hd.
      destruct ((Surya.row_id d =? row) && (Surya.col_id d =? col)) eqn:E;
        [|reflexivity].
      exfalso. apply andb_true_iff in E. destruct E as [E1 E2].
      apply Z.eqb_eq in E1. apply Z.eqb_eq in E2. exact (Hlater d Hd (conj E1 E2)).
Qed.

(** Two predicted cells for row 0, column 0: the second is used. *)
Lemma surya_cell_dict_lookup_witness :
  surya_cell_dict
    ([ {| Surya.row_id := 0; Surya.col_id := 0;
          Surya.bbox := (double 1, double 1, double 2, double 2) |} ]
     ++ [ Sample.predicted_cell ]) 0 0
  = Some Sample.predicted_cell.
Proof.
  refine (proj2 (proj2 (surya_cell_dict_lookup _ 0 0))
                Sample.predicted_cell [] eq_refl eq_refl _).
  intros d [].
Defined.

Lemma cell_enhanced_refl (c : Cell.TableCell) : cell_enhanced c c.
Proof. unfold cell_enhanced. auto. Qed.

Lemma Forall2_refl {A : Type} (R : A -> A -> Prop) (xs : list A) :
  (forall x, R x x) -> Forall2 R xs xs.
Proof. intros H. induction xs; constructor; auto. Qed.

Lemma update_cell_bbox_Ok
      (cell cell' : Cell.TableCell) (surya_cell : Surya.TableCell)
      (table_bbox : pixel_box) (page_dim : Z * Z) (pdf_w pdf_h : float) :
  update_cell_bbox cell surya_cell table_bbox page_dim pdf_w pdf_h = Ok cell' ->
  frame_check table_bbox page_dim = Ok tt
  /\ exists bx, cell' = Cell.set_bbox cell bx
                /\ BBox.coord_origin bx = OEnum CoordOrigin.TOPLEFT.
Proof.
  intros H.
  assert (Ho := update_cell_bbox_outcome cell surya_cell table_bbox page_dim
                                         pdf_w pdf_h).
  destruct (frame_check table_bbox page_dim) as [[]|e]; [|congruence].
  split; [reflexivity|]. destruct Ho as (bx & E & Hbx).
  exists bx. split; [congruence|assumption].
Qed.

Section UpdateCells.
Variable predicted : list Surya.TableCell.
Variable table_bbox : pixel_box.
Variable page_dim : Z * Z.
Variables pdf_w pdf_h : float.

Lemma update_cells_enhanced (cells : list Cell.TableCell) :
  Forall2 (fun c c' =>
             cell_enhanced c c' /\ Cell.text c' = Cell.text c
             /\ (surya_cell_dict predicted (Cell.start_row_offset_idx c)
                                 (Cell.start_col_offset_idx c) = None ->
                 c' = c))
          cells
          (update_cells predicted table_bbox page_dim pdf_w pdf_h cells).
Proof.
  induction cells as [|cell rest IH]; simpl; [constructor|].
  destruct (surya_cell_dict predicted (Cell.start_row_offset_idx cell)
                            (Cell.start_col_offset_idx cell))
    as [surya_cell|] eqn:Ed.
  - destruct (update_cell_bbox cell surya_cell table_bbox page_dim
                               pdf_w pdf_h) as [cell'|e] eqn:Eu.
    + constructor; [|exact IH].
      destruct (update_cell_bbox_Ok _ _ _ _ _ _ _ Eu) as (_ & bx & -> & Hbx).
      split; [|split; [reflexivity|intros Hn; congruence]].
      unfold cell_enhanced. simpl. repeat split; auto.
      right. exists bx. auto.
    + apply Forall2_refl. intros c.
      split; [apply cell_enhanced_refl|auto].
  - constructor; [|exact IH].
    split; [apply cell_enhanced_refl|auto].
Qed.

Lemma update_cells_frame_raises (cells : list Cell.TableCell) (e : exn) :
  frame_check table_bbox page_dim = Raise e ->
  update_cells predicted table_bbox page_dim pdf_w pdf_h cells = cells.
Proof.
  intros Hf. induction cells as [|cell rest IH]; simpl; [reflexivity|].
  destruct (surya_cell_dict predicted _ _) as [surya_cell|].
  - assert (Ho := update_cell_bbox_outcome cell surya_cell table_bbox
                                           page_dim pdf_w pdf_h).
    rewrite Hf in Ho. rewrite Ho. reflexivity.
  - rewrite IH. reflexivity.
Qed.

Lemma update_cells_frame_ok (cells : list Cell.TableCell) :
  frame_check table_bbox page_dim = Ok tt ->
  Forall2 (fun c c' =>
             forall surya_cell,
               surya_cell_dict predicted (Cell.start_row_offset_idx c)
                               (Cell.start_col_offset_idx c)
               = Some surya_cell ->
               update_cell_bbox c surya_cell table_bbox page_dim pdf_w pdf_h
               = Ok c')
          cells
          (update_cells predicted table_bbox page_dim pdf_w pdf_h cells).
Proof.
  intros Hf. induction cells as [|cell rest IH]; simpl; [constructor|].
  destruct (surya_cell_dict predicted _ _) as [surya_cell|] eqn:Ed.
  - assert (Ho := update_cell_bbox_outcome cell surya_cell table_bbox
                                           page_dim pdf_w pdf_h).
    rewrite Hf in Ho. destruct Ho as (bx & Eu & _). rewrite Eu.
    constructor; [|exact IH]. intros sc Hsc. congruence.
  - constructor; [|exact IH]. intros sc Hsc. congruence.
Qed.
End UpdateCells.

Section TablePass.
Variable Image : Type.
Variable Detector : Type.
Variable rt : Runtime Image Detector.

Lemma enhance_table_structure_cells
      (self : OCREnhancer Image Detector) (table_image : Image)
      (page_dim : Z * Z) (table_item : Table.TableItem)
      (table_bbox : pixel_box) (pdf_w pdf_h : float) :
  Table.item (fst (enhance_table_structure rt self table_image page_dim
                     table_item table_bbox pdf_w pdf_h))
  = Table.item table_item
  /\ Forall2 (fun c c' => cell_enhanced c c' /\ Cell.text c' = Cell.text c)
             (Table.table_cells table_item)
             (Table.table_cells
                (fst (enhance_table_structure rt self table_image page_dim
                        table_item table_bbox pdf_w pdf_h))).
Proof.
  assert (Hsame : Forall2 (fun c c' => cell_enhanced c c'
                                       /\ Cell.text c' = Cell.text c)
                          (Table.table_cells table_item)
                          (Table.table_cells table_item)).
  { apply Forall2_refl. intros c. split; [apply cell_enhanced_refl|auto]. }
  unfold enhance_table_structure.
  destruct (negb (_models_loaded (ensure_loaded rt self)));
    [simpl; auto|].
  destruct (predictor <- callable (_table_rec_predictor (ensure_loaded rt self)) ;;
            predictor table_image) as [[|surya_table more]|e];
    simpl; auto.
  split; [reflexivity|].
  eapply Forall2_impl; [|apply update_cells_enhanced].
  intros c c' (H1 & H2 & _). auto.
Qed.

Lemma enhance_table_structure_state
      (self : OCREnhancer Image Detector) (table_image : Image)
      (page_dim : Z * Z) (table_item : Table.TableItem)
      (table_bbox : pixel_box) (pdf_w pdf_h : float) :
  snd (enhance_table_structure rt self table_image page_dim table_item
                               table_bbox pdf_w pdf_h)
  = ensure_loaded rt self.
Proof.
  unfold enhance_table_structure.
  destruct (negb (_models_loaded (ensure_loaded rt self)));
    [reflexivity|].
  destruct (predictor <- callable (_table_rec_predictor
                                     (ensure_loaded rt self)) ;;
            predictor table_image) as [[|surya_table more]|e]; reflexivity.
Qed.

(** [X8] Whatever the model does, [enhance_table_structure] keeps the
    table's own geometry, the number and the order of its cells, and the
    row, the column and the text of each cell; the box of a cell is kept
    or replaced by a box tagged TOPLEFT. *)
Theorem enhance_table_structure_keeps_cells
        (self : OCREnhancer Image Detector) (table_image : Image)
        (page_dim : Z * Z) (table_item : Table.TableItem)
        (table_bbox : pixel_box) (pdf_w pdf_h : float) :
  let table' :=
    fst (enhance_table_structure rt self table_image page_dim table_item
                                 table_bbox pdf_w pdf_h) in
  Table.item table' = Table.item table_item
  /\ Forall2 (fun c c' => cell_enhanced c c' /\ Cell.text c' = Cell.text c)
             (Table.table_cells table_item) (Table.table_cells table').
Proof. cbv zeta. apply enhance_table_structure_cells. Qed.

(** [X9] With the models loaded and a prediction returned, a cell with
    no predicted cell at its (row, column) is left as it is; when the
    frame of the table converts, every cell with a predicted cell gets
    the box that [update_cell_bbox] computes from it; when it does not,
    the exception is swallowed and the table is left as it is. *)
Theorem enhance_table_structure_matching
        (self : OCREnhancer Image Detector) (table_image : Image)
        (page_dim : Z * Z) (table_item : Table.TableItem)
        (table_bbox : pixel_box) (pdf_w pdf_h : float)
        (predictor : TableRecPredictor Image)
        (surya_table : Ocr.TableResult) (more : list Ocr.TableResult) :
  _models_loaded self = true ->
  _table_rec_predictor self = Some predictor ->
  predictor table_image = Ok (surya_table :: more) ->
  let table' :=
    fst (enhance_table_structure rt self table_image page_dim table_item
                                 table_bbox pdf_w pdf_h) in
  let prediction (c : Cell.TableCell) :=
    surya_cell_dict (Ocr.cells surya_table) (Cell.start_row_offset_idx c)
                    (Cell.start_col_offset_idx c) in
  Forall2 (fun c c' => prediction c = None -> c' = c)
          (Table.table_cells table_item) (Table.table_cells table')
  /\ (frame_check table_bbox page_dim = Ok tt ->
      Forall2 (fun c c' =>
                 forall surya_cell,
                   prediction c = Some surya_cell ->
                   update_cell_bbox c surya_cell table_bbox page_dim
                                    pdf_w pdf_h = Ok c')
              (Table.table_cells table_item) (Table.table_cells table'))
  /\ (forall e, frame_check table_bbox page_dim = Raise e ->
                table' = table_item).
Proof.
  intros Hl Hp Hr table' prediction.
  assert (Et : table' =
               Table.set_cells table_item
                 (update_cells (Ocr.cells surya_table) table_bbox page_dim
                               pdf_w pdf_h (Table.table_cells table_item))).
  { unfold table', enhance_table_structure.
    rewrite (ensure_loaded_when_loaded Image Detector rt self Hl), Hl, Hp.
    simpl. rewrite Hr. reflexivity. }
  rewrite Et. simpl. split; [|split].
  - eapply Forall2_impl; [|apply update_cells_enhanced].
    intros c c' (_ & _ & H). exact H.
  - intros Hf. apply update_cells_frame_ok. assumption.
  - intros e Hf. rewrite (update_cells_frame_raises _ _ _ _ _ _ e Hf).
    apply set_cells_same.
Qed.

(** [X10] With the models loaded, [enhance_table_structure] returns the
    table and the adapter as they were when the table recognizer is
    missing, when it raises, and when it returns no prediction. *)
Theorem enhance_table_structure_swallows_errors
        (self : OCREnhancer Image Detector) (table_image : Image)
        (page_dim : Z * Z) (table_item : Table.TableItem)
        (table_bbox : pixel_box) (pdf_w pdf_h : float) :
  _models_loaded self = true ->
  (_table_rec_predictor self = None
   \/ (exists predictor,
          _table_rec_predictor self = Some predictor
          /\ ((exists e, predictor table_image = Raise e)
              \/ predictor table_image = Ok []))) ->
  enhance_table_structure rt self table_image page_dim table_item
                          table_bbox pdf_w pdf_h
  = (table_item, self).
Proof.
  intros Hl H. unfold enhance_table_structure.
  rewrite (ensure_loaded_when_loaded Image Detector rt self Hl), Hl. simpl.
  destruct H as [-> | (predictor & -> & [[e Hp] | Hp])];
    simpl; rewrite ?Hp; reflexivity.
Qed.
End TablePass.

(** The sample table on an image of width 0: the prediction is dropped. *)
Lemma enhance_table_structure_matching_witness :
  fst (enhance_table_structure Fixture.flaky Fixture.adapter
         (Sample.Blank 200 200) (0, 1000) Fixture.table
         (100, 200, 300, 400) (double 500) (double 500))
  = Fixture.table.
Proof.
  exact (proj2 (proj2
           (enhance_table_structure_matching
              Sample.Raster unit Fixture.flaky Fixture.adapter
              (Sample.Blank 200 200) (0, 1000) Fixture.table
              (100, 200, 300, 400) (double 500) (double 500)
              Fixture.table_recognizer
              {| Ocr.cells := [ Sample.predicted_cell ] |} []
              eq_refl eq_refl eq_refl))
           ZeroDivisionError eq_refl).
Defined.

Lemma enhance_table_structure_swallows_errors_witness :
  enhance_table_structure Sample.ready Sample.loaded (Sample.Blank 200 200)
                          (1000, 1000) Fixture.table (100, 200, 300, 400)
                          (double 500) (double 500)
  = (Fixture.table, Sample.loaded).
Proof.
  exact (enhance_table_structure_swallows_errors
           Sample.Raster unit Sample.ready Sample.loaded
           (Sample.Blank 200 200) (1000, 1000) Fixture.table
           (100, 200, 300, 400) (double 500) (double 500)
           eq_refl (or_introl eq_refl)).
Defined.

Section StripTwice.
Variable U : UnicodeData.

Lemma lstrip_fixed (s : pystr) :
  (forall c rest, s = c :: rest -> isspace U c = false) -> lstrip U s = s.
Proof.
  destruct s as [|c rest]; [reflexivity|].
  intros H. simpl. rewrite (H c rest eq_refl). reflexivity.
Qed.

Lemma lstrip_lstrip (s : pystr) : lstrip U (lstrip U s) = lstrip U s.
Proof.
  apply lstrip_fixed. intros c rest H. exact (lstrip_head U s c rest H).
Qed.

Lemma lstrip_suffix (s : pystr) : exists pre, s = pre ++ lstrip U s.
Proof.
  induction s as [|c s [pre IH]]; simpl; [exists []; reflexivity|].
  destruct (isspace U c).
  - exists (c :: pre). simpl. rewrite <- IH. reflexivity.
  - exists []. reflexivity.
Qed.

Lemma rstrip_rstrip (s : pystr) : rstrip U (rstrip U s) = rstrip U s.
Proof.
  unfold rstrip. rewrite rev_involutive, lstrip_lstrip. reflexivity.
Qed.

(** Stripping on the right keeps a first character that is no space. *)
Lemma rstrip_head (c : Z) (rest : pystr) :
  isspace U c = false -> exists rest', rstrip U (c :: rest) = c :: rest'.
Proof.
  intros Hc. unfold rstrip. simpl rev.
  destruct (lstrip_suffix (rev rest ++ [c])) as [pre Hpre].
  assert (Hne := lstrip_app_nonspace U (rev rest) c Hc).
  assert (E : c :: rest
              = rev (lstrip U (rev rest ++ [c])) ++ rev pre).
  { rewrite <- rev_app_distr, <- Hpre, rev_app_distr, rev_involutive.
    reflexivity. }
  destruct (rev (lstrip U (rev rest ++ [c]))) as [|d rest'] eqn:Er.
  - exfalso. apply Hne.
    rewrite <- (rev_involutive (lstrip U (rev rest ++ [c]))), Er.
    reflexivity.
  - simpl in E. inversion E; subst. exists rest'. reflexivity.
Qed.

Lemma strip_strip (s : pystr) : strip U (strip U s) = strip U s.
Proof.
  unfold strip.
  assert (Hl : lstrip U (rstrip U (lstrip U s)) = rstrip U (lstrip U s)).
  { destruct (lstrip U s) as [|c rest] eqn:El; [reflexivity|].
    destruct (rstrip_head c rest (lstrip_head U s c rest El)) as [rest' ->].
    simpl. rewrite (lstrip_head U s c rest El). reflexivity. }
  rewrite Hl. apply rstrip_rstrip.
Qed.
End StripTwice.

Section RegionPass.
Variable Image : Type.
Variable Detector : Type.
Variable U : UnicodeData.
Variable pil : Imaging Image.
Variable rt : Runtime Image Detector.

Lemma recognize_region_result
      (self : OCREnhancer Image Detector) (image : Image) (bbox : pixel_box)
      (old_text : pystr) (math_mode : bool) (out : pystr) :
  recognize_region U pil self image bbox old_text math_mode = Ok out ->
  out = old_text \/ (out <> [] /\ strip U out = out).
Proof.
  unfold recognize_region. intros H.
  destruct (padded_region pil image bbox) as [background|e];
    [|discriminate].
  cbn [bind] in H.
  destruct (_recognition_predictor self) as [predictor|]; [|discriminate].
  cbn [callable bind] in H.
  destruct (predictor background (_detection_predictor self) math_mode)
    as [predictions|e]; [|discriminate].
  cbn [bind] in H. injection H as <-.
  destruct (strip U (join_space (high_confidence_lines predictions)))
    as [|c rest] eqn:Es; simpl; [left; reflexivity|].
  right. split; [discriminate|]. rewrite <- Es. apply strip_strip.
Qed.

(** [X11] [extract_text_from_region] returns the caller's text or a
    text that is not empty and has no whitespace at either end: it
    never replaces a text by an empty or a blank one. *)
Theorem extract_text_from_region_never_blank
        (self : OCREnhancer Image Detector) (image : Image)
        (bbox : pixel_box) (old_text : pystr) (math_mode : bool) :
  let out := fst (extract_text_from_region U pil rt self image bbox
                                           old_text math_mode) in
  out = old_text
  \/ (out <> [] /\ strip U out = out
      /\ Exists (fun c => isspace U c = false) out).
Proof.
  unfold extract_text_from_region.
  destruct (negb (_models_loaded (ensure_loaded rt self)));
    [left; reflexivity|].
  destruct (recognize_region U pil (ensure_loaded rt self) image bbox
                             old_text math_mode) as [out|e] eqn:Er;
    [|left; reflexivity].
  simpl.
  destruct (recognize_region_result _ _ _ _ _ _ Er) as [->|[Hne Hs]];
    [left; reflexivity|].
  right. repeat split; auto.
  apply Exists_exists.
  destruct (Forall_Exists_dec (fun c => isspace U c = true)
              (fun c => bool_dec (isspace U c) true) out) as [Hall|Hex].
  - exfalso. apply Hne. rewrite <- Hs. apply strip_nil_iff. assumption.
  - apply Exists_exists in Hex. destruct Hex as (c & Hin & Hc).
    exists c. split; [assumption|].
    destruct (isspace U c); [exfalso; apply Hc; reflexivity|reflexivity].
Qed.

(** [X12] With the models loaded, [extract_text_from_region] returns
    the caller's text and the adapter as they were when the crop or the
    canvas raises, when the recognizer is missing, and when the
    recognizer raises. *)
Theorem extract_text_from_region_swallows_errors
        (self : OCREnhancer Image Detector) (image : Image)
        (bbox : pixel_box) (old_text : pystr) (math_mode : bool) :
  _models_loaded self = true ->
  ((exists e, padded_region pil image bbox = Raise e)
   \/ _recognition_predictor self = None
   \/ (exists background predictor e,
          padded_region pil image bbox = Ok background
          /\ _recognition_predictor self = Some predictor
          /\ predictor background (_detection_predictor self) math_mode
             = Raise e)) ->
  extract_text_from_region U pil rt self image bbox old_text math_mode
  = (old_text, self).
Proof.
  intros Hl H. unfold extract_text_from_region.
  rewrite (ensure_loaded_when_loaded Image Detector rt self Hl), Hl.
  cbn [negb]. unfold recognize_region.
  destruct H as [[e ->] | [Hn | (background & predictor & e & -> & -> & Hp)]].
  - reflexivity.
  - rewrite Hn.
    destruct (padded_region pil image bbox); reflexivity.
  - cbn [bind callable]. rewrite Hp. reflexivity.
Qed.

Lemma extract_text_from_region_state
      (self : OCREnhancer Image Detector) (image : Image)
      (bbox : pixel_box) (old_text : pystr) (math_mode : bool) :
  snd (extract_text_from_region U pil rt self image bbox old_text math_mode)
  = ensure_loaded rt self.
Proof.
  unfold extract_text_from_region.
  destruct (negb (_models_loaded (ensure_loaded rt self)));
    [reflexivity|].
  destruct (recognize_region U pil (ensure_loaded rt self) image bbox
                             old_text math_mode); reflexivity.
Qed.

(** [X13] What either entry point of the adapter does to the adapter
    is the load attempt of its first lines and nothing else: the state
    returned does not depend on the image, the region, the text or the
    table, nor on what the recognizers answer. *)
Theorem adapter_state_after_call
        (self : OCREnhancer Image Detector) (image : Image)
        (bbox : pixel_box) (old_text : pystr) (math_mode : bool)
        (page_dim : Z * Z) (table_item : Table.TableItem)
        (table_bbox : pixel_box) (pdf_w pdf_h : float) :
  snd (extract_text_from_region U pil rt self image bbox old_text math_mode)
  = uses rt 1 self
  /\ snd (enhance_table_structure rt self image page_dim table_item
                                  table_bbox pdf_w pdf_h)
     = uses rt 1 self.
Proof.
  split.
  - apply extract_text_from_region_state.
  - apply enhance_table_structure_state.
Qed.

Lemma uses_S (n : nat) (self : OCREnhancer Image Detector) :
  uses rt (S n) self = ensure_loaded rt (uses rt n self).
Proof. reflexivity. Qed.

(** [X14] A failed load is not remembered: while loading raises, every
    use of an idle adapter makes one more attempt; the first attempt
    that succeeds stores its three predictors and its device, and no
    later use loads again. *)
Theorem load_is_retried_until_it_succeeds
        (self : OCREnhancer Image Detector) (k : nat)
        (p : Predictors Image Detector) :
  SURYA_AVAILABLE rt = true ->
  _models_loaded self = false ->
  _models_loading self = false ->
  (forall n, (attempts self <= n < attempts self + k)%nat ->
             exists e, load_predictors rt n (device_of rt n) = Raise e) ->
  load_predictors rt (attempts self + k) (device_of rt (attempts self + k))
  = Ok p ->
  forall m,
    let after := uses rt m self in
    attempts after = (attempts self + Nat.min m (S k))%nat
    /\ _models_loaded after = (k <? m)%nat
    /\ _models_loading after = false
    /\ ((k < m)%nat ->
        _recognition_predictor after = recognition p
        /\ _detection_predictor after = detection p
        /\ _table_rec_predictor after = table_rec p
        /\ _device after = Some (device_of rt (attempts self + k))).
Proof.
  intros Ha Hl Hg Hfail Hok m.
  induction m as [|m IH].
  - cbn [uses Nat.iter nat_rect Nat.min]. rewrite Nat.add_0_r.
    split; [reflexivity|]. split; [assumption|]. split; [assumption|].
    intros H. inversion H.
  - cbn zeta in IH |- *. rewrite uses_S.
    destruct IH as (IHa & IHl & IHg & IHp).
    destruct (Nat.ltb_spec k m) as [Hkm|Hmk].
    + rewrite (ensure_loaded_when_loaded Image Detector rt _ IHl).
      assert (Hk : (k <? S m)%nat = true) by (apply Nat.ltb_lt; lia).
      rewrite Hk, IHa, IHl, IHg.
      replace (Nat.min (S m) (S k)) with (Nat.min m (S k)) by lia.
      split; [reflexivity|]. split; [reflexivity|]. split; [reflexivity|].
      intros _. apply IHp. assumption.
    + unfold ensure_loaded, _load_models.
      rewrite IHl, IHg, Ha. cbn [negb orb].
      assert (Hn : attempts (uses rt m self) = (attempts self + m)%nat)
        by (rewrite IHa; f_equal; lia).
      rewrite Hn. fold (device_of rt (attempts self + m)).
      destruct (Nat.eq_dec m k) as [->|Hne].
      * rewrite Hok. cbn [attempts _models_loaded _models_loading _recognition_predictor
             _detection_predictor _table_rec_predictor _device].
        assert (Hk : (k <? S k)%nat = true) by (apply Nat.ltb_lt; lia).
        rewrite Hk.
        split; [f_equal; lia|]. split; [reflexivity|]. split; [reflexivity|].
        intros _. repeat split; reflexivity.
      * destruct (Hfail (attempts self + m)%nat) as [e He]; [lia|].
        rewrite He. cbn [attempts _models_loaded _models_loading _recognition_predictor
             _detection_predictor _table_rec_predictor _device].
        assert (Hk : (k <? S m)%nat = false) by (apply Nat.ltb_ge; lia).
        rewrite Hk.
        split; [f_equal; lia|]. split; [reflexivity|]. split; [reflexivity|].
        intros H. exfalso. lia.
Qed.
End RegionPass.

Lemma extract_text_from_region_swallows_errors_witness :
  extract_text_from_region Sample.ucd Sample.pil Fixture.flaky Fixture.adapter
                           (Sample.Blank 100 100) (10, 10, 40, 20)
                           (str "x2") true
  = (str "x2", Fixture.adapter).
Proof.
  refine (extract_text_from_region_swallows_errors
            Sample.Raster unit Sample.ucd Sample.pil Fixture.flaky
            Fixture.adapter (Sample.Blank 100 100) (10, 10, 40, 20)
            (str "x2") true eq_refl _).
  right. right.
  exists (Sample.Blank 80 40), Fixture.failing_recognizer, ExternalError.
  repeat split.
Defined.

Lemma load_is_retried_until_it_succeeds_witness :
  attempts (uses Fixture.flaky 5 new_OCREnhancer) = 2%nat
  /\ _models_loaded (uses Fixture.flaky 5 new_OCREnhancer) = true.
Proof.
  refine ((fun H => conj (proj1 H) (proj1 (proj2 H)))
            (load_is_retried_until_it_succeeds
               Sample.Raster unit Fixture.flaky new_OCREnhancer 1
               {| recognition := Some Fixture.failing_recognizer;
                  detection := Some tt;
                  table_rec := Some Fixture.table_recognizer |}
               eq_refl eq_refl eq_refl _ eq_refl 5%nat)).
  intros n Hn. exists ExternalError.
  assert (n = 0%nat) as -> by (simpl in Hn; lia). reflexivity.
Defined.

(** ** The pass over the document *)

Lemma Forall2_compose {A : Type} (R Q T : A -> A -> Prop) (xs ys zs : list A) :
  (forall x y z, R x y -> Q y z -> T x z) ->
  Forall2 R xs ys -> Forall2 Q ys zs -> Forall2 T xs zs.
Proof.
  intros H HR. revert zs.
  induction HR as [|x y xs ys Hxy _ IH]; intros zs HQ.
  - inversion HQ. constructor.
  - inversion HQ as [|y' z ys' zs' Hyz Hrest]; subst.
    constructor; [eapply H; eassumption|apply IH; assumption].
Qed.

Lemma for_each_rel {A S : Type} (body : A -> S -> result unit * A * S)
      (R : A -> A -> Prop) (T : S -> S -> Prop) :
  (forall x, R x x) ->
  (forall s, T s s) ->
  (forall a b c, T a b -> T b c -> T a c) ->
  (forall x s, R x (snd (fst (body x s))) /\ T s (snd (body x s))) ->
  forall xs s,
    Forall2 R xs (snd (fst (for_each body xs s)))
    /\ T s (snd (for_each body xs s)).
Proof.
  intros HR HT Htrans Hbody.
  induction xs as [|x xs IH]; intros s; simpl.
  - split; [constructor|apply HT].
  - assert (Hx := Hbody x s).
    destruct (body x s) as [[r x'] s']. simpl in Hx. destruct Hx as [Hx Hs].
    destruct r as [[]|e].
    + assert (Hrest := IH s').
      destruct (for_each body xs s') as [[r2 xs'] s'']. simpl in *.
      destruct Hrest as [Hxs Hs'].
      split; [constructor; assumption|eapply Htrans; eassumption].
    + simpl. split; [|assumption].
      constructor; [assumption|apply Forall2_refl; assumption].
Qed.

Lemma cell_enhanced_trans (a b c : Cell.TableCell) :
  cell_enhanced a b -> cell_enhanced b c -> cell_enhanced a c.
Proof.
  intros (R1 & C1 & T1 & B1) (R2 & C2 & T2 & B2).
  unfold cell_enhanced. repeat split; try congruence.
  - destruct T2 as [T2|T2]; [|right; assumption].
    destruct T1 as [T1|T1]; [left; congruence|right; congruence].
  - destruct B2 as [B2|B2]; [|right; assumption].
    destruct B1 as [B1|(bx & E & Hbx)]; [left; congruence|].
    right. exists bx. split; [congruence|assumption].
Qed.

Section Pass.
Variable Image : Type.
Variable Detector : Type.
Variable U : UnicodeData.
Variable pil : Imaging Image.
Variable rt : Runtime Image Detector.
Variable self : DocumentEnhancer Image Detector.

Lemma uses_add (n m : nat) (ocr : OCREnhancer Image Detector) :
  uses rt n (uses rt m ocr) = uses rt (n + m) ocr.
Proof.
  unfold uses. induction n as [|n IH]; simpl; [reflexivity|].
  rewrite IH. reflexivity.
Qed.

Lemma used_refl (ocr : OCREnhancer Image Detector) : used rt ocr ocr.
Proof. exists 0%nat. reflexivity. Qed.

Lemma used_once (ocr : OCREnhancer Image Detector) :
  used rt ocr (ensure_loaded rt ocr).
Proof. exists 1%nat. reflexivity. Qed.

Lemma used_trans (a b c : OCREnhancer Image Detector) :
  used rt a b -> used rt b c -> used rt a c.
Proof.
  intros [n ->] [m ->]. exists (m + n)%nat. apply uses_add.
Qed.

Lemma uses_loaded (n : nat) (ocr : OCREnhancer Image Detector) :
  _models_loaded ocr = true -> uses rt n ocr = ocr.
Proof.
  intros Hl. unfold uses. induction n as [|n IH]; simpl; [reflexivity|].
  rewrite IH. apply ensure_loaded_when_loaded. assumption.
Qed.

Lemma text_kept_refl (skipped : Item.t -> Prop) (t : Text.TextItem) :
  text_kept U self skipped t t.
Proof. unfold text_kept, text_enhanced. auto. Qed.

Lemma cell_kept_refl (c : Cell.TableCell) : cell_kept U self c c.
Proof. split; [apply cell_enhanced_refl|auto]. Qed.

Lemma table_kept_refl (skipped : Item.t -> Prop) (tb : Table.TableItem) :
  table_kept U self skipped tb tb.
Proof.
  split; [reflexivity|]. split; [|auto].
  apply Forall2_refl, cell_kept_refl.
Qed.

Lemma document_kept_refl (skipped : Item.t -> Prop) (d : Doc.Document) :
  document_kept U self skipped d d.
Proof.
  split; [apply Forall2_refl, text_kept_refl|].
  split; [apply Forall2_refl, table_kept_refl|]. auto.
Qed.

Lemma cell_kept_trans (a b c : Cell.TableCell) :
  cell_kept U self a b -> cell_kept U self b c -> cell_kept U self a c.
Proof.
  intros [E1 K1] [E2 K2]. split; [eapply cell_enhanced_trans; eassumption|].
  intros Hu. unfold unflagged in *.
  rewrite K2; [apply K1; assumption|].
  rewrite (K1 Hu). assumption.
Qed.

(** Two passes in a row: an element skipped by both is skipped by the
    two together. *)
Lemma text_kept_trans (P1 P2 P : Item.t -> Prop) (a b c : Text.TextItem) :
  (forall item, P item -> P1 item /\ P2 item) ->
  text_kept U self P1 a b -> text_kept U self P2 b c ->
  text_kept U self P a c.
Proof.
  intros HP ((I1 & T1) & U1 & S1) ((I2 & T2) & U2 & S2).
  split; [split; [congruence|]|split].
  - destruct T2 as [T2|T2]; [|right; assumption].
    destruct T1 as [T1|T1]; [left; congruence|right; congruence].
  - intros Hu. assert (b = a) as -> by auto. auto.
  - intros Hs. destruct (HP _ Hs) as [H1 H2].
    assert (b = a) as -> by auto. auto.
Qed.

Lemma table_kept_trans (P1 P2 P : Item.t -> Prop) (a b c : Table.TableItem) :
  (forall item, P item -> P1 item /\ P2 item) ->
  table_kept U self P1 a b -> table_kept U self P2 b c ->
  table_kept U self P a c.
Proof.
  intros HP (I1 & C1 & S1) (I2 & C2 & S2).
  split; [congruence|split].
  - eapply Forall2_compose; [|exact C1|exact C2]. apply cell_kept_trans.
  - intros Hs. destruct (HP _ Hs) as [H1 H2].
    assert (b = a) as -> by auto. auto.
Qed.

Lemma document_kept_trans (P1 P2 P : Item.t -> Prop) (a b c : Doc.Document) :
  (forall item, P item -> P1 item /\ P2 item) ->
  document_kept U self P1 a b -> document_kept U self P2 b c ->
  document_kept U self P a c.
Proof.
  intros HP (X1 & B1 & Q1 & F1 & K1 & G1) (X2 & B2 & Q2 & F2 & K2 & G2).
  split; [|split; [|repeat split; congruence]].
  - eapply Forall2_compose; [|exact X1|exact X2].
    intros x y z. apply text_kept_trans. assumption.
  - eapply Forall2_compose; [|exact B1|exact B2].
    intros x y z. apply table_kept_trans. assumption.
Qed.

Lemma recognized_text (ocr : OCREnhancer Image Detector) (image : Image)
      (bbox : pixel_box) (old_text : pystr) (math_mode : bool) :
  used rt ocr (snd (extract_text_from_region U pil rt ocr image bbox
                                             old_text math_mode)).
Proof. rewrite extract_text_from_region_state. apply used_once. Qed.

Lemma process_cell_kept (page_image : Image) (pdf_w pdf_h : float)
      (img_w img_h : Z) (cell : Cell.TableCell)
      (ocr : OCREnhancer Image Detector) :
  cell_kept U self cell
            (snd (fst (process_cell U pil rt self page_image pdf_w pdf_h
                                    img_w img_h cell ocr)))
  /\ used rt ocr (snd (process_cell U pil rt self page_image pdf_w pdf_h
                                    img_w img_h cell ocr)).
Proof.
  unfold process_cell.
  destruct (Needs.any (_should_enhance_text U self (Cell.text cell))) eqn:En;
    [|simpl; split; [apply cell_kept_refl|apply used_refl]].
  destruct (get_pixel_bbox (Cell.item cell) pdf_w pdf_h img_w img_h)
    as [cell_bbox|e];
    [|simpl; split; [apply cell_kept_refl|apply used_refl]].
  assert (Hu := recognized_text ocr page_image cell_bbox (Cell.text cell)
                  (Needs.formula (_should_enhance_text U self
                                                       (Cell.text cell)))).
  destruct (extract_text_from_region U pil rt ocr page_image cell_bbox
              (Cell.text cell)
              (Needs.formula (_should_enhance_text U self (Cell.text cell))))
    as [enhanced_text ocr'].
  simpl in Hu.
  destruct (truthy enhanced_text
            && negb (pystr_eqb enhanced_text (Cell.text cell))) eqn:Ec;
    simpl; (split; [|assumption]); [|apply cell_kept_refl].
  apply andb_true_iff in Ec. destruct Ec as [Ht _].
  split.
  - unfold cell_enhanced. simpl. repeat split; auto.
    right. destruct enhanced_text; [discriminate|discriminate].
  - unfold unflagged. intros Hn. congruence.
Qed.

Lemma process_table_kept (page_num : Z) (page_image : Image)
      (pdf_w pdf_h : float) (img_w img_h : Z) (table : Table.TableItem)
      (ocr : OCREnhancer Image Detector) :
  table_kept U self (fun item => on_page page_num item = false) table
             (snd (fst (process_table U pil rt self page_num page_image
                                      pdf_w pdf_h img_w img_h table ocr)))
  /\ used rt ocr (snd (process_table U pil rt self page_num page_image
                                     pdf_w pdf_h img_w img_h table ocr)).
Proof.
  unfold process_table.
  destruct (on_page page_num (Table.item table)) eqn:Ep;
    [|simpl; split; [apply table_kept_refl|apply used_refl]].
  cbn [negb].
  destruct (get_pixel_bbox (Table.item table) pdf_w pdf_h img_w img_h)
    as [table_bbox|e];
    [|simpl; split; [apply table_kept_refl|apply used_refl]].
  destruct (crop pil page_image table_bbox) as [table_image|e];
    [|simpl; split; [apply table_kept_refl|apply used_refl]].
  assert (Hc := enhance_table_structure_cells Image Detector rt ocr
                  table_image (img_w, img_h) table table_bbox pdf_w pdf_h).
  assert (Hs := enhance_table_structure_state Image Detector rt ocr
                  table_image (img_w, img_h) table table_bbox pdf_w pdf_h).
  destruct (enhance_table_structure rt ocr table_image (img_w, img_h) table
                                    table_bbox pdf_w pdf_h)
    as [table1 ocr1].
  simpl in Hc, Hs. destruct Hc as [Hi Hcells].
  assert (Hloop := for_each_rel
                     (process_cell U pil rt self page_image pdf_w pdf_h
                                   img_w img_h)
                     (cell_kept U self) (used rt)
                     cell_kept_refl used_refl used_trans
                     (process_cell_kept page_image pdf_w pdf_h img_w img_h)
                     (Table.table_cells table1) ocr1).
  destruct (for_each (process_cell U pil rt self page_image pdf_w pdf_h
                                   img_w img_h)
                     (Table.table_cells table1) ocr1)
    as [[res cells] ocr2].
  simpl in Hloop |- *. destruct Hloop as [Hk Hu].
  split.
  - split; [assumption|]. split; [|intros Hs'; congruence].
    eapply Forall2_compose; [|exact Hcells|exact Hk].
    intros x y z [He Ht] Hyz. apply (cell_kept_trans x y z); [|assumption].
    split; [assumption|auto].
  - eapply used_trans; [|exact Hu]. subst ocr1. apply used_once.
Qed.

Lemma process_text_kept (page_num : Z) (page_image : Image)
      (pdf_w pdf_h : float) (img_w img_h : Z) (boxes : list pixel_box)
      (text : Text.TextItem) (ocr : OCREnhancer Image Detector) :
  text_kept U self (fun item => on_page page_num item = false) text
            (snd (fst (process_text U pil rt self page_num page_image
                                    pdf_w pdf_h img_w img_h boxes text ocr)))
  /\ used rt ocr (snd (process_text U pil rt self page_num page_image
                                    pdf_w pdf_h img_w img_h boxes text ocr)).
Proof.
  unfold process_text.
  destruct (on_page page_num (Text.item text)) eqn:Ep;
    [|simpl; split; [apply text_kept_refl|apply used_refl]].
  cbn [negb].
  destruct (get_pixel_bbox (Text.item text) pdf_w pdf_h img_w img_h)
    as [text_bbox|e];
    [|simpl; split; [apply text_kept_refl|apply used_refl]].
  cbn [bind]. rewrite has_overlap_existsb. cbn [bind].
  destruct (existsb (occludes text_bbox) boxes);
    [simpl; split; [apply text_kept_refl|apply used_refl]|].
  destruct (Needs.any (_should_enhance_text U self (Text.text text))) eqn:En;
    [|simpl; split; [apply text_kept_refl|apply used_refl]].
  assert (Hu := recognized_text ocr page_image text_bbox (Text.text text)
                  (Needs.formula (_should_enhance_text U self
                                                       (Text.text text)))).
  destruct (extract_text_from_region U pil rt ocr page_image text_bbox
              (Text.text text)
              (Needs.formula (_should_enhance_text U self (Text.text text))))
    as [enhanced_text ocr'].
  simpl in Hu.
  destruct (truthy enhanced_text
            && negb (pystr_eqb enhanced_text (Text.text text))) eqn:Ec;
    simpl; (split; [|assumption]); [|apply text_kept_refl].
  apply andb_true_iff in Ec. destruct Ec as [Ht _].
  split; [split; [reflexivity|]|split].
  - right. simpl. destruct enhanced_text; discriminate.
  - unfold unflagged. intros Hn. congruence.
  - intros Hs. congruence.
Qed.

Lemma process_page_kept (page : Page.PageItem) (page_image : Image)
      (page_num : Z) (document : Doc.Document)
      (ocr : OCREnhancer Image Detector) :
  document_kept U self (fun item => on_page page_num item = false) document
                (snd (fst (_process_page_elements U pil rt self page
                             page_image page_num document ocr)))
  /\ used rt ocr (snd (_process_page_elements U pil rt self page page_image
                                              page_num document ocr)).
Proof.
  unfold _process_page_elements.
  destruct (size pil page_image) as [img_w img_h].
  destruct (Page.size page) as [pdf_w pdf_h].
  destruct (_collect_non_text_bboxes page_num pdf_w pdf_h img_w img_h
                                     document) as [boxes|e];
    [|simpl; split; [apply document_kept_refl|apply used_refl]].
  unfold _process_tables, _process_text_elements.
  assert (Ht := for_each_rel
                  (process_table U pil rt self page_num page_image
                                 pdf_w pdf_h img_w img_h)
                  (table_kept U self (fun item => on_page page_num item = false))
                  (used rt)
                  (table_kept_refl _) used_refl used_trans
                  (process_table_kept page_num page_image pdf_w pdf_h
                                      img_w img_h)
                  (Doc.tables document) ocr).
  destruct (for_each (process_table U pil rt self page_num page_image
                                    pdf_w pdf_h img_w img_h)
                     (Doc.tables document) ocr) as [[res tables] ocr1].
  simpl in Ht. destruct Ht as [Htables Hu1].
  destruct res as [[]|e].
  - cbn [Doc.texts Doc.set_tables].
    assert (Hx := for_each_rel
                    (process_text U pil rt self page_num page_image
                                  pdf_w pdf_h img_w img_h boxes)
                    (text_kept U self
                               (fun item => on_page page_num item = false))
                    (used rt)
                    (text_kept_refl _) used_refl used_trans
                    (process_text_kept page_num page_image pdf_w pdf_h
                                       img_w img_h boxes)
                    (Doc.texts document) ocr1).
    destruct (for_each (process_text U pil rt self page_num page_image
                                     pdf_w pdf_h img_w img_h boxes)
                       (Doc.texts document) ocr1) as [[res texts] ocr2].
    simpl in Hx |- *. destruct Hx as [Htexts Hu2].
    split; [|eapply used_trans; eassumption].
    unfold document_kept. simpl. repeat split; auto.
  - simpl. split; [|assumption].
    unfold document_kept. simpl. repeat split; auto.
    apply Forall2_refl, text_kept_refl.
Qed.

Lemma off_pages_cons (page_num : Z) (page : Page.PageItem)
      (rest : list (Z * Page.PageItem)) (item : Item.t) :
  off_pages pil ((page_num, page) :: rest) item -> off_pages pil rest item.
Proof.
  intros H n p img Hin. apply H. right. assumption.
Qed.

Lemma process_pages_kept (pages : list (Z * Page.PageItem)) :
  forall (document : Doc.Document) (ocr : OCREnhancer Image Detector),
    document_kept U self (off_pages pil pages) document
                  (snd (fst (process_pages U pil rt self pages document ocr)))
    /\ used rt ocr (snd (process_pages U pil rt self pages document ocr)).
Proof.
  induction pages as [|[page_num page] rest IH]; intros document ocr.
  - simpl. split; [apply document_kept_refl|apply used_refl].
  - cbn [process_pages].
    destruct (_get_page_image pil page) as [page_image|] eqn:Ei.
    + assert (Hp := process_page_kept page (preprocess_image pil page_image)
                      page_num document ocr).
      destruct (_process_page_elements U pil rt self page
                  (preprocess_image pil page_image) page_num document ocr)
        as [[res document1] ocr1].
      simpl in Hp. destruct Hp as [Hk Hu].
      destruct res as [[]|e].
      * destruct (IH document1 ocr1) as [Hk2 Hu2].
        split; [|eapply used_trans; eassumption].
        eapply document_kept_trans; [|exact Hk|exact Hk2].
        intros item Hoff. split.
        -- apply (Hoff page_num page page_image);
             [left; reflexivity|assumption].
        -- eapply off_pages_cons. exact Hoff.
      * simpl. split; [|assumption].
        eapply document_kept_trans;
          [|exact Hk|apply (document_kept_refl (fun _ => True))].
        intros item Hoff. split; [|exact I].
        apply (Hoff page_num page page_image);
          [left; reflexivity|assumption].
    + destruct (IH document ocr) as [Hk Hu].
      split; [|assumption].
      eapply document_kept_trans;
        [|apply (document_kept_refl (fun _ => True))|exact Hk].
      intros item Hoff. split; [exact I|].
      eapply off_pages_cons. exact Hoff.
Qed.
End Pass.

Section Run.
Variable Image : Type.
Variable Detector : Type.
Variable U : UnicodeData.
Variable pil : Imaging Image.
Variable rt : Runtime Image Detector.
Variable self : DocumentEnhancer Image Detector.

Lemma set_ocr_same : set_ocr self (ocr_enhancer self) = self.
Proof. destruct self; reflexivity. Qed.

Lemma document_kept_enhanced (skipped : Item.t -> Prop)
      (d d' : Doc.Document) :
  document_kept U self skipped d d' -> document_enhanced d d'.
Proof.
  intros (Hx & Ht & Hrest). split; [|split; [|exact Hrest]].
  - eapply Forall2_impl; [|exact Hx]. intros t t' (H & _). exact H.
  - eapply Forall2_impl; [|exact Ht]. intros tb tb' (Hi & Hc & _).
    split; [assumption|].
    eapply Forall2_impl; [|exact Hc]. intros c c' (H & _). exact H.
Qed.

(** What [process_conversion_result] leaves of a document and of the
    adapter, whether it returns or raises. *)
Lemma process_conversion_result_kept (document : Doc.Document) :
  exists document',
    snd (fst (process_conversion_result U pil rt self (Some document)))
    = Some document'
    /\ document_kept U self (off_pages pil (Doc.pages document))
                     document document'
    /\ used rt (ocr_enhancer self)
            (ocr_enhancer
               (snd (process_conversion_result U pil rt self
                                               (Some document)))).
Proof.
  unfold process_conversion_result.
  destruct (negb (enable_formula_enhancement self
                  || enable_character_encoding_fix self)).
  - exists document. simpl.
    split; [reflexivity|]. split; [apply document_kept_refl|apply used_refl].
  - destruct (process_pages_kept Image Detector U pil rt self
                (Doc.pages document) document (ocr_enhancer self))
      as [Hk Hu].
    destruct (process_pages U pil rt self (Doc.pages document) document
                            (ocr_enhancer self)) as [[res document'] ocr].
    exists document'. simpl in *. auto.
Qed.

(** [X15] Whether it returns or raises, [process_conversion_result]
    leaves a document with the same pages, pictures, form items and
    key-value items, the same text elements and tables in the same
    order with their provenance and boxes, and the same cells in each
    table with their rows and columns.  A text is kept or replaced by a
    non-empty text; the box of a cell is kept or replaced by a box
    tagged TOPLEFT. *)
Theorem process_conversion_result_shape (document : Doc.Document) :
  exists document',
    snd (fst (process_conversion_result U pil rt self (Some document)))
    = Some document'
    /\ document_enhanced document document'.
Proof.
  destruct (process_conversion_result_kept document) as (d' & E & Hk & _).
  exists d'. split; [assumption|].
  eapply document_kept_enhanced. exact Hk.
Qed.

(** [X16] A text element for which the analyzer raises no flag, or
    whose first provenance record is on no page that has an image, is
    left as it is; so is a table that is on no such page; and in every
    table the text of a cell for which the analyzer raises no flag is
    left as it is. *)
Theorem process_conversion_result_keeps (document : Doc.Document) :
  exists document',
    snd (fst (process_conversion_result U pil rt self (Some document)))
    = Some document'
    /\ Forall2 (fun t t' =>
                  unflagged U self (Text.text t)
                  \/ off_pages pil (Doc.pages document) (Text.item t) ->
                  t' = t)
               (Doc.texts document) (Doc.texts document')
    /\ Forall2 (fun tb tb' =>
                  (off_pages pil (Doc.pages document) (Table.item tb) ->
                   tb' = tb)
                  /\ Forall2 (fun c c' =>
                                unflagged U self (Cell.text c) ->
                                Cell.text c' = Cell.text c)
                             (Table.table_cells tb) (Table.table_cells tb'))
               (Doc.tables document) (Doc.tables document').
Proof.
  destruct (process_conversion_result_kept document)
    as (d' & E & (Hx & Ht & _) & _).
  exists d'. split; [assumption|]. split.
  - eapply Forall2_impl; [|exact Hx].
    intros t t' (_ & Hu & Hs) [H|H]; auto.
  - eapply Forall2_impl; [|exact Ht].
    intros tb tb' (_ & Hc & Hs). split; [assumption|].
    eapply Forall2_impl; [|exact Hc]. intros c c' (_ & H). exact H.
Qed.

(** [X17] [process_conversion_result] never changes the two flags of
    the orchestrator, and changes its adapter only by load attempts; an
    orchestrator whose adapter is loaded is returned as it was. *)
Theorem process_conversion_result_adapter
        (conversion_result : option Doc.Document) :
  let self' :=
    snd (process_conversion_result U pil rt self conversion_result) in
  enable_formula_enhancement self' = enable_formula_enhancement self
  /\ enable_character_encoding_fix self'
     = enable_character_encoding_fix self
  /\ used rt (ocr_enhancer self) (ocr_enhancer self')
  /\ (_models_loaded (ocr_enhancer self) = true -> self' = self).
Proof.
  cbv zeta.
  assert (H : enable_formula_enhancement
                (snd (process_conversion_result U pil rt self
                                                conversion_result))
              = enable_formula_enhancement self
              /\ enable_character_encoding_fix
                   (snd (process_conversion_result U pil rt self
                                                   conversion_result))
                 = enable_character_encoding_fix self
              /\ used rt (ocr_enhancer self)
                      (ocr_enhancer
                         (snd (process_conversion_result U pil rt self
                                                         conversion_result)))).
  { destruct conversion_result as [document|];
      [|simpl; repeat split; apply used_refl].
    destruct (process_conversion_result_kept document) as (_ & _ & _ & Hu).
    split; [|split; [|exact Hu]];
      unfold process_conversion_result;
      destruct (negb (enable_formula_enhancement self
                      || enable_character_encoding_fix self));
      try reflexivity;
      destruct (process_pages U pil rt self (Doc.pages document) document
                              (ocr_enhancer self)) as [[res d'] ocr];
      reflexivity. }
  destruct H as (Hf & He & Hu).
  repeat split; try assumption.
  intros Hl. destruct Hu as [n Hn].
  rewrite (uses_loaded Image Detector rt n _ Hl) in Hn.
  destruct (snd (process_conversion_result U pil rt self conversion_result))
    as [f e o].
  destruct self as [f0 e0 o0]. simpl in *. congruence.
Qed.

Lemma process_pages_without_images (pages : list (Z * Page.PageItem))
      (document : Doc.Document) (ocr : OCREnhancer Image Detector) :
  Forall (fun entry => _get_page_image pil (snd entry) = None) pages ->
  process_pages U pil rt self pages document ocr = (Ok tt, document, ocr).
Proof.
  induction 1 as [|[page_num page] rest Hp _ IH]; simpl; [reflexivity|].
  simpl in Hp. rewrite Hp. exact IH.
Qed.

(** [X18] When no page of the document gives an image (no image
    reference, no URI, a URI that is no data URL, or data that does not
    decode), [process_conversion_result] returns the document and the
    orchestrator as they were, whatever the flags: no element is
    visited and no model is loaded. *)
Theorem pages_without_image_are_skipped (document : Doc.Document) :
  Forall (fun entry => _get_page_image pil (snd entry) = None)
         (Doc.pages document) ->
  process_conversion_result U pil rt self (Some document)
  = (Ok tt, Some document, self).
Proof.
  intros H. unfold process_conversion_result.
  destruct (negb (enable_formula_enhancement self
                  || enable_character_encoding_fix self)); [reflexivity|].
  rewrite (process_pages_without_images _ _ _ H), set_ocr_same.
  reflexivity.
Qed.
End Run.

Lemma process_conversion_result_adapter_witness :
  snd (process_conversion_result Sample.ucd Sample.pil Fixture.flaky
         Fixture.warm (Some (Sample.document 100 100)))
  = Fixture.warm.
Proof.
  exact (proj2 (proj2 (proj2
           (process_conversion_result_adapter
              Sample.Raster unit Sample.ucd Sample.pil Fixture.flaky
              Fixture.warm (Some (Sample.document 100 100)))))
           eq_refl).
Defined.

Lemma pages_without_image_are_skipped_witness :
  process_conversion_result Sample.ucd Sample.pil Sample.ready
                            (Sample.enhancer true true)
                            (Some Fixture.unrendered)
  = (Ok tt, Some Fixture.unrendered, Sample.enhancer true true).
Proof.
  apply (pages_without_image_are_skipped
           Sample.Raster unit Sample.ucd Sample.pil Sample.ready
           (Sample.enhancer true true) Fixture.unrendered).
  repeat constructor.
Defined.

(** ** image_processor.py *)

Lemma split_comma_first (header payload : string) :
  no_comma header = true ->
  split_comma (header ++ String ","%char payload)%string
  = Some (header, payload).
Proof.
  induction header as [|c header IH]; simpl; intros H.
  - reflexivity.
  - apply andb_true_iff in H. destruct H as [Hc Hh].
    apply negb_true_iff in Hc. rewrite Hc, (IH Hh). reflexivity.
Qed.

Lemma split_comma_Some (s header payload : string) :
  split_comma s = Some (header, payload) ->
  s = (header ++ String ","%char payload)%string /\ no_comma header = true.
Proof.
  revert header. induction s as [|c s IH]; simpl; intros header H;
    [discriminate|].
  destruct (Ascii.eqb c ","%char) eqn:Ec.
  - apply Ascii.eqb_eq in Ec. inversion H; subst. simpl. auto.
  - destruct (split_comma s) as [[h d]|]; [|discriminate].
    inversion H; subst. destruct (IH h eq_refl) as [-> Hh].
    simpl. rewrite Ec, Hh. auto.
Qed.

(** [X19] [extract_page_image_from_data_uri] gives an image exactly
    when the URI starts with [data:], holds a comma, and the text after
    its first comma decodes to that image; every other URI, and every
    decoding error, gives [None]. *)
Theorem extract_page_image_from_data_uri_spec
        (Image : Type) (pil : Imaging Image) (data_uri : string)
        (image : Image) :
  extract_page_image_from_data_uri pil data_uri = Some image
  <-> String.prefix "data:" data_uri = true
      /\ exists header payload,
          data_uri = (header ++ String ","%char payload)%string
          /\ no_comma header = true
          /\ open_base64 pil payload = Ok image.
Proof.
  unfold extract_page_image_from_data_uri. split.
  - destruct (String.prefix "data:" data_uri); [|discriminate]. simpl.
    destruct (split_comma data_uri) as [[header payload]|] eqn:Es;
      [|discriminate].
    destruct (open_base64 pil payload) as [img|e] eqn:Eo; [|discriminate].
    intros H. inversion H; subst. split; [reflexivity|].
    destruct (split_comma_Some _ _ _ Es) as [E Hh].
    exists header, payload. auto.
  - intros (Hp & header & payload & -> & Hh & Ho).
    rewrite Hp. simpl. rewrite (split_comma_first header payload Hh), Ho.
    reflexivity.
Qed.

(** ** text_quality_analyzer.py *)

Section Verdict.
Variable U : UnicodeData.

Lemma blank_incl (a b : pystr) :
  incl a b ->
  negb (truthy b) || negb (truthy (strip U b)) = true ->
  negb (truthy a) || negb (truthy (strip U a)) = true.
Proof.
  intros Hab Hb. apply blank_iff. apply (blank_iff U) in Hb.
  rewrite Forall_forall in *. auto.
Qed.

Lemma encoding_incl (a b : pystr) :
  incl a b ->
  _has_encoding_issues U a = true -> _has_encoding_issues U b = true.
Proof.
  intros Hab Ha. apply encoding_iff. apply (encoding_iff U) in Ha.
  destruct Ha as [(c & He & Hc) | (c & Hc & Hlt & Hs)].
  - left. exists c. auto.
  - right. exists c. auto.
Qed.

Lemma formula_incl (a b : pystr) :
  incl a b ->
  _needs_formula_enhancement U a = true ->
  _needs_formula_enhancement U b = true.
Proof.
  intros Hab Ha. apply formula_iff. apply (formula_iff U) in Ha.
  destruct Ha as [(c & Hc & Hd) (d & Hd' & Hal & Hn)].
  split; [exists c; auto|exists d; auto].
Qed.

Lemma needs_incl (a b : pystr) (check_formula check_encoding : bool) :
  incl a b ->
  (Needs.encoding (needs_ocr_enhancement U a check_formula check_encoding)
   = true ->
   Needs.encoding (needs_ocr_enhancement U b check_formula check_encoding)
   = true)
  /\ (Needs.formula (needs_ocr_enhancement U a check_formula check_encoding)
      = true ->
      Needs.formula (needs_ocr_enhancement U b check_formula check_encoding)
      = true).
Proof.
  intros Hab. unfold needs_ocr_enhancement.
  destruct (negb (truthy a) || negb (truthy (strip U a))) eqn:Ea;
    [simpl; split; discriminate|].
  destruct (negb (truthy b) || negb (truthy (strip U b))) eqn:Eb.
  - rewrite (blank_incl a b Hab Eb) in Ea. discriminate.
  - simpl. split.
    + destruct check_encoding; [apply encoding_incl; assumption|auto].
    + destruct check_formula; [apply formula_incl; assumption|auto].
Qed.

(** [X20] The flags of the analyzer only grow with the text: when
    every character of [a] occurs in [b] (as when [b] is [a] with text
    added before, after or inside), a flag raised for [a] is raised for
    [b] under the same two options. *)
Theorem flags_grow_with_the_text
        (a b : pystr) (check_formula check_encoding : bool) :
  incl a b ->
  (Needs.encoding (needs_ocr_enhancement U a check_formula check_encoding)
   = true ->
   Needs.encoding (needs_ocr_enhancement U b check_formula check_encoding)
   = true)
  /\ (Needs.formula (needs_ocr_enhancement U a check_formula check_encoding)
      = true ->
      Needs.formula (needs_ocr_enhancement U b check_formula check_encoding)
      = true).
Proof. apply needs_incl. Qed.

(** [X21] The verdict of the analyzer depends only on which characters
    occur in the text, not on their order or on how often they occur. *)
Theorem verdict_depends_on_characters_only
        (a b : pystr) (check_formula check_encoding : bool) :
  (forall c, In c a <-> In c b) ->
  needs_ocr_enhancement U a check_formula check_encoding
  = needs_ocr_enhancement U b check_formula check_encoding.
Proof.
  intros H.
  assert (Hab : incl a b) by (intros c Hc; apply H; assumption).
  assert (Hba : incl b a) by (intros c Hc; apply H; assumption).
  destruct (needs_incl a b check_formula check_encoding Hab) as [E1 F1].
  destruct (needs_incl b a check_formula check_encoding Hba) as [E2 F2].
  destruct (needs_ocr_enhancement U a check_formula check_encoding)
    as [ea fa].
  destruct (needs_ocr_enhancement U b check_formula check_encoding)
    as [eb fb].
  simpl in *. f_equal.
  - destruct ea, eb; auto. symmetry. auto.
  - destruct fa, fb; auto. symmetry. auto.
Qed.
End Verdict.

Lemma flags_grow_with_the_text_witness :
  Needs.formula (needs_ocr_enhancement Sample.ucd (str "see x2 below")
                                       true true) = true.
Proof.
  refine (proj2 (flags_grow_with_the_text Sample.ucd (str "x2")
                   (str "see x2 below") true true _) eq_refl).
  intros c Hc. simpl in Hc |- *. tauto.
Defined.

Lemma verdict_depends_on_characters_only_witness :
  needs_ocr_enhancement Sample.ucd (str "x2") true true
  = needs_ocr_enhancement Sample.ucd (str "2x2x") true true.
Proof.
  apply (verdict_depends_on_characters_only Sample.ucd (str "x2")
                                            (str "2x2x") true true).
  intros c. simpl. tauto.
Defined.

(** ** enhancement_store.py *)

Section StoreFacts.
Import Store.

Lemma get_options_None (self : EnhancementStore) (task_id : string) :
get_options self task_id = None <-> ~ In task_id (map fst self).
Proof.
induction self as [|[k v] rest IH]; simpl.
- tauto.
- destruct (String.eqb k task_id) eqn:E.
  + apply String.eqb_eq in E. split; [discriminate|]. intros H. tauto.
  + apply String.eqb_neq in E. rewrite IH. tauto.
Qed.

Lemma keys_set_options (self : EnhancementStore) (task_id : string)
    (options : EnhancementOptions) :
map fst (set_options self task_id options)
= if in_dec string_dec task_id (map fst self) then map fst self
  else map fst self ++ [task_id].
Proof.
induction self as [|[k v] rest IH]; simpl; [reflexivity|].
destruct (String.eqb k task_id) eqn:E.
- apply String.eqb_eq in E. subst.
  destruct (string_dec task_id task_id); [reflexivity|congruence].
- apply String.eqb_neq in E. simpl. rewrite IH.
  destruct (string_dec k task_id); [congruence|].
  destruct (in_dec string_dec task_id (map fst rest)); reflexivity.
Qed.

Lemma keys_remove_options (self : EnhancementStore) (task_id : string) :
incl (map fst (remove_options self task_id)) (map fst self)
/\ (well_formed self ->
    well_formed (remove_options self task_id)
    /\ ~ In task_id (map fst (remove_options self task_id))).
Proof.
unfold well_formed.
induction self as [|[k v] rest [IHi IHw]]; simpl.
- split; [apply incl_refl|]. intros H. split; [assumption|tauto].
- destruct (String.eqb k task_id) eqn:E.
  + apply String.eqb_eq in E. subst.
    split; [apply incl_tl, incl_refl|].
    intros H. inversion H; subst. auto.
  + apply String.eqb_neq in E. simpl.
    split; [apply incl_cons; [left; reflexivity|apply incl_tl, IHi]|].
    intros H. inversion H as [|x xs Hn Hrest]; subst.
    destruct (IHw Hrest) as [Hw Hk].
    split; [constructor; [intros Hin; apply Hn, IHi, Hin|assumption]|].
    intros [Hin|Hin]; [congruence|tauto].
Qed.

Lemma remove_options_missing (self : EnhancementStore) (task_id : string) :
get_options self task_id = None -> remove_options self task_id = self.
Proof.
induction self as [|[k v] rest IH]; simpl; [reflexivity|].
destruct (String.eqb k task_id); [discriminate|].
intros H. rewrite (IH H). reflexivity.
Qed.

(** [X22] After [set_options] the store answers the new options for that
  task id and what it answered before for every other id; an earlier
  entry of the same id is overwritten. *)
Theorem get_options_set_options
      (self : EnhancementStore) (task_id other : string)
      (options : EnhancementOptions) :
get_options (set_options self task_id options) other
= if String.eqb task_id other then Some options
  else get_options self other.
Proof.
induction self as [|[k v] rest IH]; simpl.
- destruct (String.eqb task_id other); reflexivity.
- destruct (String.eqb k task_id) eqn:E; simpl.
  + apply String.eqb_eq in E. subst.
    destruct (String.eqb task_id other); reflexivity.
  + rewrite IH. destruct (String.eqb k other) eqn:Eo; [|reflexivity].
    apply String.eqb_eq in Eo. subst. rewrite String.eqb_sym, E.
    reflexivity.
Qed.

(** [X23] After [remove_options] the store answers [None] for that task
  id and what it answered before for every other id; removing an id
  that the store does not hold changes nothing. *)
Theorem get_options_remove_options
      (self : EnhancementStore) (task_id : string) :
well_formed self ->
(forall other,
    get_options (remove_options self task_id) other
    = if String.eqb task_id other then None else get_options self other)
/\ (get_options self task_id = None -> remove_options self task_id = self).
Proof.
intros Hw. split; [|apply remove_options_missing].
intros other. destruct (String.eqb task_id other) eqn:E.
- apply String.eqb_eq in E. subst.
  apply get_options_None.
  apply (proj2 (keys_remove_options self other) Hw).
- clear Hw. induction self as [|[k v] rest IH]; simpl; [reflexivity|].
  destruct (String.eqb k task_id) eqn:Ek; simpl.
  + apply String.eqb_eq in Ek. subst. rewrite E. reflexivity.
  + rewrite IH. reflexivity.
Qed.

(** [X24] The task ids of the store stay distinct under every method;
  [set_options] appends a new id after the others and keeps the place
  of a known one; and removing an id right after it was added to a
  store that did not hold it gives the store back. *)
Theorem store_keys_stay_distinct
      (self : EnhancementStore) (task_id : string)
      (options : EnhancementOptions) :
well_formed self ->
well_formed (set_options self task_id options)
/\ well_formed (remove_options self task_id)
/\ well_formed (clear self)
/\ map fst (set_options self task_id options)
   = (if in_dec string_dec task_id (map fst self) then map fst self
      else map fst self ++ [task_id])
/\ (get_options self task_id = None ->
    remove_options (set_options self task_id options) task_id = self).
Proof.
intros Hw. split; [|split; [|split; [|split]]].
- unfold well_formed. rewrite keys_set_options.
  destruct (in_dec string_dec task_id (map fst self)) as [Hin|Hin];
    [assumption|].
  apply NoDup_app; [assumption|repeat constructor; intros []|].
  intros x Hx [<-|[]]. contradiction.
- apply (proj2 (keys_remove_options self task_id) Hw).
- constructor.
- apply keys_set_options.
- clear Hw. induction self as [|[k v] rest IH]; simpl.
  + rewrite String.eqb_refl. reflexivity.
  + destruct (String.eqb k task_id) eqn:E; [discriminate|].
    intros H. simpl. rewrite E, (IH H). reflexivity.
Qed.

End StoreFacts.

Lemma get_options_remove_options_witness :
  Store.get_options
    (Store.remove_options
       (Store.set_options
          (Store.set_options Store.new_EnhancementStore "a"
             {| Store.enable_advanced_formula_enrichment := true;
                Store.enable_character_encoding_fix := false |})
          "b"
          {| Store.enable_advanced_formula_enrichment := false;
             Store.enable_character_encoding_fix := true |})
       "a")
    "b"
  = Some {| Store.enable_advanced_formula_enrichment := false;
            Store.enable_character_encoding_fix := true |}.
Proof.
  refine (proj1 (get_options_remove_options
                   (Store.set_options
                      (Store.set_options Store.new_EnhancementStore "a" _)
                      "b" _)
                   "a" _) "b"%string).
  repeat constructor; simpl; intuition discriminate.
Defined.

Lemma two_tasks_well_formed : Store.well_formed Fixture.two_tasks.
Proof.
  repeat constructor; simpl; intuition discriminate.
Qed.

(** In a store that holds "a" and "b": a new task "c" is added after
    them and removing it again gives the store back; setting "a" again
    keeps the order of the ids; and the ids stay distinct when "a" is
    removed. *)
Lemma store_keys_stay_distinct_witness :
  map fst (Store.set_options Fixture.two_tasks "c" Fixture.formula_only)
  = ["a"; "b"; "c"]%string
  /\ Store.remove_options
       (Store.set_options Fixture.two_tasks "c" Fixture.formula_only) "c"
     = Fixture.two_tasks
  /\ map fst (Store.set_options Fixture.two_tasks "a" Fixture.encoding_only)
     = ["a"; "b"]%string
  /\ Store.well_formed
       (Store.set_options Fixture.two_tasks "a" Fixture.encoding_only)
  /\ Store.well_formed (Store.remove_options Fixture.two_tasks "a").
Proof.
  assert (Hc := store_keys_stay_distinct Fixture.two_tasks "c"
                  Fixture.formula_only two_tasks_well_formed).
  assert (Ha := store_keys_stay_distinct Fixture.two_tasks "a"
                  Fixture.encoding_only two_tasks_well_formed).
  destruct Hc as (_ & _ & _ & Hkeys_c & Hundo).
  destruct Ha as (Hset & Hrem & _ & Hkeys_a & _).
  split; [exact (eq_trans Hkeys_c eq_refl)|].
  split; [exact (Hundo eq_refl)|].
  split; [exact (eq_trans Hkeys_a eq_refl)|].
  split; assumption.
Defined.
